(** * FreeCodeCamp scraper: a shallow embedding of [FCCScraper]

    The development follows the scraper class of the repository
    (getCertificationPages, scrapePage, scrapeCertification, saveContent,
    updateJob, extractKeywords, htmlToMarkdown) and proves the properties the
    specification states about them.

    Conventions of the embedding.
    - A JavaScript string is a [string]: a sequence of code units.  Rocq
      characters are 8 bits wide, so the strings covered are those whose code
      units lie in U+0000..U+00FF; on that range [toLowerCase], the regular
      expression classes [\w], [\W], [\s] and the UTF-8 encoding are the
      JavaScript ones.
    - Counters are integers below 2^53 and are kept as [nat]; the progress
      percentage is a binary64 number computed with the operations of
      [SpecFloat].
    - The HTTP client, the HTML parser and the database are collaborators:
      what they answer is an input of the model (a fetch outcome, the
      elements a selector matches, a store outcome). *)

From Stdlib Require Import ZArith NArith List String Ascii Lia Bool Sorted.
From Stdlib Require Import Permutation SpecFloat DecimalString.
From stdpp Require Import base list strings gmap.
Import ListNotations.

Local Open Scope string_scope.
Local Open Scope nat_scope.

Set Default Proof Using "Type".

(** ** Code units and the string primitives the scraper uses *)

Module JsString.

Definition code (c : ascii) : nat := nat_of_ascii c.

Definition between (lo hi n : nat) : bool := (lo <=? n) && (n <=? hi).

(** The class [\w] of a regular expression without the unicode flag. *)
Definition is_word (c : ascii) : bool :=
  let n := code c in
  between 48 57 n || between 65 90 n || between 97 122 n || (n =? 95).

(** White space and line terminators: the class [\s], also what [trim] strips. *)
Definition is_space (c : ascii) : bool :=
  let n := code c in
  between 9 13 n || (n =? 32) || (n =? 160).

Definition lower_char (c : ascii) : ascii :=
  let n := code c in
  if between 65 90 n || (between 192 222 n && negb (n =? 215))
  then ascii_of_nat (n + 32) else c.

Fixpoint toLowerCase (s : string) : string :=
  match s with
  | EmptyString => EmptyString
  | String c s' => String (lower_char c) (toLowerCase s')
  end.

Fixpoint trimStart (s : string) : string :=
  match s with
  | EmptyString => EmptyString
  | String c s' => if is_space c then trimStart s' else s
  end.

Fixpoint trimEnd (s : string) : string :=
  match s with
  | EmptyString => EmptyString
  | String c s' =>
      match trimEnd s' with
      | EmptyString => if is_space c then EmptyString else String c EmptyString
      | t => String c t
      end
  end.

Definition trim (s : string) : string := trimEnd (trimStart s).

Definition startsWith (p s : string) : bool := String.prefix p s.

Fixpoint includes (sub s : string) : bool :=
  String.prefix sub s ||
  match s with
  | EmptyString => false
  | String _ s' => includes sub s'
  end.

Fixpoint str_drop (n : nat) (s : string) : string :=
  match n, s with
  | S n', String _ s' => str_drop n' s'
  | _, _ => s
  end.

Fixpoint str_repeat (s : string) (n : nat) : string :=
  match n with
  | O => EmptyString
  | S n' => s ++ str_repeat s n'
  end.

(** A string is truthy when it is not empty. *)
Definition truthy (s : string) : bool := negb (String.eqb s EmptyString).

(** [a || b] on strings. *)
Definition or_else (a b : string) : string := if truthy a then a else b.

(** [s.split(sep)] for a one-character separator: every separator cuts, so
    empty pieces remain. *)
Fixpoint split_char (sep : ascii) (s : string) : list string :=
  match s with
  | EmptyString => [EmptyString]
  | String c s' =>
      if Ascii.eqb c sep then EmptyString :: split_char sep s'
      else match split_char sep s' with
           | t :: ts => String c t :: ts
           | [] => [String c EmptyString]
           end
  end.

Definition starts_with_class (cls : ascii -> bool) (s : string) : bool :=
  match s with
  | EmptyString => false
  | String c _ => cls c
  end.

(** [s.split(/C+/)] for a character class [C]: a maximal run of separators
    cuts once; a run at either end leaves an empty piece there. *)
Fixpoint split_class (cls : ascii -> bool) (s : string) : list string :=
  match s with
  | EmptyString => [EmptyString]
  | String c s' =>
      if cls c then
        if starts_with_class cls s' then split_class cls s'
        else EmptyString :: split_class cls s'
      else match split_class cls s' with
           | t :: ts => String c t :: ts
           | [] => [String c EmptyString]
           end
  end.

(** The longest prefix made of word characters: what [\w+] consumes. *)
Fixpoint take_word (s : string) : string :=
  match s with
  | EmptyString => EmptyString
  | String c s' => if is_word c then String c (take_word s') else EmptyString
  end.

Definition newline : string := String (ascii_of_nat 10) EmptyString.

End JsString.

Import JsString.

(** ** SHA-256 (FIPS 180-4), the digest behind [crypto.createHash('sha256')] *)

Module Sha256.
Local Open Scope Z_scope.

Definition w32 (x : Z) : Z := x mod 2 ^ 32.
Definition add32 (x y : Z) : Z := w32 (x + y).
Definition rotr (n x : Z) : Z := w32 (Z.lor (Z.shiftr x n) (Z.shiftl x (32 - n))).
Definition not32 (x : Z) : Z := Z.lxor x 0xffffffff.

Definition Ch (x y z : Z) : Z := Z.lxor (Z.land x y) (Z.land (not32 x) z).
Definition Maj (x y z : Z) : Z :=
  Z.lxor (Z.lxor (Z.land x y) (Z.land x z)) (Z.land y z).
Definition Sigma0 (x : Z) : Z := Z.lxor (Z.lxor (rotr 2 x) (rotr 13 x)) (rotr 22 x).
Definition Sigma1 (x : Z) : Z := Z.lxor (Z.lxor (rotr 6 x) (rotr 11 x)) (rotr 25 x).
Definition sigma0 (x : Z) : Z := Z.lxor (Z.lxor (rotr 7 x) (rotr 18 x)) (Z.shiftr x 3).
Definition sigma1 (x : Z) : Z := Z.lxor (Z.lxor (rotr 17 x) (rotr 19 x)) (Z.shiftr x 10).

(** The first [n] primes, by trial division. *)
Definition is_prime (p : nat) : bool :=
  forallb (fun d => negb (p mod d =? 0)%nat) (seq 2 (p - 2)).

Definition first_primes (n : nat) : list Z :=
  map Z.of_nat (firstn n (List.filter is_prime (seq 2 400))).

(** The largest [r] below [2 ^ bits] whose cube is at most [n], one bit at a
    time. *)
Fixpoint cube_root (bits : nat) (n r : Z) : Z :=
  match bits with
  | O => r
  | S b =>
      let c := r + 2 ^ Z.of_nat b in
      cube_root b n (if c * c * c <=? n then c else r)
  end.

(** The round constants: the first 32 bits of the fractional parts of the
    cube roots of the first 64 primes. *)
Definition K : list Z :=
  Eval vm_compute in
    map (fun p => w32 (cube_root 40 (p * 2 ^ 96) 0)) (first_primes 64).

(** The eight working words. *)
Record state := State { ha : Z; hb : Z; hc : Z; hd : Z; he : Z; hf : Z; hg : Z; hh : Z }.

(** The initial hash value: the first 32 bits of the fractional parts of the
    square roots of the first 8 primes. *)
Definition initial_word (i : nat) : Z :=
  w32 (Z.sqrt (nth i (first_primes 8) 0 * 2 ^ 64)).

Definition H0 : state :=
  Eval vm_compute in
    State (initial_word 0) (initial_word 1) (initial_word 2) (initial_word 3)
          (initial_word 4) (initial_word 5) (initial_word 6) (initial_word 7).

(** Padding: a one bit, zeros up to 56 modulo 64, the bit length on 8 bytes. *)
Definition be_bytes (width : nat) (v : Z) : list Z :=
  map (fun i => (v / 256 ^ Z.of_nat i) mod 256) (rev (seq 0 width)).

Definition pad (msg : list Z) : list Z :=
  let len := Z.of_nat (length msg) in
  let zeros := Z.to_nat ((55 - len) mod 64) in
  msg ++ 0x80 :: List.repeat 0 zeros ++ be_bytes 8 (8 * len).

Fixpoint be_words (bytes : list Z) : list Z :=
  match bytes with
  | b0 :: b1 :: b2 :: b3 :: rest =>
      (((b0 * 256 + b1) * 256 + b2) * 256 + b3) :: be_words rest
  | _ => []
  end.

Fixpoint blocks (fuel : nat) (words : list Z) : list (list Z) :=
  match fuel, words with
  | S fuel', _ :: _ => firstn 16 words :: blocks fuel' (skipn 16 words)
  | _, _ => []
  end.

(** The message schedule, grown one word at a time from 16 to 64 words. *)
Definition next_w (w : list Z) : Z :=
  let t := length w in
  let at_ k := nth (t - k) w 0 in
  w32 (sigma1 (at_ 2%nat) + at_ 7%nat + sigma0 (at_ 15%nat) + at_ 16%nat).

Fixpoint extend (n : nat) (w : list Z) : list Z :=
  match n with
  | O => w
  | S n' => extend n' (w ++ [next_w w])
  end.

Definition schedule (block : list Z) : list Z := extend 48 block.

Definition round (s : state) (kw : Z * Z) : state :=
  let t1 := w32 (hh s + Sigma1 (he s) + Ch (he s) (hf s) (hg s) + fst kw + snd kw) in
  let t2 := w32 (Sigma0 (ha s) + Maj (ha s) (hb s) (hc s)) in
  State (add32 t1 t2) (ha s) (hb s) (hc s) (add32 (hd s) t1) (he s) (hf s) (hg s).

Definition compress (h : state) (block : list Z) : state :=
  let s := fold_left round (combine K (schedule block)) h in
  State (add32 (ha h) (ha s)) (add32 (hb h) (hb s)) (add32 (hc h) (hc s))
        (add32 (hd h) (hd s)) (add32 (he h) (he s)) (add32 (hf h) (hf s))
        (add32 (hg h) (hg s)) (add32 (hh h) (hh s)).

Definition hash_state (msg : list Z) : state :=
  let words := be_words (pad msg) in
  fold_left compress (blocks (length words) words) H0.

(** The digest as one 256-bit number, most significant word first. *)
Definition pack (s : state) : Z :=
  ((((((ha s * 2 ^ 32 + hb s) * 2 ^ 32 + hc s) * 2 ^ 32 + hd s) * 2 ^ 32
      + he s) * 2 ^ 32 + hf s) * 2 ^ 32 + hg s) * 2 ^ 32 + hh s.

Definition digest (msg : list Z) : Z := pack (hash_state msg).

Definition hex_digit (d : Z) : ascii :=
  ascii_of_nat (Z.to_nat (if d <? 10 then 48 + d else 87 + d)).

(** [digits] lower-case hexadecimal digits of [v], most significant first. *)
Definition hex (digits : nat) (v : Z) : string :=
  string_of_list_ascii
    (map (fun i => hex_digit ((v / 16 ^ Z.of_nat i) mod 16)) (rev (seq 0 digits))).

(** The UTF-8 bytes of a string whose code units are below U+0100. *)
Fixpoint utf8 (s : string) : list Z :=
  match s with
  | EmptyString => []
  | String c s' =>
      let n := Z.of_nat (nat_of_ascii c) in
      if n <? 128 then n :: utf8 s'
      else (192 + n / 64) :: (128 + n mod 64) :: utf8 s'
  end.

(** [createHash('sha256').update(s).digest('hex')] *)
Definition sha256_hex (s : string) : string := hex 64 (digest (utf8 s)).

End Sha256.

(** ** Numbers: binary64 arithmetic for the progress percentage *)

Module Number.

Definition prec : Z := 53.
Definition emax : Z := 1024.

Definition of_nat (n : nat) : spec_float :=
  binary_normalize prec emax (Z.of_nat n) 0 false.

Definition div (x y : spec_float) : spec_float := SFdiv prec emax x y.
Definition mul (x y : spec_float) : spec_float := SFmul prec emax x y.
Definition leb (x y : spec_float) : bool := SFleb x y.
Definition eqb (x y : spec_float) : bool := SFeqb x y.

(** The rational value [m * 2^e] of a finite number, as a fraction. *)
Definition to_fraction (x : spec_float) : Z * Z :=
  match x with
  | S754_finite s m e =>
      let m' := if s then Z.neg m else Z.pos m in
      if (0 <=? e)%Z then (m' * 2 ^ e, 1) else (m', 2 ^ (- e))
  | _ => (0, 1)
  end%Z.

(** [n.toString()] for a counter. *)
Definition to_string (n : nat) : string := NilZero.string_of_uint (Nat.to_uint n).

End Number.

(** ** Ordinary objects used as string-keyed maps

    [frequency] in [extractKeywords] is an object literal: it inherits from
    [Object.prototype], and it enumerates its own keys with the array indices
    first, in ascending numeric order, and the other keys after them in the
    order of their creation. *)

Module JsObject.

Inductive value :=
| Num (n : nat)
| Str (s : string).

(** Own properties, oldest first. *)
Definition object := list (string * value).

Definition empty : object := [].

Fixpoint own (o : object) (k : string) : option value :=
  match o with
  | [] => None
  | (k', v) :: o' => if String.eqb k' k then Some v else own o' k
  end.

Definition prototype_functions : list string :=
  [ "__defineGetter__"; "__defineSetter__"; "hasOwnProperty";
    "__lookupGetter__"; "__lookupSetter__"; "isPrototypeOf";
    "propertyIsEnumerable"; "toString"; "valueOf"; "toLocaleString" ].

(** What an inherited property of [Object.prototype] turns into when a number
    is added to it: the text of the function, or of the prototype object. *)
Definition inherited (k : string) : option string :=
  if String.eqb k "constructor" then Some "function Object() { [native code] }"
  else if String.eqb k "__proto__" then Some "[object Object]"
  else if existsb (String.eqb k) prototype_functions
       then Some ("function " ++ k ++ "() { [native code] }")
       else None.

(** [(o[k] || 0) + 1] *)
Definition or_zero_plus_one (o : object) (k : string) : value :=
  match own o k with
  | Some (Num n) => Num (n + 1)
  | Some (Str s) => if truthy s then Str (s ++ "1") else Num 1
  | None =>
      match inherited k with
      | Some text => Str (text ++ "1")
      | None => Num 1
      end
  end.

Fixpoint replace (o : object) (k : string) (v : value) : object :=
  match o with
  | [] => []
  | (k', v') :: o' =>
      if String.eqb k' k then (k', v) :: o' else (k', v') :: replace o' k v
  end.

(** [o[k] = v] for a primitive [v]: the [__proto__] setter ignores it; an
    own property keeps its place; a new one is created last. *)
Definition set (o : object) (k : string) (v : value) : object :=
  if String.eqb k "__proto__" then o
  else match own o k with
       | Some _ => replace o k v
       | None => (o ++ [(k, v)])%list
       end.

(** An array index is a canonical numeric string below 2^32 - 1. *)
Definition array_index (k : string) : option N :=
  match NilZero.uint_of_string k with
  | Some d =>
      let n := N.of_uint d in
      if String.eqb (NilZero.string_of_uint (N.to_uint n)) k && (n <? 2 ^ 32 - 1)%N
      then Some n else None
  | None => None
  end.

Definition is_index (k : string) : bool :=
  match array_index k with Some _ => true | None => false end.

Definition index_value (k : string) : N :=
  match array_index k with Some n => n | None => 0%N end.

Fixpoint insert_by {A} (le : A -> A -> bool) (x : A) (l : list A) : list A :=
  match l with
  | [] => [x]
  | y :: l' => if le x y then x :: l else y :: insert_by le x l'
  end.

(** A stable sort: equal elements keep their order. *)
Definition stable_sort {A} (le : A -> A -> bool) (l : list A) : list A :=
  fold_right (insert_by le) [] l.

(** [Object.entries(o)] *)
Definition entries (o : object) : list (string * value) :=
  (stable_sort (fun a b => (index_value (fst a) <=? index_value (fst b))%N)
               (List.filter (fun e => is_index (fst e)) o)
   ++ List.filter (fun e => negb (is_index (fst e))) o)%list.

(** [array.sort(cmp)]: a stable sort when the comparator answers a number on
    every pair; when it answers NaN on some pair the order is the engine's. *)
Definition sort {A} (engine : list A -> list A) (cmp : A -> A -> option Z)
    (l : list A) : list A :=
  match l with
  | [] | [_] => l
  | _ =>
      if forallb (fun a => forallb (fun b => bool_decide (is_Some (cmp a b))) l) l
      then stable_sort (fun a b => match cmp a b with
                                   | Some d => (d <=? 0)%Z
                                   | None => true
                                   end) l
      else engine l
  end.

End JsObject.

(** ** Data model ([types.ts]) *)

Module Types.

Record CodeSnippet := { language : string; code : string }.

Record ScrapeResult := {
  success : bool;
  url : string;
  title : string;
  content : string;
  markdown : option string;
  codeSnippets : list CodeSnippet;
  wordCount : nat;
  characterCount : nat;
  keywords : list string;
  topics : list string;
  error : option string
}.

End Types.
Import Types.

Record ScraperConfig := {
  concurrency : nat;
  delayMs : N;
  timeoutMs : N;
  maxRetries : N;
  rateLimitPerMinute : N;
  rateLimitPerHour : N
}.

(** [Partial<ScraperConfig>]: every field may be missing. *)
Record PartialConfig := {
  p_concurrency : option nat;
  p_delayMs : option N;
  p_timeoutMs : option N;
  p_maxRetries : option N;
  p_rateLimitPerMinute : option N;
  p_rateLimitPerHour : option N
}.

(** [x || d] on an optional number: missing and zero both give the default. *)
Definition or_default (x : option nat) (d : nat) : nat :=
  match x with
  | Some (S n) => S n
  | _ => d
  end.

Definition or_default_N (x : option N) (d : N) : N :=
  match x with
  | Some (Npos p) => Npos p
  | _ => d
  end.

(** The constructor of [FCCScraper]. *)
Definition new_config (config : option PartialConfig) : ScraperConfig :=
  {| concurrency := or_default (config ≫= p_concurrency) 3;
     delayMs := or_default_N (config ≫= p_delayMs) 1000;
     timeoutMs := or_default_N (config ≫= p_timeoutMs) 30000;
     maxRetries := or_default_N (config ≫= p_maxRetries) 3;
     rateLimitPerMinute := or_default_N (config ≫= p_rateLimitPerMinute) 60;
     rateLimitPerHour := or_default_N (config ≫= p_rateLimitPerHour) 1000 |}.

Module Cert.
Record FCCCertification := {
  title : string;
  slug : string;
  url : string;
  description : string;
  category : string
}.
End Cert.

Definition FCC_BASE : string := "https://www.freecodecamp.org".

(** ** Collaborators *)

(** A value thrown by a collaborator: an [Error] with its message, or
    something that is not an [Error]. *)
Inductive Thrown :=
| ErrorObject (message : string)
| NotAnError.

(** [error instanceof Error ? error.message : 'Unknown error'] *)
Definition error_message (e : Thrown) : string :=
  match e with
  | ErrorObject m => m
  | NotAnError => "Unknown error"
  end.

Record Element := {
  tagName : string;
  attr_class : option string;
  attr_href : option string;
  text : string
}.

(** A loaded page, seen through the element queries the scraper makes; each
    field lists the matched elements in document order. *)
Record Document := {
  q_a : list Element;          (* a *)
  q_h1 : list Element;         (* h1 *)
  q_title : list Element;      (* title *)
  q_main : list Element;       (* .challenge-instructions, .certification-desc, article, main *)
  q_code : list Element;       (* pre code, .code-editor *)
  q_headings : list Element;   (* h1, h2, h3, h4 *)
  q_p : list Element;          (* p *)
  q_pre_code : list Element    (* pre code *)
}.

(** [await axios.get(url, ...)] followed by [cheerio.load(response.data)]:
    a transport failure, a non-2xx status or a parse failure throws. *)
Inductive Response :=
| Threw (e : Thrown)
| Loaded (doc : Document).

(** How a call to the database ends: it is carried out, it answers an error
    object (no data, no effect), or it throws. *)
Inductive Outcome :=
| Done
| Refused
| Failed (e : Thrown).

Inductive Table := knowledge_sources | knowledge_content | scraping_jobs.

(** Values stored in a job record. *)
Inductive JsVal :=
| VInt (n : nat)
| VNumber (x : spec_float)
| VString (s : string).

Module Row.
(** A row of [knowledge_content]. *)
Record ContentRow := {
  id : nat;
  source_id : string;
  url : string;
  title : string;
  content_type : string;
  content : string;
  markdown : option string;
  code_snippets : list CodeSnippet;
  word_count : nat;
  character_count : nat;
  keywords : list string;
  topics : list string;
  content_hash : string;
  processed : bool
}.

(** A row of [knowledge_sources], as far as the scraper reads it. *)
Record SourceRow := { src_id : string; src_url : string }.
End Row.

Inductive Event :=
| ConsoleLog (msg : string)
| ConsoleError (msg : string) (e : option Thrown)
| ContentInsert (row : Row.ContentRow)
| ContentUpdate (row : Row.ContentRow)
| JobUpdate (jobId : string) (updates : gmap string JsVal)
| Delay (ms : N)
| OnProgress (processed total : nat).

(** The scraper instance, the database and what has happened so far. *)
Record World := {
  sourceId : option string;                      (* this.sourceId *)
  sources : list Row.SourceRow;
  contents : list Row.ContentRow;
  jobs : gmap string (gmap string JsVal);        (* scraping_jobs, by id *)
  calls : nat;                                   (* database calls made *)
  trace : list Event                             (* oldest first *)
}.

Definition set_sourceId (s : option string) (w : World) : World :=
  {| sourceId := s; sources := sources w; contents := contents w;
     jobs := jobs w; calls := calls w; trace := trace w |}.

Definition set_contents (c : list Row.ContentRow) (w : World) : World :=
  {| sourceId := sourceId w; sources := sources w; contents := c;
     jobs := jobs w; calls := calls w; trace := trace w |}.

Definition set_jobs (j : gmap string (gmap string JsVal)) (w : World) : World :=
  {| sourceId := sourceId w; sources := sources w; contents := contents w;
     jobs := j; calls := calls w; trace := trace w |}.

Definition tick (w : World) : World :=
  {| sourceId := sourceId w; sources := sources w; contents := contents w;
     jobs := jobs w; calls := S (calls w); trace := trace w |}.

Definition emit (e : Event) (w : World) : World :=
  {| sourceId := sourceId w; sources := sources w; contents := contents w;
     jobs := jobs w; calls := calls w; trace := (trace w ++ [e])%list |}.

(** ** Control flow of an [async] body: go on, [return], or throw *)

Inductive Flow (A : Type) :=
| Next (a : A)
| Return
| Throw (e : Thrown).
Arguments Next {A} a.
Arguments Return {A}.
Arguments Throw {A} e.

Definition Action (A : Type) : Type := World -> Flow A * World.

#[global] Instance action_ret : MRet Action := fun A a w => (Next a, w).

#[global] Instance action_bind : MBind Action := fun A B f m w =>
  match m w with
  | (Next a, w') => f a w'
  | (Return, w') => (Return, w')
  | (Throw e, w') => (Throw e, w')
  end.

Definition return_ {A} : Action A := fun w => (Return, w).
Definition get_world : Action World := fun w => (Next w, w).
Definition modify (f : World -> World) : Action unit := fun w => (Next tt, f w).

(** [try { body } catch (error) { handler(error) }] around a whole function
    body: the function always returns. *)
Definition try_catch (body : Action unit) (handler : Thrown -> World -> World)
    (w : World) : World :=
  match body w with
  | (Throw e, w') => handler e w'
  | (_, w') => w'
  end.

(** [.single()]: the row when exactly one matches, no data otherwise. *)
Definition single {A} (rows : list A) : option A :=
  match rows with
  | [r] => Some r
  | _ => None
  end.

Definition fresh_id (rows : list Row.ContentRow) : nat :=
  S (list_max (map Row.id rows)).

Module Summary.
Record t := { success : nat; failed : nat; total : nat }.
End Summary.

Definition slice {A} (i j : nat) (l : list A) : list A := firstn (j - i) (skipn i l).

(** ** Sample site, database and run

    Concrete inputs on which the theorems below are instantiated. *)

Module Sample.

Definition engine (l : list (string * JsObject.value)) : list (string * JsObject.value) := l.

Definition root : string :=
  "https://www.freecodecamp.org/learn/2022/responsive-web-design/".

Definition elem (tag : string) (cls : option string) (txt : string) : Element :=
  {| tagName := tag; attr_class := cls; attr_href := None; text := txt |}.

Definition link (href : string) : Element :=
  {| tagName := "a"; attr_class := None; attr_href := Some href; text := "lesson" |}.

(** A listing with two lessons, one of them linked twice, and a link that
    does not lead to a lesson. *)
Definition listing_doc : Document :=
  {| q_a := [link "/learn/a"; link "/news/x"; link "/learn/b"; link "/learn/a"];
     q_h1 := []; q_title := []; q_main := []; q_code := []; q_headings := [];
     q_p := []; q_pre_code := [] |}.

(** A lesson with two code blocks: one of 12 characters, one of 10. *)
Definition page_doc : Document :=
  {| q_a := [];
     q_h1 := [elem "h1" None " Basic HTML "];
     q_title := [elem "title" None "freeCodeCamp"];
     q_main := [elem "main" None "  Learn HTML in 2024: zebra markup, HTML markup.  "];
     q_code := [elem "code" (Some "hljs language-html") "<p>hello</p>";
                elem "code" None "0123456789"];
     q_headings := [elem "h1" None " Basic HTML "];
     q_p := [elem "p" None "Learn HTML."];
     q_pre_code := [elem "code" (Some "hljs language-html") "<p>hello</p>"] |}.

Definition listing (u : string) : Response :=
  if String.eqb u root then Loaded listing_doc
  else Threw (ErrorObject "Request failed with status code 404").

(** The second lesson times out. *)
Definition page (u : string) : Response :=
  if String.eqb u "https://www.freecodecamp.org/learn/b"
  then Threw (ErrorObject "timeout of 30000ms exceeded")
  else Loaded page_doc.

Definition reliable (t : Table) (n : nat) : Outcome := Done.

(** The second call to the content table throws. *)
Definition write_throws (t : Table) (n : nat) : Outcome :=
  match t, n with
  | knowledge_content, 1 => Failed (ErrorObject "fetch failed")
  | _, _ => Done
  end.

Definition clock (n : nat) : string := "2024-01-01T03:00:00.000Z".

Definition config : ScraperConfig := new_config None.

Definition cert : Cert.FCCCertification :=
  {| Cert.title := "Responsive Web Design";
     Cert.slug := "responsive-web-design";
     Cert.url := root;
     Cert.description := "Learn HTML and CSS fundamentals";
     Cert.category := "web-design" |}.

(** A database with the source registered, no content and one pending job. *)
Definition world : World :=
  {| sourceId := None;
     sources := [{| Row.src_id := "source-1"; Row.src_url := FCC_BASE |}];
     contents := [];
     jobs := {[ "job-1" := (∅ : gmap string JsVal) ]};
     calls := 0;
     trace := [] |}.

Definition cached_world : World := set_sourceId (Some "source-1") world.

Definition article (t : string) : ScrapeResult :=
  {| success := true; url := root; title := t; content := "Learn HTML";
     markdown := Some "# Basic HTML"; codeSnippets := []; wordCount := 2;
     characterCount := 10; keywords := ["learn"; "html"]; topics := ["2022"];
     error := None |}.

End Sample.

(** The state of a run of scrapeCertification: its two counters, and the
    world. *)
Module Loop.
Record Run := {
  successCount : nat;
  failedCount : nat;
  world : World
}.
End Loop.
Import Loop.

(** ** The scraper *)

Section Scraper.

(** What the JavaScript engine does with an array whose comparator answers
    NaN. *)
Variable engine_sort : list (string * JsObject.value) -> list (string * JsObject.value).

(** The site, as seen when a listing is fetched and when a page is fetched. *)
Variable listing_get : string -> Response.
Variable page_get : string -> Response.

(** How the n-th call to the database ends, by table. *)
Variable store : Table -> nat -> Outcome.

(** [new Date().toISOString()] after n database calls. *)
Variable clock : nat -> string.

Variable config : ScraperConfig.

(** *** getCertificationPages *)

(** The elements [a[href^="/learn/"]] selects. *)
Definition learn_links (doc : Document) : list Element :=
  List.filter (fun elem => match attr_href elem with
                      | Some href => startsWith "/learn/" href
                      | None => false
                      end) (q_a doc).

Definition push_link (urls : list string) (elem : Element) : list string :=
  match attr_href elem with
  | Some href =>
      if truthy href && includes "/learn/" href then
        let fullUrl := if startsWith "http" href then href else FCC_BASE ++ href in
        if existsb (String.eqb fullUrl) urls then urls else (urls ++ [fullUrl])%list
      else urls
  | None => urls
  end.

Definition getCertificationPages (certUrl : string) (w : World) : list string * World :=
  match listing_get certUrl with
  | Loaded doc =>
      let urls := fold_left push_link (learn_links doc) [certUrl] in
      (firstn 50 urls, w)
  | Threw e =>
      ([certUrl],
       emit (ConsoleError ("Error getting pages from " ++ certUrl ++ ":") (Some e)) w)
  end.

(** *** extractKeywords *)

Definition count_word (frequency : JsObject.object) (word : string) : JsObject.object :=
  JsObject.set frequency word (JsObject.or_zero_plus_one frequency word).

(** [b[1] - a[1]]: not a number as soon as one side is a string. *)
Definition by_count (a b : string * JsObject.value) : option Z :=
  match snd a, snd b with
  | JsObject.Num x, JsObject.Num y => Some (Z.of_nat y - Z.of_nat x)%Z
  | _, _ => None
  end.

Definition keyword_tokens (content : string) : list string :=
  List.filter (fun word => 3 <? String.length word)
         (split_class (fun c => negb (is_word c)) (toLowerCase content)).

Definition extractKeywords (content : string) : list string :=
  let words := keyword_tokens content in
  let frequency := fold_left count_word words JsObject.empty in
  map fst (firstn 10 (JsObject.sort engine_sort by_count (JsObject.entries frequency))).

(** *** htmlToMarkdown *)

(** The first capture of [/language-(\w+)/] in a class attribute. *)
Fixpoint match_language (cls : string) : option string :=
  let here := if String.prefix "language-" cls
              then take_word (str_drop 9 cls) else EmptyString in
  if truthy here then Some here
  else match cls with
       | EmptyString => None
       | String _ rest => match_language rest
       end.

(** [$(elem).attr('class')?.match(/language-(\w+)/)?.[1] || 'javascript'] *)
Definition language_of (elem : Element) : string :=
  match attr_class elem ≫= match_language with
  | Some name => name
  | None => "javascript"
  end.

(** [parseInt(c)] of one character, with NaN counted as zero repetitions. *)
Definition digit_value (c : ascii) : nat :=
  let n := JsString.code c in if between 48 57 n then n - 48 else 0.

(** [parseInt(el.tagName[1])] *)
Definition heading_level (el : Element) : nat :=
  match tagName el with
  | String _ (String c _) => digit_value c
  | _ => 0
  end.

Definition md_heading (md : string) (el : Element) : string :=
  md ++ str_repeat "#" (heading_level el) ++ " " ++ trim (text el) ++ newline ++ newline.

Definition md_paragraph (md : string) (el : Element) : string :=
  md ++ trim (text el) ++ newline ++ newline.

Definition md_code (md : string) (el : Element) : string :=
  md ++ "```" ++ language_of el ++ newline ++ trim (text el) ++ newline
     ++ "```" ++ newline ++ newline.

Definition htmlToMarkdown (doc : Document) : string :=
  let md := fold_left md_heading (q_headings doc) EmptyString in
  let md := fold_left md_paragraph (q_p doc) md in
  let md := fold_left md_code (q_pre_code doc) md in
  trim md.

(** *** scrapePage *)

(** [.text()] of a selection: the texts of its elements, concatenated. *)
Definition selection_text (sel : list Element) : string :=
  String.concat EmptyString (map text sel).

(** [.first().text()] *)
Definition first_text (sel : list Element) : string :=
  match sel with
  | el :: _ => text el
  | [] => EmptyString
  end.

Definition push_snippet (codeSnippets : list CodeSnippet) (elem : Element)
    : list CodeSnippet :=
  let code := trim (text elem) in
  let language := language_of elem in
  if truthy code && (10 <? String.length code)
  then (codeSnippets ++ [{| language := language; code := code |}])%list
  else codeSnippets.

Definition topics_of (url : string) : list string :=
  List.filter (fun p => truthy p && negb (String.eqb p "learn")) (split_char "/" url).

Definition scrapePage (url : string) : ScrapeResult :=
  match page_get url with
  | Loaded doc =>
      let title := or_else (trim (first_text (q_h1 doc)))
                           (trim (selection_text (q_title doc))) in
      let content := trim (selection_text (q_main doc)) in
      let codeSnippets := fold_left push_snippet (q_code doc) [] in
      let markdown := htmlToMarkdown doc in
      let keywords := extractKeywords content in
      let topics := topics_of url in
      let wordCount := length (List.filter truthy (split_class is_space content)) in
      let characterCount := String.length content in
      {| success := true; url := url; title := title; content := content;
         markdown := Some markdown; codeSnippets := codeSnippets;
         wordCount := wordCount; characterCount := characterCount;
         keywords := keywords; topics := topics; error := None |}
  | Threw e =>
      {| success := false; url := url; title := EmptyString;
         content := EmptyString; markdown := None; codeSnippets := [];
         wordCount := 0; characterCount := 0; keywords := []; topics := [];
         error := Some (error_message e) |}
  end.

(** *** Calls to the database *)

Definition throw {A} (e : Thrown) : Action A := fun w => (Throw e, w).

Definition db_call (t : Table) : Action Outcome :=
  fun w => (Next (store t (calls w)), tick w).

(** [from('knowledge_sources').select('id').eq('url', FCC_BASE).single()] *)
Definition select_source : Action (option Row.SourceRow) :=
  o ← db_call knowledge_sources;
  match o with
  | Done =>
      w ← get_world;
      mret (single (List.filter (fun r => String.eqb (Row.src_url r) FCC_BASE) (sources w)))
  | Refused => mret None
  | Failed e => throw e
  end.

(** [from('knowledge_content').select('id, content_hash').eq('url', u).single()] *)
Definition select_content (u : string) : Action (option Row.ContentRow) :=
  o ← db_call knowledge_content;
  match o with
  | Done =>
      w ← get_world;
      mret (single (List.filter (fun r => String.eqb (Row.url r) u) (contents w)))
  | Refused => mret None
  | Failed e => throw e
  end.

(** [from('knowledge_content').update(contentData).eq('id', i)] *)
Definition update_content (i : nat) (contentData : nat -> Row.ContentRow) : Action unit :=
  o ← db_call knowledge_content;
  match o with
  | Done =>
      modify (fun w =>
        emit (ContentUpdate (contentData i))
             (set_contents
                (map (fun r => if Row.id r =? i then contentData i else r) (contents w)) w))
  | Refused => mret tt
  | Failed e => throw e
  end.

(** [from('knowledge_content').insert(contentData)]: the store numbers the row. *)
Definition insert_content (contentData : nat -> Row.ContentRow) : Action unit :=
  o ← db_call knowledge_content;
  match o with
  | Done =>
      modify (fun w =>
        let row := contentData (fresh_id (contents w)) in
        emit (ContentInsert row) (set_contents (contents w ++ [row])%list w))
  | Refused => mret tt
  | Failed e => throw e
  end.

(** [from('scraping_jobs').update(updates).eq('id', jobId)] *)
Definition update_job (jobId : string) (updates : gmap string JsVal) : Action unit :=
  o ← db_call scraping_jobs;
  match o with
  | Done =>
      modify (fun w =>
        emit (JobUpdate jobId updates)
             (set_jobs (alter (fun row => updates ∪ row) jobId (jobs w)) w))
  | Refused => mret tt
  | Failed e => throw e
  end.

(** *** saveContent *)

(** [crypto.createHash('sha256').update(result.content).digest('hex')] *)
Definition contentHash (result : ScrapeResult) : string :=
  Sha256.sha256_hex (content result).

Definition contentData (sid : string) (result : ScrapeResult) (i : nat) : Row.ContentRow :=
  {| Row.id := i;
     Row.source_id := sid;
     Row.url := url result;
     Row.title := title result;
     Row.content_type := "tutorial";
     Row.content := content result;
     Row.markdown := markdown result;
     Row.code_snippets := codeSnippets result;
     Row.word_count := wordCount result;
     Row.character_count := characterCount result;
     Row.keywords := keywords result;
     Row.topics := topics result;
     Row.content_hash := contentHash result;
     Row.processed := false |}.

(** [source?.id || null] *)
Definition id_or_null (source : option Row.SourceRow) : option string :=
  match source with
  | Some r => if truthy (Row.src_id r) then Some (Row.src_id r) else None
  | None => None
  end.

Definition same_hash (existing : option Row.ContentRow) (h : string) : bool :=
  match existing with
  | Some row => String.eqb (Row.content_hash row) h
  | None => false
  end.

Definition saveContent (result : ScrapeResult) (category : string) : World -> World :=
  try_catch
    (w ← get_world;
     (match sourceId w with
      | None => source ← select_source; modify (set_sourceId (id_or_null source))
      | Some _ => mret tt
      end);;
     w ← get_world;
     match sourceId w with
     | None =>
         modify (emit (ConsoleError "No source ID found for FreeCodeCamp" None));;
         return_
     | Some sid =>
         existing ← select_content (url result);
         if same_hash existing (contentHash result) then return_
         else match existing with
              | Some row => update_content (Row.id row) (contentData sid result)
              | None => insert_content (contentData sid result)
              end
     end)
    (fun e => emit (ConsoleError "Error saving content:" (Some e))).

(** *** updateJob *)

Definition updateJob (jobId : string) (updates : gmap string JsVal) : World -> World :=
  try_catch (update_job jobId updates)
            (fun e => emit (ConsoleError "Error updating job:" (Some e))).

(** *** scrapeCertification *)

(** [(processed / total) * 100] *)
Definition percentage (processed total : nat) : spec_float :=
  Number.mul (Number.div (Number.of_nat processed) (Number.of_nat total))
             (Number.of_nat 100).

Definition progress_updates (processed failed scraped total : nat) : gmap string JsVal :=
  <["urls_processed" := VInt processed]>
    (<["urls_failed" := VInt failed]>
       (<["progress_percentage" := VNumber (percentage processed total)]>
          (<["items_scraped" := VInt scraped]> ∅))).

(** The body of [for (const result of results)]. *)
Definition record_result (cert : Cert.FCCCertification) (jobId : string)
    (onProgress : bool) (total : nat) (r : Run) (result : ScrapeResult) : Run :=
  let r :=
    if success result
    then {| successCount := S (successCount r); failedCount := failedCount r;
            world := saveContent result (Cert.slug cert) (world r) |}
    else {| successCount := successCount r; failedCount := S (failedCount r);
            world := world r |} in
  let processed := successCount r + failedCount r in
  let w := updateJob jobId
             (progress_updates processed (failedCount r) (successCount r) total)
             (world r) in
  let w := if onProgress then emit (OnProgress processed total) w else w in
  {| successCount := successCount r; failedCount := failedCount r; world := w |}.

(** [for (let i = 0; i < urls.length; i += this.config.concurrency)] *)
Fixpoint batches (fuel : nat) (cert : Cert.FCCCertification) (jobId : string)
    (onProgress : bool) (urls : list string) (i : nat) (r : Run) : option Run :=
  if i <? length urls then
    match fuel with
    | O => None
    | S fuel' =>
        let batch := slice i (i + concurrency config) urls in
        let results := map scrapePage batch in
        let r := fold_left (record_result cert jobId onProgress (length urls)) results r in
        let r := if i + concurrency config <? length urls
                 then {| successCount := successCount r; failedCount := failedCount r;
                         world := emit (Delay (delayMs config)) (world r) |}
                 else r in
        batches fuel' cert jobId onProgress urls (i + concurrency config) r
    end
  else Some r.

Definition running_updates (total : nat) (now : string) : gmap string JsVal :=
  <["total_urls" := VInt total]>
    (<["status" := VString "running"]> (<["started_at" := VString now]> ∅)).

Definition completed_updates (now : string) : gmap string JsVal :=
  <["status" := VString "completed"]> (<["completed_at" := VString now]> ∅).

(** [None] stands for a loop that has not ended within [fuel] rounds. *)
Definition scrapeCertification (fuel : nat) (cert : Cert.FCCCertification)
    (jobId : string) (onProgress : bool) (w : World) : option (Summary.t * World) :=
  let w := emit (ConsoleLog ("Starting scrape of " ++ Cert.title cert ++ "...")) w in
  let '(urls, w) := getCertificationPages (Cert.url cert) w in
  let total := length urls in
  let w := emit (ConsoleLog ("Found " ++ Number.to_string total ++ " pages in "
                             ++ Cert.title cert)) w in
  let w := updateJob jobId (running_updates total (clock (calls w))) w in
  match batches fuel cert jobId onProgress urls 0
          {| successCount := 0; failedCount := 0; world := w |} with
  | Some r =>
      let w := updateJob jobId (completed_updates (clock (calls (world r)))) (world r) in
      Some ({| Summary.success := successCount r; Summary.failed := failedCount r;
               Summary.total := total |}, w)
  | None => None
  end.

(** ** Reference notions the claims are stated with *)

(** Keeping the first occurrence of every element, in order. *)
Fixpoint dedup (seen l : list string) : list string :=
  match l with
  | [] => []
  | x :: l' =>
      if existsb (String.eqb x) seen then dedup seen l'
      else x :: dedup (seen ++ [x])%list l'
  end.

(** Position of the first occurrence of [x] in [l] ([length l] when absent). *)
Fixpoint first_index (x : string) (l : list string) : nat :=
  match l with
  | [] => 0
  | y :: l' => if String.eqb y x then 0 else S (first_index x l')
  end.

Definition occurrences (x : string) (l : list string) : nat :=
  length (List.filter (String.eqb x) l).

(** The path of a URL [scheme://authority/path]: what follows the authority. *)
Fixpoint after_authority (slashes : nat) (s : string) : string :=
  match s with
  | EmptyString => EmptyString
  | String c s' =>
      if Ascii.eqb c "/" then
        match slashes with
        | O => s
        | S n => after_authority n s'
        end
      else after_authority slashes s'
  end.

Definition url_path (u : string) : string := after_authority 2 u.

Definition path_segments (u : string) : list string :=
  List.filter truthy (split_char "/" (url_path u)).

(** The targets of the links of a listing whose [href] begins with
    [/learn/], in document order. *)
Definition learn_hrefs (doc : Document) : list string :=
  List.filter (startsWith "/learn/") (omap attr_href (q_a doc)).

(** The candidate URLs of a listing: the root, then every link resolved
    against the site. *)
Definition candidates (certUrl : string) (doc : Document) : list string :=
  certUrl :: map (String.append FCC_BASE) (learn_hrefs doc).

Definition push_new (urls : list string) (u : string) : list string :=
  if existsb (String.eqb u) urls then urls else (urls ++ [u])%list.

(** No [/] occurs in [s]. *)
Fixpoint no_slash (s : string) : bool :=
  match s with
  | EmptyString => true
  | String c s' => negb (Ascii.eqb c "/") && no_slash s'
  end.

(** The segments a topic list keeps: neither empty nor [learn]. *)
Definition not_learn (p : string) : bool := negb (String.eqb p "learn").

(** The snippet an element gives, and whether the scraper keeps it. *)
Definition snippet_of (elem : Element) : CodeSnippet :=
  {| language := language_of elem; code := trim (text elem) |}.

Definition kept_snippet (elem : Element) : bool :=
  10 <? String.length (trim (text elem)).

(** Every character of [s] is a word character. *)
Fixpoint all_word (s : string) : bool :=
  match s with
  | EmptyString => true
  | String c s' => is_word c && all_word s'
  end.

(** Some tactics ([congruence], [tauto], rewriting everywhere) look at every
    variable in scope.  A proof of a fact that does not depend on the
    environment drops the variables of the environment first. *)
Ltac without_environment :=
  try clear config; try clear clock; try clear store; try clear page_get;
  try clear listing_get; try clear engine_sort.

(** ** Strings: basic facts *)

Lemma append_nil (t : string) : EmptyString ++ t = t.
Proof. reflexivity. Qed.

Lemma append_cons (c : ascii) (s t : string) : String c s ++ t = String c (s ++ t).
Proof. reflexivity. Qed.

(** [simpl] leaves string concatenation folded; these equations unfold it. *)
Ltac str_simpl := rewrite ?append_cons, ?append_nil; simpl.

Lemma app_empty_r (s : string) : s ++ EmptyString = s.
Proof. induction s as [|c s IH]; str_simpl; [reflexivity | now rewrite IH]. Qed.

Lemma app_assoc_s (a b c : string) : (a ++ b) ++ c = a ++ (b ++ c).
Proof. induction a as [|x a IH]; str_simpl; [reflexivity | now rewrite IH]. Qed.

Lemma truthy_String (c : ascii) (s : string) : truthy (String c s) = true.
Proof. reflexivity. Qed.

Lemma truthy_false (s : string) : truthy s = false -> s = EmptyString.
Proof. destruct s; [reflexivity | discriminate]. Qed.

Lemma prefix_split (p s : string) :
  String.prefix p s = true -> exists r, s = p ++ r.
Proof.
  revert s; induction p as [|c p IH]; intros s H.
  - exists s; reflexivity.
  - destruct s as [|d s]; simpl in H; [discriminate|].
    destruct (ascii_dec c d) as [->|]; [|discriminate].
    destruct (IH s H) as [r ->]. exists r; reflexivity.
Qed.

Lemma prefix_app (p r : string) : String.prefix p (p ++ r) = true.
Proof.
  induction p as [|c p IH]; str_simpl; [now destruct r|].
  destruct (ascii_dec c c); [exact IH | congruence].
Qed.

Lemma split_char_nonempty (sep : ascii) (s : string) : split_char sep s <> [].
Proof.
  induction s as [|c s IH]; simpl; [discriminate|].
  destruct (Ascii.eqb c sep); [discriminate|].
  destruct (split_char sep s); discriminate.
Qed.

Lemma split_char_plain (s : string) :
  no_slash s = true -> split_char "/" s = [s].
Proof.
  induction s as [|c s IH]; simpl; [reflexivity|].
  intros H; apply andb_prop in H as [Hc Hs].
  apply negb_true_iff in Hc. rewrite Hc, (IH Hs). reflexivity.
Qed.

Lemma split_char_cut (a b : string) :
  no_slash a = true ->
  split_char "/" (a ++ String "/" b) = a :: split_char "/" b.
Proof.
  induction a as [|c a IH]; str_simpl; intros H; [reflexivity|].
  apply andb_prop in H as [Hc Ha].
  apply negb_true_iff in Hc. rewrite Hc, (IH Ha). reflexivity.
Qed.

Lemma after_authority_skip (n : nat) (a b : string) :
  no_slash a = true -> after_authority n (a ++ b) = after_authority n b.
Proof.
  induction a as [|c a IH]; str_simpl; intros H; [reflexivity|].
  apply andb_prop in H as [Hc Ha].
  apply negb_true_iff in Hc. rewrite Hc. exact (IH Ha).
Qed.

Lemma filter_andb {A} (f g : A -> bool) (l : list A) :
  List.filter (fun x => f x && g x) l = List.filter g (List.filter f l).
Proof.
  induction l as [|x l IH]; simpl; [reflexivity|].
  destruct (f x); simpl; [destruct (g x); now rewrite IH | exact IH].
Qed.

(** ** scrapePage: topics, code snippets, failure value *)

Lemma topics_of_split (scheme host path : string) :
  no_slash scheme = true -> no_slash host = true ->
  path = EmptyString \/ (exists p, path = String "/" p) ->
  topics_of (scheme ++ "//" ++ host ++ path)
  = (List.filter (fun p => truthy p && not_learn p) [scheme; host]
     ++ List.filter not_learn (path_segments (scheme ++ "//" ++ host ++ path)))%list.
Proof.
  intros Hs Hh Hp.
  unfold topics_of, path_segments, url_path.
  change (scheme ++ "//" ++ host ++ path)
    with (scheme ++ String "/" (EmptyString ++ String "/" (host ++ path))).
  rewrite (split_char_cut scheme _ Hs), (split_char_cut EmptyString _ eq_refl).
  rewrite (after_authority_skip 2 scheme _ Hs).
  cbn [after_authority Ascii.eqb Bool.eqb]. rewrite append_nil.
  cbn [after_authority Ascii.eqb Bool.eqb].
  rewrite (after_authority_skip 0 host _ Hh).
  destruct Hp as [->|[p ->]].
  - rewrite app_empty_r, (split_char_plain host Hh). cbn.
    destruct (truthy scheme && _), (truthy host && _); reflexivity.
  - rewrite (split_char_cut host _ Hh).
    cbn [after_authority Ascii.eqb Bool.eqb split_char].
    change (List.filter truthy (EmptyString :: split_char "/" p))
      with (List.filter truthy (split_char "/" p)).
    rewrite <- filter_andb. cbn.
    destruct (truthy scheme && _), (truthy host && _); reflexivity.
Qed.

(** C9 (as amended).  On a successfully scraped page the topics are the
    pieces of the whole URL string cut at every [/], without the empty pieces
    and without the pieces equal to [learn].  For a URL
    [scheme//host/path] they are therefore the scheme piece and the host
    (unless one of them is [learn]) followed by the path segments with [learn]
    filtered out. *)
Theorem scrapePage_topics (url : string) (doc : Document) :
  page_get url = Loaded doc ->
  topics (scrapePage url)
  = List.filter (fun p => truthy p && not_learn p) (split_char "/" url)
  /\ forall scheme host path,
       url = scheme ++ "//" ++ host ++ path ->
       no_slash scheme = true -> no_slash host = true ->
       path = EmptyString \/ (exists p, path = String "/" p) ->
       topics (scrapePage url)
       = (List.filter (fun p => truthy p && not_learn p) [scheme; host]
          ++ List.filter not_learn (path_segments url))%list.
Proof.
  intros Hget. unfold scrapePage. rewrite Hget. cbn [topics]. split.
  - reflexivity.
  - intros scheme host path -> Hs Hh Hp. now apply topics_of_split.
Qed.

Lemma kept_snippet_guard (s : string) :
  truthy s && (10 <? String.length s) = (10 <? String.length s).
Proof. destruct s; reflexivity. Qed.

Lemma push_snippet_fold (l : list Element) (acc : list CodeSnippet) :
  fold_left push_snippet l acc
  = (acc ++ map snippet_of (List.filter kept_snippet l))%list.
Proof.
  revert acc; induction l as [|el l IH]; intros acc; simpl.
  - now rewrite app_nil_r.
  - rewrite IH. unfold push_snippet, kept_snippet at 2.
    rewrite kept_snippet_guard.
    destruct (10 <? String.length (trim (text el))); simpl.
    + now rewrite <- app_assoc.
    + reflexivity.
Qed.





(** C7.  When fetching or loading the page throws, scrapePage returns the
    failure value: success false, the input URL, the message of the error (or
    [Unknown error]), zero counts and empty sequences.  scrapePage is a total
    function: nothing is thrown to its caller. *)
Theorem scrapePage_failure (url : string) (e : Thrown) :
  page_get url = Threw e ->
  scrapePage url
  = {| success := false; url := url; title := EmptyString;
       content := EmptyString; markdown := None; codeSnippets := [];
       wordCount := 0; characterCount := 0; keywords := []; topics := [];
       error := Some (error_message e) |}
  /\ (error_message e = "Unknown error"
      \/ exists m, e = ErrorObject m /\ error_message e = m).
Proof.
  intros Hget. unfold scrapePage. rewrite Hget. split; [reflexivity|].
  destruct e as [m|]; [right; exists m; split; reflexivity | left; reflexivity].
Qed.

(** ** Keeping first occurrences *)

Lemma existsb_eqb_In (x : string) (l : list string) :
  existsb (String.eqb x) l = true <-> In x l.
Proof.
  rewrite existsb_exists. split.
  - intros [y [Hy Heq]]. apply String.eqb_eq in Heq. now subst.
  - intros H. exists x. split; [exact H | apply String.eqb_refl].
Qed.

Lemma existsb_eqb_not_In (x : string) (l : list string) :
  existsb (String.eqb x) l = false <-> ~ In x l.
Proof.
  rewrite <- existsb_eqb_In. destruct (existsb (String.eqb x) l); split; congruence.
Qed.

Lemma push_new_fold (l acc : list string) :
  fold_left push_new l acc = (acc ++ dedup acc l)%list.
Proof.
  revert acc; induction l as [|x l IH]; intros acc; simpl.
  - now rewrite app_nil_r.
  - unfold push_new at 2. destruct (existsb (String.eqb x) acc).
    + apply IH.
    + rewrite IH, <- app_assoc. reflexivity.
Qed.

Lemma dedup_In (x : string) (l seen : list string) :
  In x (dedup seen l) <-> In x l /\ ~ In x seen.
Proof. without_environment.
  revert seen; induction l as [|y l IH]; intros seen; simpl.
  - tauto.
  - destruct (existsb (String.eqb y) seen) eqn:E.
    + apply existsb_eqb_In in E. rewrite IH. split.
      * tauto.
      * intros [[->|H] Hn]; tauto.
    + apply existsb_eqb_not_In in E. simpl. rewrite IH, in_app_iff. simpl.
      destruct (string_dec y x) as [->|Hne]; [tauto|]. split.
      * intros [H|[H1 H2]]; [congruence | tauto].
      * intros [[H|H] Hn]; [congruence|]. right. tauto.
Qed.

Lemma dedup_NoDup (l seen : list string) : List.NoDup (dedup seen l).
Proof. without_environment.
  revert seen; induction l as [|y l IH]; intros seen; simpl.
  - constructor.
  - destruct (existsb (String.eqb y) seen); [apply IH|].
    constructor; [|apply IH].
    rewrite dedup_In, in_app_iff. simpl. tauto.
Qed.

Lemma StronglySorted_weaken {A} (R R' : A -> A -> Prop) (l : list A) :
  (forall a b, In a l -> In b l -> R a b -> R' a b) ->
  StronglySorted R l -> StronglySorted R' l.
Proof.
  intros Himp Hs. induction Hs as [|a l Hs IH Hall].
  - constructor.
  - constructor.
    + apply IH. intros x y Hx Hy. apply Himp; now right.
    + rewrite List.Forall_forall in *. intros b Hb.
      apply Himp; [now left | now right | now apply Hall].
Qed.

Lemma In_firstn {A} (x : A) (n : nat) (l : list A) : In x (firstn n l) -> In x l.
Proof. without_environment.
  revert n; induction l as [|y l IH]; intros [|n]; simpl; try tauto.
  intros [H|H]; [now left | right; eauto].
Qed.

Lemma StronglySorted_firstn {A} (R : A -> A -> Prop) (n : nat) (l : list A) :
  StronglySorted R l -> StronglySorted R (firstn n l).
Proof.
  intros Hs; revert n. induction Hs as [|a l Hs IH Hall]; intros [|n]; simpl;
    try constructor.
  - apply IH.
  - rewrite List.Forall_forall in *. intros b Hb. apply Hall.
    exact (In_firstn _ _ _ Hb).
Qed.

Lemma first_index_head (x : string) (l : list string) : first_index x (x :: l) = 0.
Proof. simpl. now rewrite String.eqb_refl. Qed.

Lemma first_index_tail (x y : string) (l : list string) :
  y <> x -> first_index x (y :: l) = S (first_index x l).
Proof. intros H. simpl. apply String.eqb_neq in H. now rewrite H. Qed.

Lemma dedup_sorted (l seen : list string) :
  StronglySorted (fun a b => first_index a l < first_index b l) (dedup seen l).
Proof. without_environment.
  revert seen; induction l as [|y l IH]; intros seen; simpl dedup.
  - constructor.
  - destruct (existsb (String.eqb y) seen) eqn:E.
    + apply existsb_eqb_In in E.
      eapply StronglySorted_weaken; [|apply (IH seen)].
      intros a b Ha Hb Hlt. apply dedup_In in Ha as [_ Ha], Hb as [_ Hb].
      cbv beta in *. rewrite !first_index_tail by congruence. lia.
    + constructor.
      * eapply StronglySorted_weaken; [|apply (IH (seen ++ [y])%list)].
        intros a b Ha Hb Hlt. apply dedup_In in Ha as [_ Ha], Hb as [_ Hb].
        rewrite in_app_iff in Ha, Hb. simpl in Ha, Hb.
        cbv beta in *. rewrite !first_index_tail by tauto. lia.
      * apply List.Forall_forall. intros b Hb. apply dedup_In in Hb as [_ Hb].
        rewrite in_app_iff in Hb. simpl in Hb.
        cbv beta. rewrite first_index_head, first_index_tail by tauto. lia.
Qed.

(** ** getCertificationPages *)

Lemma push_link_learn (urls : list string) (el : Element) (href : string) :
  attr_href el = Some href -> startsWith "/learn/" href = true ->
  push_link urls el = push_new urls (FCC_BASE ++ href).
Proof.
  intros Hh Hp. unfold push_link, push_new. rewrite Hh.
  destruct (prefix_split _ _ Hp) as [r ->].
  change (includes "/learn/" ("/learn/" ++ r))
    with (String.prefix "/learn/" ("/learn/" ++ r)
          || includes "/learn/" ("learn/" ++ r)).
  rewrite prefix_app. reflexivity.
Qed.

Lemma push_link_fold (els : list Element) (acc : list string) :
  fold_left push_link
    (List.filter (fun elem => match attr_href elem with
                              | Some href => startsWith "/learn/" href
                              | None => false
                              end) els) acc
  = fold_left push_new
      (map (String.append FCC_BASE)
           (List.filter (startsWith "/learn/") (omap attr_href els))) acc.
Proof.
  revert acc; induction els as [|el els IH]; intros acc; [reflexivity|].
  cbn [List.filter omap list_omap]. destruct (attr_href el) as [href|] eqn:Hh.
  - cbn [List.filter]. destruct (startsWith "/learn/" href) eqn:Hp.
    + cbn [fold_left map]. rewrite (push_link_learn acc el href Hh Hp). apply IH.
    + apply IH.
  - apply IH.
Qed.

Lemma discovered_urls (certUrl : string) (doc : Document) (w : World) :
  listing_get certUrl = Loaded doc ->
  fst (getCertificationPages certUrl w) = firstn 50 (dedup [] (candidates certUrl doc)).
Proof.
  intros Hget. unfold getCertificationPages. rewrite Hget. cbn [fst].
  unfold learn_links. rewrite push_link_fold, push_new_fold. reflexivity.
Qed.

(** The discovered URLs are at most 50 and begin with the root. *)
Lemma discovered_shape (certUrl : string) (w : World) :
  length (fst (getCertificationPages certUrl w)) <= 50
  /\ hd_error (fst (getCertificationPages certUrl w)) = Some certUrl.
Proof. without_environment.
  destruct (listing_get certUrl) as [e|doc] eqn:Hget.
  - unfold getCertificationPages. rewrite Hget. cbn. split; [lia | reflexivity].
  - rewrite (discovered_urls certUrl doc w Hget). split; [apply firstn_le_length|].
    reflexivity.
Qed.

(** C3.  getCertificationPages returns at most 50 URLs, the root URL first,
    without duplicates.  When the listing loads, the result is the first 50
    of the candidates (the root, then every [/learn/] link resolved against
    the site) with each URL kept at its first occurrence: the URLs come in
    the order of their first occurrence, and every candidate is returned
    when no more than 50 distinct ones exist.  When fetching or parsing
    throws, the result is the root URL alone. *)
Theorem getCertificationPages_spec (certUrl : string) (w : World) :
  let urls := fst (getCertificationPages certUrl w) in
  length urls <= 50
  /\ hd_error urls = Some certUrl
  /\ List.NoDup urls
  /\ (forall doc, listing_get certUrl = Loaded doc ->
        urls = firstn 50 (dedup [] (candidates certUrl doc))
        /\ (forall u, In u urls -> In u (candidates certUrl doc))
        /\ (length (dedup [] (candidates certUrl doc)) <= 50 ->
            forall u, In u (candidates certUrl doc) -> In u urls)
        /\ StronglySorted
             (fun a b => first_index a (candidates certUrl doc)
                         < first_index b (candidates certUrl doc)) urls)
  /\ (forall e, listing_get certUrl = Threw e -> urls = [certUrl]).
Proof. without_environment.
  intros urls.
  destruct (listing_get certUrl) as [e|doc] eqn:Hget.
  - assert (Hu : urls = [certUrl])
      by (unfold urls, getCertificationPages; now rewrite Hget).
    rewrite Hu. repeat split.
    + simpl; lia.
    + repeat constructor. simpl; tauto.
    + discriminate.
    + discriminate.
    + discriminate.
    + discriminate.
  - assert (Hu : urls = firstn 50 (dedup [] (candidates certUrl doc)))
      by (apply discovered_urls; exact Hget).
    rewrite Hu. split; [|split; [|split; [|split]]].
    + apply firstn_le_length.
    + reflexivity.
    + pose proof (dedup_NoDup (candidates certUrl doc) []) as Hnd.
      rewrite <- (firstn_skipn 50 (dedup [] (candidates certUrl doc))) in Hnd.
      exact (NoDup_app_remove_r _ _ Hnd).
    + intros doc' [= <-]. split; [reflexivity|]. split; [|split].
      * intros u Hin. apply In_firstn in Hin. now apply dedup_In in Hin.
      * intros Hlen u Hin. rewrite firstn_all2 by exact Hlen.
        apply dedup_In. simpl. tauto.
      * apply StronglySorted_firstn, dedup_sorted.
    + discriminate.
Qed.

(** ** The content fingerprint *)

Definition word_bounded (x : Z) : Prop := (0 <= x < 2 ^ 32)%Z.

Definition state_bounded (s : Sha256.state) : Prop :=
  word_bounded (Sha256.ha s) /\ word_bounded (Sha256.hb s)
  /\ word_bounded (Sha256.hc s) /\ word_bounded (Sha256.hd s)
  /\ word_bounded (Sha256.he s) /\ word_bounded (Sha256.hf s)
  /\ word_bounded (Sha256.hg s) /\ word_bounded (Sha256.hh s).

Lemma add32_bounded (x y : Z) : word_bounded (Sha256.add32 x y).
Proof. unfold word_bounded, Sha256.add32, Sha256.w32. apply Z.mod_pos_bound. lia. Qed.

Lemma H0_bounded : state_bounded Sha256.H0.
Proof. unfold state_bounded, word_bounded. cbn. lia. Qed.

Lemma compress_bounded (h : Sha256.state) (block : list Z) :
  state_bounded (Sha256.compress h block).
Proof.
  unfold Sha256.compress, state_bounded.
  cbn [Sha256.ha Sha256.hb Sha256.hc Sha256.hd Sha256.he Sha256.hf Sha256.hg Sha256.hh].
  repeat split; apply add32_bounded.
Qed.

Lemma fold_compress_bounded (bs : list (list Z)) (h : Sha256.state) :
  state_bounded h -> state_bounded (fold_left Sha256.compress bs h).
Proof.
  revert h; induction bs as [|b bs IH]; intros h Hh; simpl; [exact Hh|].
  apply IH, compress_bounded.
Qed.

Lemma digest_bounded (msg : list Z) : (0 <= Sha256.digest msg < 2 ^ 256)%Z.
Proof.
  unfold Sha256.digest, Sha256.hash_state.
  pose proof (fold_compress_bounded
                (Sha256.blocks (length (Sha256.be_words (Sha256.pad msg)))
                               (Sha256.be_words (Sha256.pad msg)))
                Sha256.H0 H0_bounded) as Hb.
  revert Hb. generalize (fold_left Sha256.compress
                           (Sha256.blocks (length (Sha256.be_words (Sha256.pad msg)))
                                          (Sha256.be_words (Sha256.pad msg)))
                           Sha256.H0).
  intros [a b c d e f g h]. unfold state_bounded, word_bounded, Sha256.pack.
  cbn [Sha256.ha Sha256.hb Sha256.hc Sha256.hd Sha256.he Sha256.hf Sha256.hg Sha256.hh].
  change (2 ^ 32)%Z with 4294967296%Z.
  change (2 ^ 256)%Z
    with 115792089237316195423570985008687907853269984665640564039457584007913129639936%Z.
  lia.
Qed.

(** A search below a bound either finds a value or excludes it. *)
Lemma bounded_search (f : nat -> Z) (v : Z) (n : nat) :
  (exists i, i <= n /\ f i = v) \/ (forall i, i <= n -> f i <> v).
Proof.
  induction n as [|n [[i [Hi Hf]]|Hnone]].
  - destruct (Z.eq_dec (f 0) v) as [Heq|Hne].
    + left. exists 0. split; [lia | exact Heq].
    + right. intros i Hi. replace i with 0 by lia. exact Hne.
  - left. exists i. split; [lia | exact Hf].
  - destruct (Z.eq_dec (f (S n)) v) as [Heq|Hne].
    + left. exists (S n). split; [lia | exact Heq].
    + right. intros i Hi. destruct (Nat.eq_dec i (S n)) as [->|Hi'].
      * exact Hne.
      * apply Hnone. lia.
Qed.

(** The pigeonhole principle: [n + 1] values below [n] cannot all differ. *)
Lemma pigeonhole (n : nat) (f : nat -> Z) :
  (forall i, i <= n -> (0 <= f i < Z.of_nat n)%Z) ->
  exists i j, i < j <= n /\ f i = f j.
Proof.
  revert f; induction n as [|n IH]; intros f Hf.
  - specialize (Hf 0 (Nat.le_refl 0)). lia.
  - destruct (bounded_search f (f (S n)) n) as [[i [Hi Heq]]|Hnone].
    + exists i, (S n). split; [lia | exact Heq].
    + set (g := fun i => if Z.eq_dec (f i) (Z.of_nat n) then f (S n) else f i).
      destruct (IH g) as [i [j [Hij Hg]]].
      * intros i Hi. unfold g.
        pose proof (Hf i ltac:(lia)). pose proof (Hf (S n) ltac:(lia)).
        pose proof (Hnone i Hi).
        destruct (Z.eq_dec (f i) (Z.of_nat n)); lia.
      * exists i, j. split; [lia|].
        pose proof (Hnone i ltac:(lia)). pose proof (Hnone j ltac:(lia)).
        unfold g in Hg.
        destruct (Z.eq_dec (f i) (Z.of_nat n)), (Z.eq_dec (f j) (Z.of_nat n));
          congruence.
Qed.

Lemma pigeonhole_Z (M : Z) (f : nat -> Z) :
  (forall i, (0 <= f i < M)%Z) -> exists i j, i < j /\ f i = f j.
Proof.
  intros Hf. destruct (pigeonhole (Z.to_nat M) f) as [i [j [Hij Heq]]].
  - intros i _. pose proof (Hf i). rewrite Z2Nat.id by lia. lia.
  - exists i, j. split; [lia | exact Heq].
Qed.

Lemma str_repeat_length (n : nat) : String.length (str_repeat "a" n) = n.
Proof. induction n as [|n IH]; [reflexivity|]. simpl str_repeat. str_simpl. now rewrite IH. Qed.

(** Two different contents with the same fingerprint exist. *)
Lemma sha256_collision :
  exists s1 s2 : string, s1 <> s2 /\ Sha256.sha256_hex s1 = Sha256.sha256_hex s2.
Proof.
  destruct (pigeonhole_Z (2 ^ 256)
              (fun n => Sha256.digest (Sha256.utf8 (str_repeat "a" n))))
    as [i [j [Hij Heq]]].
  - intros n. apply digest_bounded.
  - exists (str_repeat "a" i), (str_repeat "a" j). split.
    + intros H. apply (f_equal String.length) in H.
      rewrite !str_repeat_length in H. lia.
    + unfold Sha256.sha256_hex. cbv beta in Heq. now rewrite Heq.
Qed.

(** C1 (as amended).  The fingerprint is a function of the [content] field
    alone: results with the same content have the same fingerprint, whatever
    their title and other fields (and the same result always has the same
    fingerprint); it is the SHA-256 digest of the content in hexadecimal, and
    the fingerprint a written row carries.  The converse is collision
    resistance and is not a theorem: different contents with the same
    fingerprint exist. *)
Theorem contentHash_content_only (r1 r2 : ScrapeResult) :
  content r1 = content r2 ->
  contentHash r1 = contentHash r2
  /\ contentHash r1 = Sha256.sha256_hex (content r1)
  /\ (forall sid i, Row.content_hash (contentData sid r1 i) = contentHash r1).
Proof.
  intros H. split; [|split].
  - unfold contentHash. now rewrite H.
  - reflexivity.
  - reflexivity.
Qed.

(** ** Stable sorting *)

Lemma StronglySorted_map {A B} (R : B -> B -> Prop) (f : A -> B) (l : list A) :
  StronglySorted (fun a b => R (f a) (f b)) l -> StronglySorted R (map f l).
Proof.
  induction 1 as [|a l Hs IH Hall]; simpl; constructor; [exact IH|].
  rewrite List.Forall_forall in *. intros b Hb.
  apply in_map_iff in Hb as [x [<- Hx]]. now apply Hall.
Qed.

Lemma StronglySorted_filter {A} (R : A -> A -> Prop) (p : A -> bool) (l : list A) :
  StronglySorted R l -> StronglySorted R (List.filter p l).
Proof.
  induction 1 as [|a l Hs IH Hall]; simpl; [constructor|].
  destruct (p a); [|exact IH]. constructor; [exact IH|].
  rewrite List.Forall_forall in *. intros b Hb.
  apply filter_In in Hb as [Hb _]. now apply Hall.
Qed.

Lemma StronglySorted_app {A} (R : A -> A -> Prop) (l1 l2 : list A) :
  StronglySorted R l1 -> StronglySorted R l2 ->
  (forall a b, In a l1 -> In b l2 -> R a b) ->
  StronglySorted R (l1 ++ l2).
Proof.
  intros H1 H2 Hx. induction H1 as [|a l Hs IH Hall]; simpl; [exact H2|].
  constructor.
  - apply IH. intros x y Hx' Hy. apply Hx; [now right | exact Hy].
  - rewrite List.Forall_forall in *. intros b Hb.
    apply in_app_iff in Hb as [Hb|Hb]; [now apply Hall | apply Hx; [now left | exact Hb]].
Qed.

Lemma insert_by_perm {A} (le : A -> A -> bool) (x : A) (l : list A) :
  Permutation (JsObject.insert_by le x l) (x :: l).
Proof.
  induction l as [|y l IH]; simpl; [reflexivity|].
  destruct (le x y); [reflexivity|].
  rewrite IH. apply perm_swap.
Qed.

Lemma stable_sort_perm {A} (le : A -> A -> bool) (l : list A) :
  Permutation (JsObject.stable_sort le l) l.
Proof.
  induction l as [|x l IH]; simpl; [reflexivity|].
  unfold JsObject.stable_sort in *. simpl.
  rewrite insert_by_perm. now constructor.
Qed.

Section StableSort.
Context {A : Type} (le : A -> A -> bool) (m : A -> Z) (before : A -> A -> Prop).

(** [a] is placed before [b]: a smaller measure, or the same measure and
    [a] was before [b] in the input. *)
Definition placed_before (a b : A) : Prop :=
  (m a < m b)%Z \/ (m a = m b /\ before a b).

Lemma insert_by_sorted (x : A) (l : list A) :
  (forall b, In b l -> (le x b = true <-> (m x <= m b)%Z)) ->
  (forall b, In b l -> before x b) ->
  StronglySorted placed_before l ->
  StronglySorted placed_before (JsObject.insert_by le x l).
Proof.
  intros Hle Hbefore Hs. induction Hs as [|y l Hs IH Hall]; simpl.
  - repeat constructor.
  - rewrite List.Forall_forall in Hall.
    destruct (le x y) eqn:E.
    + apply Hle in E; [|now left]. constructor; [now constructor; [|apply List.Forall_forall]|].
      apply List.Forall_forall. intros b [<-|Hb].
      * unfold placed_before.
        destruct (Z.eq_dec (m x) (m y)); [right; split; [assumption | apply Hbefore; now left] | left; lia].
      * pose proof (Hall b Hb) as Hyb. unfold placed_before in *.
        assert (before x b) by (apply Hbefore; now right).
        destruct Hyb as [Hlt|[Heq _]];
          (destruct (Z.eq_dec (m x) (m b)); [right; tauto | left; lia]).
    + assert (Hgt : (m y < m x)%Z).
      { destruct (Z.le_gt_cases (m x) (m y)) as [Hc|Hc]; [|lia].
        apply Hle in Hc; [congruence | now left]. }
      constructor.
      * apply IH; intros b Hb; [apply Hle | apply Hbefore]; now right.
      * apply List.Forall_forall. intros b Hb.
        apply (Permutation_in _ (insert_by_perm le x l)) in Hb as [<-|Hb].
        -- left; exact Hgt.
        -- now apply Hall.
Qed.

Lemma stable_sort_sorted (l : list A) :
  (forall a b, In a l -> In b l -> (le a b = true <-> (m a <= m b)%Z)) ->
  StronglySorted before l ->
  StronglySorted placed_before (JsObject.stable_sort le l).
Proof.
  intros Hle Hs. induction Hs as [|x l Hs IH Hall].
  - constructor.
  - change (JsObject.stable_sort le (x :: l))
      with (JsObject.insert_by le x (JsObject.stable_sort le l)).
    rewrite List.Forall_forall in Hall.
    apply insert_by_sorted.
    + intros b Hb. apply (Permutation_in _ (stable_sort_perm le l)) in Hb.
      apply Hle; [now left | now right].
    + intros b Hb. apply (Permutation_in _ (stable_sort_perm le l)) in Hb.
      now apply Hall.
    + apply IH. intros a b Ha Hb. apply Hle; now right.
Qed.
End StableSort.

(** ** The frequency object of extractKeywords *)

(** Every property of [o] holds a number. *)
Definition counting (o : JsObject.object) : Prop :=
  forall k v, In (k, v) o -> exists n, v = JsObject.Num n.

(** The count [o] holds for [k], zero when [k] is not a property. *)
Definition count_of (o : JsObject.object) (k : string) : nat :=
  match JsObject.own o k with
  | Some (JsObject.Num n) => n
  | _ => 0
  end.

(** [a] is enumerated before [b] by [Object.entries]: array indices in
    ascending numeric order, then the other keys in the order of their first
    occurrence in [ws]. *)
Definition enumerated_before (ws : list string) (a b : string) : Prop :=
  match JsObject.array_index a, JsObject.array_index b with
  | Some i, Some j => (i < j)%N
  | Some _, None => True
  | None, Some _ => False
  | None, None => first_index a ws < first_index b ws
  end.

(** [a] ranks before [b] among the keywords of [ws]: more occurrences, or as
    many and enumerated first. *)
Definition ranks_before (ws : list string) (a b : string) : Prop :=
  occurrences b ws < occurrences a ws
  \/ (occurrences a ws = occurrences b ws /\ enumerated_before ws a b).

Lemma own_In (o : JsObject.object) (k : string) (v : JsObject.value) :
  JsObject.own o k = Some v -> In (k, v) o.
Proof.
  induction o as [|[k' v'] o IH]; simpl; [discriminate|].
  destruct (String.eqb k' k) eqn:E.
  - apply String.eqb_eq in E. intros [= ->]. left. now subst.
  - intros H. right. now apply IH.
Qed.

Lemma own_None (o : JsObject.object) (k : string) :
  JsObject.own o k = None <-> ~ In k (map fst o).
Proof. without_environment.
  induction o as [|[k' v'] o IH]; simpl; [tauto|].
  destruct (String.eqb k' k) eqn:E.
  - apply String.eqb_eq in E. split; [discriminate | tauto].
  - apply String.eqb_neq in E. rewrite IH. tauto.
Qed.

Lemma In_own (o : JsObject.object) (k : string) (v : JsObject.value) :
  List.NoDup (map fst o) -> In (k, v) o -> JsObject.own o k = Some v.
Proof. without_environment.
  induction o as [|[k' v'] o IH]; simpl; [tauto|].
  intros Hnd [[= -> ->]|Hin].
  - now rewrite String.eqb_refl.
  - inversion Hnd as [|? ? Hnot Hnd']; subst.
    destruct (String.eqb k' k) eqn:E.
    + apply String.eqb_eq in E. subst. exfalso. apply Hnot.
      apply in_map_iff. exists (k, v). split; [reflexivity | exact Hin].
    + now apply IH.
Qed.

Lemma replace_keys (o : JsObject.object) (k : string) (v : JsObject.value) :
  map fst (JsObject.replace o k v) = map fst o.
Proof.
  induction o as [|[k' v'] o IH]; simpl; [reflexivity|].
  destruct (String.eqb k' k); simpl; [reflexivity | now rewrite IH].
Qed.

Lemma replace_own (o : JsObject.object) (k k' : string) (v : JsObject.value) :
  JsObject.own o k <> None ->
  JsObject.own (JsObject.replace o k v) k'
  = if String.eqb k k' then Some v else JsObject.own o k'.
Proof.
  induction o as [|[k0 v0] o IH]; simpl; [congruence|].
  destruct (String.eqb k0 k) eqn:E; simpl.
  - apply String.eqb_eq in E. subst k0. intros _.
    destruct (String.eqb k k'); reflexivity.
  - intros H. rewrite (IH H).
    destruct (String.eqb k0 k') eqn:E'; [|reflexivity].
    apply String.eqb_eq in E'. subst k0. now rewrite String.eqb_sym, E.
Qed.

Lemma app_own (o : JsObject.object) (k k' : string) (v : JsObject.value) :
  JsObject.own o k = None ->
  JsObject.own (o ++ [(k, v)])%list k'
  = if String.eqb k k' then Some v else JsObject.own o k'.
Proof.
  induction o as [|[k0 v0] o IH]; simpl.
  - intros _. destruct (String.eqb k k'); reflexivity.
  - destruct (String.eqb k0 k) eqn:E; [discriminate|].
    intros H. rewrite (IH H).
    destruct (String.eqb k0 k') eqn:E'; [|reflexivity].
    apply String.eqb_eq in E'. subst k0. now rewrite String.eqb_sym, E.
Qed.

Lemma inherited_proto : JsObject.inherited "__proto__" <> None.
Proof. discriminate. Qed.

(** One word counted: the key is created last when new, and its count grows
    by one. *)
Lemma count_word_keys (o : JsObject.object) (w : string) :
  JsObject.inherited w = None ->
  map fst (count_word o w) = push_new (map fst o) w.
Proof.
  intros Hw. unfold count_word, JsObject.set, push_new.
  destruct (String.eqb w "__proto__") eqn:E.
  { apply String.eqb_eq in E. subst w. now destruct inherited_proto. }
  destruct (JsObject.own o w) eqn:Ho.
  - rewrite replace_keys.
    assert (Hin : In w (map fst o)).
    { apply own_In in Ho. apply in_map_iff. now exists (w, v). }
    apply existsb_eqb_In in Hin. now rewrite Hin.
  - apply own_None in Ho. apply existsb_eqb_not_In in Ho. rewrite Ho.
    now rewrite map_app.
Qed.

Lemma count_word_own (o : JsObject.object) (w k : string) :
  JsObject.inherited w = None ->
  JsObject.own (count_word o w) k
  = if String.eqb w k then Some (JsObject.or_zero_plus_one o w) else JsObject.own o k.
Proof.
  intros Hw. unfold count_word, JsObject.set.
  destruct (String.eqb w "__proto__") eqn:E.
  { apply String.eqb_eq in E. subst w. now destruct inherited_proto. }
  destruct (JsObject.own o w) eqn:Ho.
  - apply replace_own. congruence.
  - now apply app_own.
Qed.

Lemma count_word_counting (o : JsObject.object) (w : string) :
  JsObject.inherited w = None -> List.NoDup (map fst o) ->
  counting o -> counting (count_word o w).
Proof. without_environment.
  intros Hw Hnd Hc k v Hin.
  assert (Hnd' : List.NoDup (map fst (count_word o w))).
  { rewrite (count_word_keys o w Hw). unfold push_new.
    destruct (existsb (String.eqb w) (map fst o)) eqn:E; [exact Hnd|].
    apply existsb_eqb_not_In in E.
    apply List.NoDup_app; [exact Hnd | repeat constructor; simpl; tauto |].
    intros x Hx [<-|[]]. contradiction. }
  apply (In_own _ _ _ Hnd') in Hin. rewrite (count_word_own o w k Hw) in Hin.
  destruct (String.eqb w k).
  - injection Hin as <-. unfold JsObject.or_zero_plus_one.
    destruct (JsObject.own o w) as [[n|s]|] eqn:Ho.
    + eauto.
    + apply own_In, Hc in Ho as [n Hn]. discriminate.
    + rewrite Hw. eauto.
  - apply own_In in Hin. exact (Hc k v Hin).
Qed.

Definition count_entry (ws : list string) (k : string) : string * JsObject.value :=
  (k, JsObject.Num (occurrences k ws)).

Lemma occurrences_cons (k w : string) (ws : list string) :
  occurrences k (w :: ws) = (if String.eqb w k then 1 else 0) + occurrences k ws.
Proof.
  unfold occurrences. simpl. rewrite (String.eqb_sym k w).
  destruct (String.eqb w k); reflexivity.
Qed.

Lemma count_word_count_of (o : JsObject.object) (w k : string) :
  JsObject.inherited w = None -> counting o ->
  count_of (count_word o w) k = (if String.eqb w k then 1 else 0) + count_of o k.
Proof.
  intros Hw Hc. unfold count_of. rewrite (count_word_own o w k Hw).
  destruct (String.eqb w k) eqn:E; [|reflexivity].
  apply String.eqb_eq in E. subst k. unfold JsObject.or_zero_plus_one.
  destruct (JsObject.own o w) as [[n|s]|] eqn:Ho.
  - lia.
  - apply own_In, Hc in Ho as [n Hn]. discriminate.
  - now rewrite Hw.
Qed.

Lemma push_new_NoDup (l : list string) (w : string) :
  List.NoDup l -> List.NoDup (push_new l w).
Proof. without_environment.
  intros Hnd. unfold push_new.
  destruct (existsb (String.eqb w) l) eqn:E; [exact Hnd|].
  apply existsb_eqb_not_In in E.
  apply List.NoDup_app; [exact Hnd | repeat constructor; simpl; tauto |].
  intros x Hx [<-|[]]. contradiction.
Qed.

Lemma frequency_fold (ws : list string) (o : JsObject.object) :
  List.Forall (fun w => JsObject.inherited w = None) ws ->
  List.NoDup (map fst o) -> counting o ->
  let o' := fold_left count_word ws o in
  map fst o' = fold_left push_new ws (map fst o)
  /\ List.NoDup (map fst o') /\ counting o'
  /\ forall k, count_of o' k = count_of o k + occurrences k ws.
Proof.
  intros Hws. revert o. induction Hws as [|w ws Hw Hws IH]; intros o Hnd Hc; simpl.
  - repeat split; try assumption. intros k. unfold occurrences. simpl. lia.
  - assert (Hnd' : List.NoDup (map fst (count_word o w)))
      by (rewrite (count_word_keys o w Hw); now apply push_new_NoDup).
    pose proof (count_word_counting o w Hw Hnd Hc) as Hc'.
    destruct (IH (count_word o w) Hnd' Hc') as [Hk [Hn [Hcnt Hocc]]].
    repeat split; try assumption.
    + now rewrite Hk, (count_word_keys o w Hw).
    + intros k. rewrite Hocc, (count_word_count_of o w k Hw Hc), occurrences_cons. lia.
Qed.

Lemma map_recover {A B} (f : B -> A) (g : A -> B) (l : list A) :
  (forall e, In e l -> e = f (g e)) -> l = map f (map g l).
Proof.
  induction l as [|e l IH]; intros H; simpl; [reflexivity|].
  rewrite <- (H e (or_introl eq_refl)). f_equal. apply IH.
  intros x Hx. apply H. now right.
Qed.

(** The frequency object lists every distinct word once, in the order of its
    first occurrence, with the number of its occurrences. *)
Lemma frequency_object (ws : list string) :
  List.Forall (fun w => JsObject.inherited w = None) ws ->
  fold_left count_word ws JsObject.empty = map (count_entry ws) (dedup [] ws).
Proof.
  intros Hws.
  destruct (frequency_fold ws JsObject.empty Hws) as [Hk [Hnd [Hc Hocc]]].
  - constructor.
  - intros k v [].
  - cbv zeta in *. simpl map in Hk. rewrite push_new_fold in Hk. simpl in Hk.
    rewrite <- Hk. apply map_recover.
    intros [k v] Hin. unfold count_entry. simpl. f_equal.
    destruct (Hc k v Hin) as [n ->]. f_equal.
    specialize (Hocc k). unfold count_of in Hocc.
    rewrite (In_own _ _ _ Hnd Hin) in Hocc. simpl in Hocc. exact Hocc.
Qed.

Lemma filter_partition_perm {A} (p : A -> bool) (l : list A) :
  Permutation (List.filter p l ++ List.filter (fun x => negb (p x)) l) l.
Proof.
  induction l as [|x l IH]; simpl; [reflexivity|].
  destruct (p x); simpl.
  - now constructor.
  - rewrite <- Permutation_middle. now constructor.
Qed.

Lemma entries_perm (o : JsObject.object) : Permutation (JsObject.entries o) o.
Proof.
  unfold JsObject.entries. rewrite stable_sort_perm. apply filter_partition_perm.
Qed.

Lemma array_index_canonical (k : string) (n : N) :
  JsObject.array_index k = Some n -> k = NilZero.string_of_uint (N.to_uint n).
Proof.
  unfold JsObject.array_index.
  destruct (NilZero.uint_of_string k) as [d|]; [|discriminate].
  destruct (String.eqb _ k) eqn:E; simpl; [|discriminate].
  destruct (_ <? _)%N; [|discriminate].
  intros [= <-]. apply String.eqb_eq in E. now symmetry.
Qed.

Lemma is_index_true (k : string) :
  JsObject.is_index k = true ->
  exists n, JsObject.array_index k = Some n /\ JsObject.index_value k = n.
Proof.
  unfold JsObject.is_index, JsObject.index_value.
  destruct (JsObject.array_index k) as [n|]; [eauto | discriminate].
Qed.

Lemma is_index_false (k : string) :
  JsObject.is_index k = false -> JsObject.array_index k = None.
Proof.
  unfold JsObject.is_index. destruct (JsObject.array_index k); [discriminate | reflexivity].
Qed.

(** [Object.entries] of a frequency object enumerates the keys as
    [enumerated_before] says. *)
Lemma entries_enumeration (ws ks : list string) :
  StronglySorted (fun a b => first_index a ws < first_index b ws) ks ->
  StronglySorted (fun a b => enumerated_before ws (fst a) (fst b))
                 (JsObject.entries (map (count_entry ws) ks)).
Proof.
  intros Hks.
  set (o := map (count_entry ws) ks).
  set (created := fun a b : string * JsObject.value =>
                    first_index (fst a) ws < first_index (fst b) ws).
  assert (Ho : StronglySorted created o).
  { apply StronglySorted_map. exact Hks. }
  unfold JsObject.entries. apply StronglySorted_app.
  - eapply StronglySorted_weaken;
      [|apply (stable_sort_sorted _ (fun a => Z.of_N (JsObject.index_value (fst a))) created)].
    + intros a b Ha Hb Hp.
      apply (Permutation_in _ (stable_sort_perm _ _)), filter_In in Ha as [_ Ha].
      apply (Permutation_in _ (stable_sort_perm _ _)), filter_In in Hb as [_ Hb].
      apply is_index_true in Ha as [i [Hi Hvi]], Hb as [j [Hj Hvj]].
      unfold enumerated_before. rewrite Hi, Hj.
      unfold placed_before in Hp. rewrite Hvi, Hvj in Hp.
      destruct Hp as [Hlt|[Heq Hc]]; [lia|].
      clear Hvi Hvj. assert (i = j) by lia. subst j.
      apply array_index_canonical in Hi, Hj. unfold created in Hc.
      cbv beta in Hc. rewrite Hi, Hj in Hc. lia.
    + intros a b _ _. rewrite N.leb_le. lia.
    + now apply StronglySorted_filter.
  - eapply StronglySorted_weaken; [|apply (StronglySorted_filter _ _ _ Ho)].
    intros a b Ha Hb Hc.
    apply filter_In in Ha as [_ Ha], Hb as [_ Hb].
    apply negb_true_iff, is_index_false in Ha, Hb.
    unfold enumerated_before. rewrite Ha, Hb. exact Hc.
  - intros a b Ha Hb.
    apply (Permutation_in _ (stable_sort_perm _ _)), filter_In in Ha as [_ Ha].
    apply filter_In in Hb as [_ Hb].
    apply is_index_true in Ha as [i [Hi _]].
    apply negb_true_iff, is_index_false in Hb.
    unfold enumerated_before. now rewrite Hi, Hb.
Qed.

Lemma sort_by_count_numeric (l : list (string * JsObject.value)) :
  (forall e, In e l -> exists n, snd e = JsObject.Num n) ->
  JsObject.sort engine_sort by_count l
  = JsObject.stable_sort
      (fun a b => match by_count a b with
                  | Some d => (d <=? 0)%Z
                  | None => true
                  end) l.
Proof.
  intros Hnum. unfold JsObject.sort.
  destruct l as [|x [|y l]]; [reflexivity | reflexivity |].
  set (l' := x :: y :: l) in *.
  replace (forallb _ l') with true; [reflexivity|].
  symmetry. apply forallb_forall. intros a Ha. apply forallb_forall. intros b Hb.
  destruct (Hnum a Ha) as [n Hn], (Hnum b Hb) as [n' Hn'].
  unfold by_count. rewrite Hn, Hn'. now apply bool_decide_eq_true.
Qed.

(** No character of [s] is an upper-case ASCII letter. *)
Fixpoint no_upper (s : string) : bool :=
  match s with
  | EmptyString => true
  | String c s' => negb (between 65 90 (JsString.code c)) && no_upper s'
  end.

Lemma lower_char_not_upper (c : ascii) :
  between 65 90 (JsString.code (lower_char c)) = false.
Proof. without_environment. destruct c as [[] [] [] [] [] [] [] []]; reflexivity. Qed.

Lemma toLowerCase_no_upper (s : string) : no_upper (toLowerCase s) = true.
Proof.
  induction s as [|c s IH]; [reflexivity|].
  simpl. now rewrite lower_char_not_upper, IH.
Qed.

Lemma split_class_no_upper (cls : ascii -> bool) (s : string) :
  no_upper s = true -> List.Forall (fun p => no_upper p = true) (split_class cls s).
Proof.
  induction s as [|c s IH]; intros H.
  - repeat constructor.
  - simpl in H. apply andb_prop in H as [Hc Hs]. specialize (IH Hs).
    cbn [split_class]. destruct (cls c).
    + destruct (starts_with_class cls s); [exact IH | now constructor].
    + destruct (split_class cls s) as [|t ts].
      * repeat constructor. simpl. now rewrite Hc.
      * inversion IH; subst. constructor; [|assumption].
        simpl. now rewrite Hc.
Qed.

(** Among lower-cased tokens only [constructor] and [__proto__] name a
    property of [Object.prototype]. *)
Lemma token_inherited (content w : string) :
  In w (keyword_tokens content) ->
  w <> "constructor" -> w <> "__proto__" -> JsObject.inherited w = None.
Proof.
  without_environment.
  intros Hin Hc Hp. unfold keyword_tokens in Hin. apply filter_In in Hin as [Hin _].
  pose proof (split_class_no_upper (fun c => negb (is_word c)) _
                (toLowerCase_no_upper content)) as Hall.
  rewrite List.Forall_forall in Hall. specialize (Hall w Hin).
  unfold JsObject.inherited.
  apply String.eqb_neq in Hc, Hp. rewrite Hc, Hp.
  destruct (existsb (String.eqb w) JsObject.prototype_functions) eqn:E; [|reflexivity].
  apply existsb_exists in E as [name [Hname Heq]].
  apply String.eqb_eq in Heq. subst name. exfalso.
  unfold JsObject.prototype_functions in Hname. simpl in Hname.
  repeat (destruct Hname as [<-|Hname]; [discriminate Hall|]).
  exact Hname.
Qed.

(** C6 (as amended).  extractKeywords lower-cases the content, cuts it at
    the runs of non-word characters and keeps the tokens of 4 characters or
    more.  When no token is [constructor] or [__proto__] (the lower-case
    names [Object.prototype] gives every object), the result is the first
    10 of the distinct tokens ranked by descending number of
    occurrences, tokens with the same number being ranked as the frequency
    object enumerates them: tokens that are array indices (canonical
    decimal numbers below 2^32 - 1) first, in ascending numeric order, and
    the other tokens after them in the order of their first occurrence. *)
Theorem extractKeywords_spec (content : string) :
  let ws := List.filter (fun w => 4 <=? String.length w)
              (split_class (fun c => negb (is_word c)) (toLowerCase content)) in
  ~ In "constructor" ws -> ~ In "__proto__" ws ->
  exists ranked,
    extractKeywords content = firstn 10 ranked
    /\ List.NoDup ranked
    /\ (forall w, In w ranked <-> In w ws)
    /\ StronglySorted (ranks_before ws) ranked.
Proof. without_environment.
  intros ws Hctor Hproto.
  assert (Hkw : keyword_tokens content = ws) by reflexivity.
  assert (Hws : List.Forall (fun w => JsObject.inherited w = None) ws).
  { apply List.Forall_forall. intros w Hw.
    apply (token_inherited content w); [now rewrite Hkw | |]; congruence. }
  set (ks := dedup [] ws).
  set (final := JsObject.sort engine_sort by_count
                  (JsObject.entries (map (count_entry ws) ks))).
  assert (Hnum : forall e, In e (JsObject.entries (map (count_entry ws) ks)) ->
                           e = count_entry ws (fst e)).
  { intros e He. apply (Permutation_in _ (entries_perm _)) in He.
    apply in_map_iff in He as [k [<- _]]. reflexivity. }
  assert (Hfinal : final = JsObject.stable_sort
                     (fun a b => match by_count a b with
                                 | Some d => (d <=? 0)%Z
                                 | None => true
                                 end)
                     (JsObject.entries (map (count_entry ws) ks))).
  { apply sort_by_count_numeric. intros e He. rewrite (Hnum e He). simpl. eauto. }
  assert (Hperm : Permutation (map fst final) ks).
  { rewrite Hfinal, stable_sort_perm, entries_perm, map_map. simpl.
    now rewrite map_id. }
  exists (map fst final). split; [|split; [|split]].
  - unfold extractKeywords. rewrite Hkw, (frequency_object ws Hws).
    fold ks. fold final. symmetry. apply firstn_map.
  - apply (Permutation_NoDup (Permutation_sym Hperm)), dedup_NoDup.
  - intros w. split; intros Hin.
    + apply (Permutation_in _ Hperm) in Hin. now apply dedup_In in Hin.
    + apply (Permutation_in _ (Permutation_sym Hperm)). apply dedup_In.
      simpl. tauto.
  - apply StronglySorted_map. rewrite Hfinal.
    eapply StronglySorted_weaken;
      [|apply (stable_sort_sorted _
                 (fun e => (- Z.of_nat (occurrences (fst e) ws))%Z)
                 (fun a b => enumerated_before ws (fst a) (fst b)))].
    + intros a b _ _ Hp. unfold placed_before in Hp. unfold ranks_before.
      destruct Hp as [Hlt|[Heq He]]; [left; lia | right; split; [lia | exact He]].
    + intros a b Ha Hb. rewrite (Hnum a Ha), (Hnum b Hb). unfold by_count. simpl.
      rewrite Z.leb_le. lia.
    + apply entries_enumeration, dedup_sorted.
Qed.

(** ** saveContent *)

(** Number of rows written to [knowledge_content] (inserted or updated). *)
Fixpoint content_writes (t : list Event) : nat :=
  match t with
  | [] => 0
  | ContentInsert _ :: t' | ContentUpdate _ :: t' => S (content_writes t')
  | _ :: t' => content_writes t'
  end.

(** The source identifier saveContent works with: the cached one, or the one
    the source table gives. *)
Definition resolved_source (w : World) : option string :=
  match sourceId w with
  | Some sid => Some sid
  | None => id_or_null (single (List.filter (fun r => String.eqb (Row.src_url r) FCC_BASE)
                                            (sources w)))
  end.

(** The stored record of a URL, as [.single()] answers it. *)
Definition stored (u : string) (w : World) : option Row.ContentRow :=
  single (List.filter (fun r => String.eqb (Row.url r) u) (contents w)).

Lemma content_writes_app (t1 t2 : list Event) :
  content_writes (t1 ++ t2) = content_writes t1 + content_writes t2.
Proof.
  induction t1 as [|e t1 IH]; simpl; [reflexivity|].
  destruct e; simpl; rewrite IH; reflexivity.
Qed.

Lemma NoDup_map_eq {A B} (f : A -> B) (l : list A) (x y : A) :
  List.NoDup (map f l) -> In x l -> In y l -> f x = f y -> x = y.
Proof.
  induction l as [|z l IH]; simpl; [tauto|].
  intros Hnd Hx Hy Hf. inversion Hnd as [|? ? Hnot Hnd']; subst.
  destruct Hx as [->|Hx], Hy as [->|Hy]; try reflexivity.
  - exfalso. apply Hnot. rewrite Hf. now apply in_map.
  - exfalso. apply Hnot. rewrite <- Hf. now apply in_map.
  - now apply IH.
Qed.

Lemma update_filter (l : list Row.ContentRow) (u : string) (ex new : Row.ContentRow) :
  (forall r, In r l -> Row.id r = Row.id ex -> r = ex) ->
  Row.url ex = u -> Row.url new = u ->
  List.filter (fun r => String.eqb (Row.url r) u)
              (map (fun r => if Row.id r =? Row.id ex then new else r) l)
  = map (fun r => if Row.id r =? Row.id ex then new else r)
        (List.filter (fun r => String.eqb (Row.url r) u) l).
Proof.
  intros Hkey Hex Hnew. induction l as [|r l IH]; [reflexivity|].
  cbn [map List.filter].
  rewrite IH by (intros x Hx; apply Hkey; now right).
  destruct (Row.id r =? Row.id ex) eqn:E.
  - apply Nat.eqb_eq in E. rewrite (Hkey r (or_introl eq_refl) E).
    rewrite Hex, Hnew, String.eqb_refl. cbn [map]. now rewrite Nat.eqb_refl.
  - destruct (String.eqb (Row.url r) u); [cbn [map]; now rewrite E | reflexivity].
Qed.

Lemma single_filter_cases {A} (p : A -> bool) (l : list A) :
  length (List.filter p l) <= 1 ->
  (single (List.filter p l) = None /\ List.filter p l = [])
  \/ (exists x, single (List.filter p l) = Some x /\ List.filter p l = [x]).
Proof.
  destruct (List.filter p l) as [|x [|y t]]; simpl; intros H.
  - now left.
  - right. now exists x.
  - lia.
Qed.

Arguments Sha256.sha256_hex : simpl never.
Arguments contentHash : simpl never.

Ltac unfold_actions :=
  repeat (unfold saveContent, updateJob, try_catch, select_source, select_content,
            update_content, insert_content, update_job, db_call, modify, return_,
            get_world, throw, mret, action_ret, mbind, action_bind in *).

(** What saveContent does when every database call is carried out. *)
Lemma saveContent_reliable (r : ScrapeResult) (category sid : string) (w : World) :
  (forall t n, store t n = Done) ->
  resolved_source w = Some sid ->
  let w0 := match sourceId w with
            | Some _ => w
            | None => set_sourceId (Some sid) (tick w)
            end in
  saveContent r category w
  = if same_hash (stored (url r) w) (contentHash r) then tick w0
    else match stored (url r) w with
         | Some row =>
             emit (ContentUpdate (contentData sid r (Row.id row)))
                  (set_contents
                     (map (fun x => if Row.id x =? Row.id row
                                    then contentData sid r (Row.id row) else x)
                          (contents w))
                     (tick (tick w0)))
         | None =>
             emit (ContentInsert (contentData sid r (fresh_id (contents w))))
                  (set_contents
                     (contents w ++ [contentData sid r (fresh_id (contents w))])%list
                     (tick (tick w0)))
         end.
Proof.
  intros Hstore Hsrc. unfold resolved_source in Hsrc. unfold stored.
  unfold_actions.
  destruct (sourceId w) as [s|] eqn:Hs.
  - injection Hsrc as ->. cbn. rewrite Hs, !Hstore. cbn.
    destruct (same_hash _ _); [reflexivity|].
    destruct (single (List.filter _ (contents w))) as [row|]; cbn;
      rewrite ?Hstore; reflexivity.
  - cbn. rewrite !Hstore. cbn. rewrite Hsrc. cbn. rewrite !Hstore. cbn.
    destruct (same_hash _ _); [reflexivity|].
    destruct (single (List.filter _ (contents w))) as [row|]; cbn;
      rewrite ?Hstore; reflexivity.
Qed.


(** ** The batch loop of scrapeCertification *)

Definition successes (rs : list ScrapeResult) : nat :=
  length (List.filter success rs).

Definition failures (rs : list ScrapeResult) : nat :=
  length (List.filter (fun r => negb (success r)) rs).

(** The run after a pause between two batches. *)
Definition delayed (r : Run) : Run :=
  {| successCount := successCount r; failedCount := failedCount r;
     world := emit (Delay (delayMs config)) (world r) |}.

Lemma skipn_cons_nth {A} (d : A) (l : list A) (k : nat) :
  k < length l -> skipn k l = nth k l d :: skipn (S k) l.
Proof.
  revert k; induction l as [|x l IH]; intros k Hk; simpl in Hk; [lia|].
  destruct k as [|k]; [reflexivity|]. simpl. apply IH. lia.
Qed.

Lemma firstn_min {A} (c : nat) (l : list A) :
  firstn c l = firstn (Nat.min c (length l)) l.
Proof.
  destruct (Nat.le_gt_cases c (length l)) as [H|H].
  - now rewrite Nat.min_l.
  - rewrite Nat.min_r by lia. rewrite firstn_all. apply firstn_all2. lia.
Qed.

Section LoopInvariant.
Variables (cert : Cert.FCCCertification) (jobId : string) (onProgress : bool).
Variable urls : list string.
Variable Inv : nat -> Run -> Prop.

Hypothesis Inv_item : forall k r,
  k < length urls -> Inv k r ->
  Inv (S k) (record_result cert jobId onProgress (length urls) r
                           (scrapePage (nth k urls EmptyString))).

Hypothesis Inv_delay : forall k r, Inv k r -> Inv k (delayed r).

Lemma batch_invariant (m k : nat) (r : Run) :
  k + m <= length urls -> Inv k r ->
  Inv (k + m)
      (fold_left (record_result cert jobId onProgress (length urls))
                 (map scrapePage (firstn m (skipn k urls))) r).
Proof using Inv_item.
  revert k r; induction m as [|m IH]; intros k r Hk HI.
  - simpl. now rewrite Nat.add_0_r.
  - rewrite (skipn_cons_nth EmptyString urls k) by lia.
    cbn [firstn map fold_left].
    replace (k + S m) with (S k + m) by lia.
    apply IH; [lia|]. apply Inv_item; [lia | exact HI].
Qed.

Lemma batches_invariant (fuel i : nat) (r : Run) :
  0 < concurrency config ->
  length urls - i <= fuel ->
  Inv (Nat.min i (length urls)) r ->
  exists r', batches fuel cert jobId onProgress urls i r = Some r'
             /\ Inv (length urls) r'.
Proof using Inv_item Inv_delay.
  intros Hc. revert i r; induction fuel as [|fuel IH]; intros i r Hfuel HI.
  - simpl. destruct (i <? length urls) eqn:E.
    + apply Nat.ltb_lt in E. lia.
    + apply Nat.ltb_ge in E. rewrite Nat.min_r in HI by lia. eauto.
  - cbn [batches]. destruct (i <? length urls) eqn:E.
    + apply Nat.ltb_lt in E. rewrite Nat.min_l in HI by lia.
      unfold slice. replace (i + concurrency config - i) with (concurrency config) by lia.
      rewrite (firstn_min (concurrency config)), length_skipn.
      set (m := Nat.min (concurrency config) (length urls - i)).
      pose proof (batch_invariant m i r ltac:(lia) HI) as Hb.
      set (r1 := fold_left _ _ r) in *.
      apply IH; [lia|].
      replace (Nat.min (i + concurrency config) (length urls)) with (i + m) by lia.
      destruct (i + concurrency config <? length urls); [now apply Inv_delay | exact Hb].
    + apply Nat.ltb_ge in E. rewrite Nat.min_r in HI by lia. eauto.
Qed.
End LoopInvariant.

Lemma record_result_counts (cert : Cert.FCCCertification) (jobId : string)
    (onProgress : bool) (total : nat) (r : Run) (res : ScrapeResult) :
  successCount (record_result cert jobId onProgress total r res)
  = successCount r + (if success res then 1 else 0)
  /\ failedCount (record_result cert jobId onProgress total r res)
     = failedCount r + (if success res then 0 else 1).
Proof.
  unfold record_result. destruct (success res);
    cbn [successCount failedCount world]; lia.
Qed.

Lemma firstn_S_nth {A} (d : A) (l : list A) (k : nat) :
  k < length l -> firstn (S k) l = (firstn k l ++ [nth k l d])%list.
Proof.
  revert k; induction l as [|x l IH]; intros k Hk; simpl in Hk; [lia|].
  destruct k as [|k]; [reflexivity|].
  cbn [firstn nth]. rewrite (IH k) by lia. reflexivity.
Qed.

Lemma successes_snoc (rs : list ScrapeResult) (res : ScrapeResult) :
  successes (rs ++ [res]) = successes rs + (if success res then 1 else 0).
Proof.
  unfold successes. rewrite List.filter_app, length_app. simpl.
  destruct (success res); reflexivity.
Qed.

Lemma failures_snoc (rs : list ScrapeResult) (res : ScrapeResult) :
  failures (rs ++ [res]) = failures rs + (if success res then 0 else 1).
Proof.
  unfold failures. rewrite List.filter_app, length_app. simpl.
  destruct (success res); reflexivity.
Qed.

Lemma successes_failures (rs : list ScrapeResult) :
  successes rs + failures rs = length rs.
Proof.
  induction rs as [|res rs IH]; [reflexivity|].
  unfold successes, failures in *. simpl. destruct (success res); simpl; lia.
Qed.

(** The updates of job [jobId] the database has carried out, oldest first. *)
Fixpoint job_updates (jobId : string) (t : list Event) : list (gmap string JsVal) :=
  match t with
  | [] => []
  | JobUpdate j u :: t' =>
      if String.eqb j jobId then u :: job_updates jobId t' else job_updates jobId t'
  | _ :: t' => job_updates jobId t'
  end.

Lemma job_updates_app (jobId : string) (t1 t2 : list Event) :
  job_updates jobId (t1 ++ t2) = (job_updates jobId t1 ++ job_updates jobId t2)%list.
Proof.
  induction t1 as [|e t1 IH]; simpl; [reflexivity|].
  destruct e; try exact IH. destruct (String.eqb jobId0 jobId); simpl; now rewrite IH.
Qed.

(** saveContent leaves the job records alone. *)
Lemma saveContent_jobs (res : ScrapeResult) (category jobId : string) (w : World) :
  jobs (saveContent res category w) = jobs w
  /\ job_updates jobId (trace (saveContent res category w)) = job_updates jobId (trace w).
Proof.
  unfold_actions.
  destruct (sourceId w) eqn:Hs; cbn; rewrite ?Hs; cbn;
    repeat (case_match; cbn; rewrite ?job_updates_app; cbn; rewrite ?app_nil_r);
    simplify_eq; cbn; rewrite ?job_updates_app; cbn; rewrite ?app_nil_r; auto.
Qed.

(** updateJob when the database carries the update out. *)
Lemma updateJob_done (jobId : string) (u : gmap string JsVal) (w : World) :
  store scraping_jobs (calls w) = Done ->
  updateJob jobId u w
  = emit (JobUpdate jobId u)
         (set_jobs (alter (fun row => u ∪ row) jobId (jobs w)) (tick w)).
Proof. intros H. unfold_actions. now rewrite H. Qed.

Lemma getCertificationPages_world (certUrl jobId : string) (w : World) :
  jobs (snd (getCertificationPages certUrl w)) = jobs w
  /\ job_updates jobId (trace (snd (getCertificationPages certUrl w)))
     = job_updates jobId (trace w)
  /\ forall w', fst (getCertificationPages certUrl w') = fst (getCertificationPages certUrl w).
Proof.
  unfold getCertificationPages. destruct (listing_get certUrl); cbn; repeat split.
  rewrite job_updates_app. cbn. now rewrite app_nil_r.
Qed.

(** The update sent after the k-th item of a run over [results]. *)
Definition item_update (results : list ScrapeResult) (k : nat) : gmap string JsVal :=
  progress_updates k (failures (firstn k results)) (successes (firstn k results))
                   (length results).

Lemma progress_updates_processed (p f s n : nat) :
  progress_updates p f s n !! "urls_processed" = Some (VInt p).
Proof. unfold progress_updates. now rewrite lookup_insert_eq. Qed.

Lemma progress_updates_failed (p f s n : nat) :
  progress_updates p f s n !! "urls_failed" = Some (VInt f).
Proof.
  unfold progress_updates.
  rewrite lookup_insert_ne by discriminate. now rewrite lookup_insert_eq.
Qed.

Lemma progress_updates_percentage (p f s n : nat) :
  progress_updates p f s n !! "progress_percentage" = Some (VNumber (percentage p n)).
Proof.
  unfold progress_updates.
  rewrite !lookup_insert_ne by discriminate. now rewrite lookup_insert_eq.
Qed.

Lemma completed_updates_processed (now : string) :
  completed_updates now !! "urls_processed" = None.
Proof. unfold completed_updates. now rewrite !lookup_insert_ne by discriminate. Qed.

Section RunInvariant.
Variables (cert : Cert.FCCCertification) (jobId : string) (onProgress : bool).
Variable urls : list string.
Variable start : World.

Let results := map scrapePage urls.

(** What holds of a run once k items have been processed. *)
Definition run_invariant (k : nat) (r : Run) : Prop :=
  successCount r = successes (firstn k results)
  /\ failedCount r = failures (firstn k results)
  /\ ((forall n, store scraping_jobs n = Done) ->
      job_updates jobId (trace (world r))
      = (job_updates jobId (trace start) ++ map (item_update results) (seq 1 k))%list
      /\ (is_Some (jobs start !! jobId) ->
          exists row, jobs (world r) !! jobId = Some row
                      /\ (1 <= k -> row !! "urls_processed" = Some (VInt k)))).

Lemma run_invariant_start :
  run_invariant 0 {| successCount := 0; failedCount := 0; world := start |}.
Proof.
  unfold run_invariant. cbn. repeat split.
  - now rewrite app_nil_r.
  - intros [row Hrow]. exists row. split; [exact Hrow | lia].
Qed.

Lemma run_invariant_delay (k : nat) (r : Run) :
  run_invariant k r -> run_invariant k (delayed r).
Proof.
  unfold run_invariant, delayed. cbn. intros (Hs & Hf & Hw).
  repeat split; try assumption.
  - rewrite job_updates_app. cbn. rewrite app_nil_r. now apply Hw.
  - now apply Hw.
Qed.

Lemma run_invariant_item (k : nat) (r : Run) :
  k < length urls -> run_invariant k r ->
  run_invariant (S k)
    (record_result cert jobId onProgress (length urls) r
                   (scrapePage (nth k urls EmptyString))).
Proof. without_environment.
  intros Hk (Hs & Hf & Hw).
  set (res := scrapePage (nth k urls EmptyString)).
  assert (Hfirst : firstn (S k) results = (firstn k results ++ [res])%list).
  { rewrite (firstn_S_nth (scrapePage EmptyString)) by (unfold results; now rewrite length_map).
    unfold results. now rewrite map_nth. }
  destruct (record_result_counts cert jobId onProgress (length urls) r res) as [Hs' Hf'].
  assert (Hsum : successes (firstn (S k) results) + failures (firstn (S k) results) = S k).
  { rewrite successes_failures, length_firstn. unfold results. rewrite length_map. lia. }
  unfold run_invariant. split; [|split].
  - rewrite Hs', Hs, Hfirst, successes_snoc. reflexivity.
  - rewrite Hf', Hf, Hfirst, failures_snoc. reflexivity.
  - intros Hstore. destruct (Hw Hstore) as [Htrace Hrow].
    assert (Hpatch :
      progress_updates
        (successes (firstn (S k) results) + failures (firstn (S k) results))
        (failures (firstn (S k) results)) (successes (firstn (S k) results))
        (length urls)
      = item_update results (S k)).
    { unfold item_update. rewrite Hsum. unfold results. now rewrite length_map. }
    unfold record_result.
    set (r1 := if success res then _ else _).
    assert (Hr1 : successCount r1 = successes (firstn (S k) results)
                  /\ failedCount r1 = failures (firstn (S k) results)
                  /\ jobs (world r1) = jobs (world r)
                  /\ job_updates jobId (trace (world r1))
                     = job_updates jobId (trace (world r))).
    { rewrite Hfirst, successes_snoc, failures_snoc. unfold r1.
      destruct (success res); cbn [successCount failedCount world].
      - destruct (saveContent_jobs res (Cert.slug cert) jobId (world r)) as [Hj Hu].
        repeat split; try assumption; lia.
      - repeat split; lia. }
    destruct Hr1 as (Hs1 & Hf1 & Hj1 & Hu1).
    cbn [successCount failedCount world].
    rewrite Hs1, Hf1, Hpatch, (updateJob_done _ _ _ (Hstore _)).
    set (w2 := emit (JobUpdate jobId (item_update results (S k))) _).
    assert (Hw2 : job_updates jobId (trace w2)
                  = (job_updates jobId (trace (world r1)) ++ [item_update results (S k)])%list
                  /\ jobs w2 = alter (fun row => item_update results (S k) ∪ row) jobId
                                     (jobs (world r1))).
    { unfold w2. cbn [trace jobs emit set_jobs tick]. rewrite job_updates_app.
      cbn [job_updates]. rewrite String.eqb_refl. split; reflexivity. }
    destruct Hw2 as [Hu2 Hj2].
    assert (Hw3 : forall w3, w3 = (if onProgress
                                   then emit (OnProgress (successes (firstn (S k) results)
                                                          + failures (firstn (S k) results))
                                                         (length urls)) w2
                                   else w2) ->
                  job_updates jobId (trace w3) = job_updates jobId (trace w2)
                  /\ jobs w3 = jobs w2).
    { intros w3 ->. destruct onProgress; [|split; reflexivity].
      cbn [trace jobs emit]. rewrite job_updates_app. cbn [job_updates].
      rewrite app_nil_r. split; reflexivity. }
    destruct (Hw3 _ eq_refl) as [Hu3 Hj3]. split.
    + rewrite Hu3, Hu2, Hu1, Htrace, seq_S, map_app, <- app_assoc. reflexivity.
    + intros Hsome. destruct (Hrow Hsome) as [row [Hlook _]].
      exists (item_update results (S k) ∪ row). split.
      * rewrite Hj3, Hj2, Hj1, lookup_alter_eq, Hlook. reflexivity.
      * intros _. apply lookup_union_Some_l. unfold item_update.
        exact (progress_updates_processed _ _ _ _).
Qed.
End RunInvariant.

(** ** Progress percentages of runs over at most 50 URLs *)

#[global] Instance spec_float_eq_dec : EqDecision spec_float.
Proof. solve_decision. Defined.

(** [x] is within 2^-46 of the rational [100 * k / n]. *)
Definition close_to (k n : nat) (x : spec_float) : bool :=
  let '(m, d) := Number.to_fraction x in
  (Z.abs (m * Z.of_nat n - 100 * Z.of_nat k * d) * 2 ^ 46 <=? d * Z.of_nat n)%Z.

Definition percentage_table (n : nat) : bool :=
  bool_decide (percentage n n = Number.of_nat 100)
  && forallb (fun k => Number.leb (percentage k n) (percentage (S k) n)) (seq 0 n)
  && forallb (fun k => close_to k n (percentage k n)) (seq 0 (S n)).

Lemma percentage_table_ok : forallb percentage_table (seq 1 50) = true.
Proof. vm_compute. reflexivity. Qed.

Lemma percentage_facts (n : nat) :
  1 <= n <= 50 ->
  percentage n n = Number.of_nat 100
  /\ (forall k, k < n -> Number.leb (percentage k n) (percentage (S k) n) = true)
  /\ (forall k, k <= n -> close_to k n (percentage k n) = true).
Proof.
  intros Hn. pose proof percentage_table_ok as H.
  rewrite forallb_forall in H. specialize (H n). rewrite in_seq in H.
  specialize (H ltac:(lia)). unfold percentage_table in H.
  apply andb_prop in H as [H H3]. apply andb_prop in H as [H1 H2].
  apply bool_decide_eq_true in H1.
  rewrite forallb_forall in H2, H3. repeat split.
  - exact H1.
  - intros k Hk. apply H2, in_seq. lia.
  - intros k Hk. apply H3, in_seq. lia.
Qed.

(** ** scrapeCertification *)

(** The run up to its first batch: the discovered URLs and the world once
    the job has been marked as running. *)
Definition before_batches (cert : Cert.FCCCertification) (jobId : string) (w : World)
    : list string * World :=
  let w := emit (ConsoleLog ("Starting scrape of " ++ Cert.title cert ++ "...")) w in
  let '(urls, w) := getCertificationPages (Cert.url cert) w in
  let w := emit (ConsoleLog ("Found " ++ Number.to_string (length urls) ++ " pages in "
                             ++ Cert.title cert)) w in
  (urls, updateJob jobId (running_updates (length urls) (clock (calls w))) w).

Lemma scrapeCertification_unfold (fuel : nat) (cert : Cert.FCCCertification)
    (jobId : string) (onProgress : bool) (w : World) :
  scrapeCertification fuel cert jobId onProgress w
  = let '(urls, start) := before_batches cert jobId w in
    match batches fuel cert jobId onProgress urls 0
            {| successCount := 0; failedCount := 0; world := start |} with
    | Some r =>
        Some ({| Summary.success := successCount r; Summary.failed := failedCount r;
                 Summary.total := length urls |},
              updateJob jobId (completed_updates (clock (calls (world r)))) (world r))
    | None => None
    end.
Proof.
  unfold scrapeCertification, before_batches.
  destruct (getCertificationPages _ _) as [urls w']. reflexivity.
Qed.

Lemma before_batches_urls (cert : Cert.FCCCertification) (jobId : string) (w : World) :
  fst (before_batches cert jobId w) = fst (getCertificationPages (Cert.url cert) w).
Proof.
  unfold before_batches.
  set (w0 := emit _ w).
  destruct (getCertificationPages_world (Cert.url cert) jobId w) as (_ & _ & Hfst).
  rewrite <- (Hfst w0).
  destruct (getCertificationPages (Cert.url cert) w0) as [urls w']. reflexivity.
Qed.

Lemma before_batches_jobs (cert : Cert.FCCCertification) (jobId : string) (w : World) :
  (forall n, store scraping_jobs n = Done) ->
  let '(urls, start) := before_batches cert jobId w in
  (exists now, job_updates jobId (trace start)
               = (job_updates jobId (trace w) ++ [running_updates (length urls) now])%list)
  /\ (is_Some (jobs w !! jobId) -> is_Some (jobs start !! jobId)).
Proof.
  intros Hstore. unfold before_batches.
  set (w0 := emit _ w).
  destruct (getCertificationPages_world (Cert.url cert) jobId w0) as (Hj & Hu & _).
  destruct (getCertificationPages (Cert.url cert) w0) as [urls w'].
  cbn [snd] in Hj, Hu.
  rewrite (updateJob_done _ _ _ (Hstore _)). split.
  - eexists. cbn. rewrite !job_updates_app, Hu. unfold w0. cbn.
    rewrite job_updates_app. cbn. rewrite String.eqb_refl, !app_nil_r. reflexivity.
  - cbn. rewrite Hj. unfold w0. cbn. intros [row Hrow].
    rewrite lookup_alter_eq, Hrow. cbn. eauto.
Qed.

(** The batch loop ends, and the run invariant holds at its end. *)
Lemma scrapeCertification_run (fuel : nat) (cert : Cert.FCCCertification)
    (jobId : string) (onProgress : bool) (w : World) :
  0 < concurrency config -> 50 <= fuel ->
  let urls := fst (before_batches cert jobId w) in
  let start := snd (before_batches cert jobId w) in
  exists r,
    batches fuel cert jobId onProgress urls 0
            {| successCount := 0; failedCount := 0; world := start |} = Some r
    /\ run_invariant jobId urls start (length urls) r
    /\ scrapeCertification fuel cert jobId onProgress w
       = Some ({| Summary.success := successCount r; Summary.failed := failedCount r;
                  Summary.total := length urls |},
               updateJob jobId (completed_updates (clock (calls (world r)))) (world r)).
Proof.
  intros Hc Hfuel urls start.
  assert (Hlen : length urls <= 50).
  { unfold urls. rewrite before_batches_urls.
    apply (discovered_shape (Cert.url cert) w). }
  destruct (batches_invariant cert jobId onProgress urls
              (run_invariant jobId urls start)
              (run_invariant_item cert jobId onProgress urls start)
              (run_invariant_delay jobId urls start)
              fuel 0 {| successCount := 0; failedCount := 0; world := start |}
              Hc ltac:(lia) (run_invariant_start jobId urls start))
    as [r [Hr HI]].
  exists r. split; [exact Hr|]. split; [exact HI|].
  rewrite scrapeCertification_unfold. unfold urls, start in Hr.
  destruct (before_batches cert jobId w) as [urls' start']. cbn [fst snd] in *.
  now rewrite Hr.
Qed.

(** C10.  scrapeCertification returns (the batch loop ends within 50
    rounds, the most a run can need) and its summary satisfies
    success + failed = total, where total is the number of discovered URLs:
    success counts the URLs whose page was scraped and failed the others,
    each URL once.  When the job record exists and the database carries the
    job updates out, the stored urls_processed is total at the end. *)
Theorem scrapeCertification_summary (fuel : nat) (cert : Cert.FCCCertification)
    (jobId : string) (onProgress : bool) (w : World) :
  0 < concurrency config -> 50 <= fuel ->
  exists s w',
    scrapeCertification fuel cert jobId onProgress w = Some (s, w')
    /\ let urls := fst (getCertificationPages (Cert.url cert) w) in
       Summary.total s = length urls
       /\ Summary.success s + Summary.failed s = Summary.total s
       /\ Summary.success s = successes (map scrapePage urls)
       /\ Summary.failed s = failures (map scrapePage urls)
       /\ ((forall n, store scraping_jobs n = Done) ->
           is_Some (jobs w !! jobId) ->
           exists row, jobs w' !! jobId = Some row
                       /\ row !! "urls_processed" = Some (VInt (Summary.total s))).
Proof.
  intros Hc Hfuel.
  destruct (scrapeCertification_run fuel cert jobId onProgress w Hc Hfuel)
    as [r (Hr & (Hs & Hf & Hw) & Hrun)].
  pose proof (before_batches_urls cert jobId w) as Hurls.
  pose proof (discovered_shape (Cert.url cert) w) as (_ & Hhd).
  cbv zeta in Hhd. rewrite <- Hurls in Hhd.
  set (urls := fst (before_batches cert jobId w)) in *.
  set (start := snd (before_batches cert jobId w)) in *.
  assert (Hall : firstn (length urls) (map scrapePage urls) = map scrapePage urls)
    by (apply firstn_all2; now rewrite length_map).
  rewrite Hall in Hs, Hf.
  eexists _, _. split; [exact Hrun|]. cbv zeta. rewrite <- Hurls. fold urls.
  cbn [Summary.total Summary.success Summary.failed].
  split; [reflexivity|]. split.
  { rewrite Hs, Hf, successes_failures. apply length_map. }
  split; [exact Hs|]. split; [exact Hf|].
  intros Hstore Hsome. destruct (Hw Hstore) as [_ Hrow].
  pose proof (before_batches_jobs cert jobId w Hstore) as Hb.
  destruct (before_batches cert jobId w) as [urls' start'] eqn:Hbb.
  cbn [fst snd] in urls, start. destruct Hb as [_ Hb].
  destruct (Hrow (Hb Hsome)) as [row [Hlook Hk]].
  exists (completed_updates (clock (calls (world r))) ∪ row). split.
  - rewrite (updateJob_done _ _ _ (Hstore _)). cbn.
    now rewrite lookup_alter_eq, Hlook.
  - rewrite lookup_union_r by apply completed_updates_processed.
    apply Hk. destruct urls as [|u urls0]; [discriminate | simpl; lia].
Qed.

(** C4 (as amended).  When the database carries the job updates out, a run
    over n discovered URLs sends the job exactly these updates: the one that
    marks it running, then one per item, then the one that marks it
    completed.  The update after the k-th item stores urls_processed = k,
    the number of failures among the first k items, and the binary64 number
    (k / n) * 100, division first.  The stored counters and percentage never
    decrease; the percentage is within 2^-46 of 100 * k / n and is exactly
    100 after the last item, whether the items succeeded or failed. *)
Theorem scrapeCertification_progress (fuel : nat) (cert : Cert.FCCCertification)
    (jobId : string) (onProgress : bool) (w : World) :
  0 < concurrency config -> 50 <= fuel ->
  (forall n, store scraping_jobs n = Done) ->
  exists s w' started completed,
    scrapeCertification fuel cert jobId onProgress w = Some (s, w')
    /\ let urls := fst (getCertificationPages (Cert.url cert) w) in
       let n := length urls in
       let results := map scrapePage urls in
       job_updates jobId (trace w')
       = (job_updates jobId (trace w)
          ++ running_updates n started
          :: map (item_update results) (seq 1 n)
          ++ [completed_updates completed])%list
       /\ (forall k, 1 <= k <= n ->
             item_update results k !! "urls_processed" = Some (VInt k)
             /\ item_update results k !! "urls_failed"
                = Some (VInt (failures (firstn k results)))
             /\ item_update results k !! "progress_percentage"
                = Some (VNumber (percentage k n)))
       /\ (forall k, k < n ->
             failures (firstn k results) <= failures (firstn (S k) results)
             /\ Number.leb (percentage k n) (percentage (S k) n) = true)
       /\ (forall k, k <= n -> close_to k n (percentage k n) = true)
       /\ percentage n n = Number.of_nat 100.
Proof.
  intros Hc Hfuel Hstore.
  destruct (scrapeCertification_run fuel cert jobId onProgress w Hc Hfuel)
    as [r (Hr & (Hs & Hf & Hw) & Hrun)].
  pose proof (before_batches_urls cert jobId w) as Hurls.
  pose proof (discovered_shape (Cert.url cert) w) as (Hlen & Hhd).
  cbv zeta in Hhd, Hlen. rewrite <- Hurls in Hhd, Hlen.
  pose proof (before_batches_jobs cert jobId w Hstore) as Hb.
  destruct (before_batches cert jobId w) as [urls start] eqn:Hbb.
  cbn [fst snd] in *. destruct Hb as [[started Hstart] _].
  destruct (Hw Hstore) as [Htrace _].
  assert (Hn : 1 <= length urls <= 50)
    by (destruct urls; [discriminate | simpl in *; lia]).
  destruct (percentage_facts (length urls) Hn) as (H100 & Hmono & Hclose).
  exists {| Summary.success := successCount r; Summary.failed := failedCount r;
            Summary.total := length urls |},
         (updateJob jobId (completed_updates (clock (calls (world r)))) (world r)),
         started, (clock (calls (world r))).
  split; [exact Hrun|]. cbv zeta. rewrite <- Hurls.
  assert (Hlenr : length (map scrapePage urls) = length urls) by apply length_map.
  split; [|split; [|split; [|split]]].
  - rewrite (updateJob_done _ _ _ (Hstore _)). cbn.
    rewrite job_updates_app, Htrace, Hstart. cbn.
    rewrite String.eqb_refl, <- !app_assoc. reflexivity.
  - intros k Hk. unfold item_update. rewrite Hlenr.
    rewrite progress_updates_processed, progress_updates_failed,
      progress_updates_percentage. repeat split.
  - intros k Hk. split; [|now apply Hmono].
    rewrite (firstn_S_nth (scrapePage EmptyString)) by lia.
    rewrite failures_snoc. lia.
  - exact Hclose.
  - exact H100.
Qed.


End Scraper.

(** ** The model on concrete inputs *)

Example sha256_empty :
  Sha256.sha256_hex ""
  = "e3b0c44298fc1c149afbf4c8996fb92427ae41e4649b934ca495991b7852b855".
Proof. vm_compute. reflexivity. Qed.

Example sha256_abc :
  Sha256.sha256_hex "abc"
  = "ba7816bf8f01cfea414140de5dae2223b00361a396177a9cb410ff61f20015ad".
Proof. vm_compute. reflexivity. Qed.

Example sha256_two_blocks :
  Sha256.sha256_hex "abcdbcdecdefdefgefghfghighijhijkijkljklmklmnlmnomnopnopq"
  = "248d6a61d20638b8e5c026930c3e6039a33ce45964ff2167f6ecedd419db06c1".
Proof. vm_compute. reflexivity. Qed.

Example split_char_url :
  split_char "/" "https://x/learn/a/" = ["https:"; ""; "x"; "learn"; "a"; ""].
Proof. reflexivity. Qed.

Example split_class_edges :
  split_class (fun c => negb (is_word c)) ", the  cat;" = [""; "the"; "cat"; ""].
Proof. reflexivity. Qed.

Example trim_both : trim "  a b  " = "a b".
Proof. reflexivity. Qed.

Example match_language_second_marker :
  match_language "foo language- language-js-x bar" = Some "js".
Proof. reflexivity. Qed.

Example array_index_examples :
  map JsObject.array_index ["2024"; "0123"; "4294967294"; "4294967295"; "zebra"]
  = [Some 2024%N; None; Some 4294967294%N; None; None].
Proof. vm_compute. reflexivity. Qed.

Example discovered_sample :
  fst (getCertificationPages Sample.listing Sample.root Sample.world)
  = [Sample.root; "https://www.freecodecamp.org/learn/a";
     "https://www.freecodecamp.org/learn/b"].
Proof. reflexivity. Qed.

Example run_sample :
  fst <$> scrapeCertification Sample.engine Sample.listing Sample.page Sample.reliable
            Sample.clock Sample.config 50 Sample.cert "job-1" false Sample.world
  = Some {| Summary.success := 2; Summary.failed := 1; Summary.total := 3 |}.
Proof. vm_compute. reflexivity. Qed.

Example percentage_one_third :
  percentage 1 3 = S754_finite false 4691249611844266 (-47)
  /\ Number.div (Number.mul (Number.of_nat 100) (Number.of_nat 1)) (Number.of_nat 3)
     = S754_finite false 4691249611844267 (-47).
Proof. vm_compute. split; reflexivity. Qed.

Lemma new_config_concurrency (config : option PartialConfig) :
  0 < concurrency (new_config config).
Proof.
  unfold new_config. cbn [concurrency].
  destruct (config ≫= p_concurrency) as [[|n]|]; simpl; lia.
Qed.

(** ** The theorems at the sample inputs *)

Lemma contentHash_content_only_witness :
  content (Sample.article "Basic HTML") = content (Sample.article "HTML basics")
  /\ contentHash (Sample.article "Basic HTML") = contentHash (Sample.article "HTML basics").
Proof.
  split; [reflexivity|].
  exact (proj1 (contentHash_content_only (Sample.article "Basic HTML")
                  (Sample.article "HTML basics") eq_refl)).
Defined.


Lemma getCertificationPages_spec_witness :
  let urls := fst (getCertificationPages Sample.listing Sample.root Sample.world) in
  length urls <= 50
  /\ hd_error urls = Some Sample.root
  /\ urls = firstn 50 (dedup [] (candidates Sample.root Sample.listing_doc))
  /\ fst (getCertificationPages Sample.listing "https://www.freecodecamp.org/learn/none/"
                                Sample.world)
     = ["https://www.freecodecamp.org/learn/none/"].
Proof.
  intros urls.
  destruct (getCertificationPages_spec Sample.listing Sample.root Sample.world)
    as (Hlen & Hhd & _ & Hloaded & _).
  destruct (Hloaded Sample.listing_doc eq_refl) as (Hurls & _).
  destruct (getCertificationPages_spec Sample.listing
              "https://www.freecodecamp.org/learn/none/" Sample.world)
    as (_ & _ & _ & _ & Hthrew).
  split; [exact Hlen|]. split; [exact Hhd|]. split; [exact Hurls|].
  exact (Hthrew (ErrorObject "Request failed with status code 404") eq_refl).
Defined.


Lemma extractKeywords_spec_witness :
  exists ranked,
    extractKeywords Sample.engine "Learn HTML in 2024: zebra markup, HTML markup."
    = firstn 10 ranked
    /\ StronglySorted
         (ranks_before ["learn"; "html"; "2024"; "zebra"; "markup"; "html"; "markup"])
         ranked.
Proof.
  destruct (extractKeywords_spec Sample.engine
              "Learn HTML in 2024: zebra markup, HTML markup.")
    as [ranked (Heq & _ & _ & Hsorted)].
  - simpl. intuition discriminate.
  - simpl. intuition discriminate.
  - exists ranked. split; [exact Heq | exact Hsorted].
Defined.

Lemma scrapePage_failure_witness :
  success (scrapePage Sample.engine Sample.page "https://www.freecodecamp.org/learn/b")
  = false
  /\ error (scrapePage Sample.engine Sample.page "https://www.freecodecamp.org/learn/b")
     = Some "timeout of 30000ms exceeded".
Proof.
  destruct (scrapePage_failure Sample.engine Sample.page
              "https://www.freecodecamp.org/learn/b"
              (ErrorObject "timeout of 30000ms exceeded") eq_refl) as [H _].
  rewrite H. split; reflexivity.
Defined.

Lemma scrapePage_topics_witness :
  topics (scrapePage Sample.engine Sample.page Sample.root)
  = (List.filter (fun p => truthy p && not_learn p) ["https:"; "www.freecodecamp.org"]
     ++ List.filter not_learn (path_segments Sample.root))%list.
Proof.
  destruct (scrapePage_topics Sample.engine Sample.page Sample.root Sample.page_doc
              eq_refl) as [_ H].
  apply (H "https:" "www.freecodecamp.org" "/learn/2022/responsive-web-design/").
  - reflexivity.
  - reflexivity.
  - reflexivity.
  - right. eexists. reflexivity.
Defined.

Lemma scrapeCertification_summary_witness :
  exists s w',
    scrapeCertification Sample.engine Sample.listing Sample.page Sample.reliable
      Sample.clock Sample.config 50 Sample.cert "job-1" false Sample.world
    = Some (s, w')
    /\ Summary.success s + Summary.failed s = Summary.total s
    /\ exists row, jobs w' !! "job-1" = Some row
                   /\ row !! "urls_processed" = Some (VInt (Summary.total s)).
Proof.
  destruct (scrapeCertification_summary Sample.engine Sample.listing Sample.page
              Sample.reliable Sample.clock Sample.config 50 Sample.cert "job-1" false
              Sample.world)
    as (s & w' & Hrun & _ & Hsum & _ & _ & Hrow).
  - cbv. lia.
  - lia.
  - exists s, w'. split; [exact Hrun|]. split; [exact Hsum|].
    apply Hrow; [reflexivity|]. vm_compute. eexists. reflexivity.
Defined.

Lemma scrapeCertification_progress_witness :
  exists s w' started completed,
    scrapeCertification Sample.engine Sample.listing Sample.page Sample.reliable
      Sample.clock Sample.config 50 Sample.cert "job-1" false Sample.world
    = Some (s, w')
    /\ let results :=
         map (scrapePage Sample.engine Sample.page)
             (fst (getCertificationPages Sample.listing Sample.root Sample.world)) in
       job_updates "job-1" (trace w')
       = (running_updates 3 started
          :: map (item_update results) [1; 2; 3] ++ [completed_updates completed])%list
       /\ percentage 3 3 = Number.of_nat 100.
Proof.
  destruct (scrapeCertification_progress Sample.engine Sample.listing Sample.page
              Sample.reliable Sample.clock Sample.config 50 Sample.cert "job-1" false
              Sample.world)
    as (s & w' & started & completed & Hrun & Htrace & _ & _ & _ & H100).
  - cbv. lia.
  - lia.
  - reflexivity.
  - exists s, w', started, completed. split; [exact Hrun|]. split; [exact Htrace | exact H100].
Defined.


(** ** Where the specification says more than the code does *)

(** C1: equal fingerprints do not force equal contents, since the
    fingerprints are finitely many. *)
Lemma fingerprint_not_injective :
  ~ (forall r1 r2 : ScrapeResult,
       contentHash r1 = contentHash r2 <-> content r1 = content r2).
Proof.
  intros H. destruct sha256_collision as (s1 & s2 & Hne & Heq). apply Hne.
  set (mk := fun c : string =>
               {| success := true; url := Sample.root; title := EmptyString;
                  content := c; markdown := None; codeSnippets := [];
                  wordCount := 0; characterCount := 0; keywords := [];
                  topics := []; error := None |}).
  exact (proj1 (H (mk s1) (mk s2)) Heq).
Qed.

(** C4: after the first of three items the stored percentage is
    4691249611844266 * 2^-47 = 33.33333333333333, which is neither the
    rational 100/3 nor the binary64 quotient 100 * 1 / 3. *)
Lemma progress_is_not_exact :
  match scrapeCertification Sample.engine Sample.listing Sample.page Sample.reliable
          Sample.clock Sample.config 50 Sample.cert "job-1" false Sample.world with
  | Some (s, w') =>
      Summary.total s = 3
      /\ nth 1 (job_updates "job-1" (trace w')) ∅ !! "progress_percentage"
         = Some (VNumber (S754_finite false 4691249611844266 (-47)))
  | None => False
  end
  /\ Number.to_fraction (S754_finite false 4691249611844266 (-47))
     = (4691249611844266, 2 ^ 47)%Z
  /\ (4691249611844266 * 3 <> 100 * 1 * 2 ^ 47)%Z
  /\ S754_finite false 4691249611844266 (-47)
     <> Number.div (Number.mul (Number.of_nat 100) (Number.of_nat 1)) (Number.of_nat 3).
Proof.
  split; [|split; [|split]].
  - vm_compute. split; reflexivity.
  - reflexivity.
  - lia.
  - vm_compute. discriminate.
Qed.


(** C6: [zebra] occurs first and as often as [2024], yet [2024] is ranked
    first, because the frequency object enumerates an array index before
    any other key. *)
Lemma array_index_token_ranked_first :
  keyword_tokens "zebra 2024" = ["zebra"; "2024"]
  /\ extractKeywords Sample.engine "zebra 2024" = ["2024"; "zebra"]
  /\ occurrences "zebra" ["zebra"; "2024"] = occurrences "2024" ["zebra"; "2024"]
  /\ first_index "zebra" ["zebra"; "2024"] < first_index "2024" ["zebra"; "2024"].
Proof.
  split; [reflexivity|]. split; [vm_compute; reflexivity|].
  split; [reflexivity|]. simpl. lia.
Qed.

(** C9: the topics of a scraped page begin with the scheme piece and the
    host, which are not path segments. *)
Lemma topics_include_scheme_and_host :
  topics (scrapePage Sample.engine Sample.page Sample.root)
  = ["https:"; "www.freecodecamp.org"; "2022"; "responsive-web-design"]
  /\ List.filter not_learn (path_segments Sample.root)
     = ["2022"; "responsive-web-design"]
  /\ topics (scrapePage Sample.engine Sample.page Sample.root)
     <> List.filter not_learn (path_segments Sample.root).
Proof.
  split; [reflexivity|]. split; [reflexivity|]. vm_compute. discriminate.
Qed.

(** * Further properties of the scraper *)

Ltac str_simpl := rewrite ?append_cons, ?append_nil; simpl.

Ltac unfold_actions :=
  repeat (unfold saveContent, updateJob, try_catch, select_source, select_content,
            update_content, insert_content, update_job, db_call, modify, return_,
            get_world, throw, mret, action_ret, mbind, action_bind in *).

(** ** Trimmed text and word counts *)

(** The last character of [s] is in the class [cls]. *)
Fixpoint last_is (cls : ascii -> bool) (s : string) : bool :=
  match s with
  | EmptyString => false
  | String c EmptyString => cls c
  | String _ s' => last_is cls s'
  end.

(** No white space at either end. *)
Definition trimmed (s : string) : Prop :=
  starts_with_class is_space s = false /\ last_is is_space s = false.

(** The number of maximal runs of characters that are not white space;
    [after_space] tells whether a run may start at the first character. *)
Fixpoint words_from (after_space : bool) (s : string) : nat :=
  match s with
  | EmptyString => 0
  | String c s' =>
      if is_space c then words_from true s'
      else (if after_space then 1 else 0) + words_from false s'
  end.

Lemma trimStart_start (s : string) : starts_with_class is_space (trimStart s) = false.
Proof.
  induction s as [|c s IH]; [reflexivity|].
  simpl. destruct (is_space c) eqn:E; [exact IH | simpl; exact E].
Qed.

Lemma trimEnd_last (s : string) : last_is is_space (trimEnd s) = false.
Proof.
  induction s as [|c s IH]; [reflexivity|].
  simpl. destruct (trimEnd s) as [|d t] eqn:E.
  - destruct (is_space c) eqn:Ec; [reflexivity | simpl; exact Ec].
  - exact IH.
Qed.

Lemma trimEnd_start (s : string) :
  starts_with_class is_space s = false ->
  starts_with_class is_space (trimEnd s) = false.
Proof.
  destruct s as [|c s]; [reflexivity|]. simpl. intros Hc.
  destruct (trimEnd s); [rewrite Hc|]; simpl; auto.
Qed.

Lemma trimEnd_fixed (s : string) : last_is is_space s = false -> trimEnd s = s.
Proof.
  induction s as [|c s IH]; [reflexivity|].
  destruct s as [|d s'].
  - simpl. intros ->. reflexivity.
  - intros H. change (last_is is_space (String c (String d s')))
      with (last_is is_space (String d s')) in H.
    change (trimEnd (String c (String d s')))
      with (match trimEnd (String d s') with
            | EmptyString => if is_space c then EmptyString else String c EmptyString
            | t => String c t
            end).
    now rewrite (IH H).
Qed.

Lemma trimStart_fixed (s : string) :
  starts_with_class is_space s = false -> trimStart s = s.
Proof. destruct s as [|c s]; [reflexivity|]. simpl. now intros ->. Qed.

Lemma trim_trimmed (s : string) : trimmed (trim s).
Proof.
  unfold trimmed, trim. split.
  - apply trimEnd_start, trimStart_start.
  - apply trimEnd_last.
Qed.

Lemma trim_fixed (s : string) : trimmed s -> trim s = s.
Proof.
  intros [Hs He]. unfold trim. rewrite (trimStart_fixed s Hs). now apply trimEnd_fixed.
Qed.

Lemma split_class_head (cls : ascii -> bool) (s : string) :
  starts_with_class cls s = true -> hd EmptyString (split_class cls s) = EmptyString.
Proof.
  induction s as [|c s IH]; [discriminate|].
  simpl. intros Hc. rewrite Hc.
  destruct (starts_with_class cls s) eqn:E; [now apply IH | reflexivity].
Qed.

Lemma split_class_nonempty_class (cls : ascii -> bool) (s : string) :
  split_class cls s <> [].
Proof.
  induction s as [|c s IH]; simpl; [discriminate|].
  destruct (cls c).
  - destruct (starts_with_class cls s); [exact IH | discriminate].
  - destruct (split_class cls s); discriminate.
Qed.

Lemma split_class_words (s : string) :
  words_from true s = length (List.filter truthy (split_class is_space s))
  /\ words_from false s = length (List.filter truthy (tl (split_class is_space s))).
Proof.
  induction s as [|c s [IHt IHf]]; [split; reflexivity|].
  cbn [words_from split_class]. destruct (is_space c) eqn:Ec.
  - destruct (starts_with_class is_space s) eqn:Es.
    + split; [exact IHt|]. rewrite IHt.
      pose proof (split_class_head is_space s Es) as Hh.
      destruct (split_class is_space s) as [|t ts]; [reflexivity|].
      simpl in Hh. subst t. reflexivity.
    + split; [exact IHt | exact IHt].
  - pose proof (split_class_nonempty_class is_space s) as Hne.
    destruct (split_class is_space s) as [|t ts]; [congruence|].
    simpl in IHf. simpl. split; [now rewrite IHf | exact IHf].
Qed.

Lemma words_from_bound (s : string) :
  2 * words_from true s <= String.length s + 1
  /\ 2 * words_from false s <= String.length s.
Proof.
  induction s as [|c s [IHt IHf]]; [simpl; lia|].
  cbn [words_from String.length]. destruct (is_space c); lia.
Qed.

Lemma words_from_trimmed (s : string) :
  starts_with_class is_space s = false ->
  (words_from true s = 0 <-> s = EmptyString).
Proof.
  destruct s as [|c s]; [tauto|]. simpl. intros ->. split; [lia | discriminate].
Qed.

(** [fold_left] of an appending step is the concatenation of the pieces. *)
Lemma fold_left_append {A} (f : A -> string) (l : list A) (acc : string) :
  fold_left (fun md el => md ++ f el) l acc = acc ++ String.concat EmptyString (map f l).
Proof.
  revert acc; induction l as [|x l IH]; intros acc.
  - simpl. now rewrite app_empty_r.
  - cbn [fold_left map]. rewrite IH.
    destruct l as [|y l]; cbn [map String.concat].
    + now rewrite !app_empty_r.
    + now rewrite app_assoc_s, append_nil.
Qed.

(** The markdown block of one element of each pass. *)
Definition heading_block (el : Element) : string :=
  str_repeat "#" (heading_level el) ++ " " ++ trim (text el) ++ newline ++ newline.

Definition paragraph_block (el : Element) : string :=
  trim (text el) ++ newline ++ newline.

Definition code_block (el : Element) : string :=
  "```" ++ language_of el ++ newline ++ trim (text el) ++ newline
  ++ "```" ++ newline ++ newline.

Section MoreScraper.

Variable engine_sort : list (string * JsObject.value) -> list (string * JsObject.value).
Variable listing_get : string -> Response.
Variable page_get : string -> Response.
Variable store : Table -> nat -> Outcome.
Variable clock : nat -> string.
Variable config : ScraperConfig.

Ltac without_environment :=
  try clear config; try clear clock; try clear store; try clear page_get;
  try clear listing_get; try clear engine_sort.

(** X1.  The text fields of a scraped page carry no white space at either
    end: title, content, the code of every snippet and the markdown. *)
Theorem scrapePage_fields_trimmed (url : string) (doc : Document) :
  page_get url = Loaded doc ->
  let r := scrapePage engine_sort page_get url in
  trimmed (title r)
  /\ trimmed (content r)
  /\ (forall sn, In sn (codeSnippets r) -> trimmed (code sn))
  /\ (exists md, markdown r = Some md /\ trimmed md).
Proof.
  intros Hget r. unfold r, scrapePage. rewrite Hget.
  cbn [title content codeSnippets markdown]. split; [|split; [|split]].
  - unfold or_else. destruct (truthy _); apply trim_trimmed.
  - apply trim_trimmed.
  - intros sn Hin. rewrite push_snippet_fold in Hin. simpl in Hin.
    apply in_map_iff in Hin as [el [<- _]]. apply trim_trimmed.
  - eexists. split; [reflexivity|]. apply trim_trimmed.
Qed.

(** X2.  On a scraped page characterCount is the length of the content and
    wordCount the number of maximal runs of characters that are not white
    space; wordCount is zero exactly when the content is empty, and a
    content of n characters has at most (n + 1) / 2 words. *)
Theorem scrapePage_counts (url : string) (doc : Document) :
  page_get url = Loaded doc ->
  let r := scrapePage engine_sort page_get url in
  characterCount r = String.length (content r)
  /\ wordCount r = words_from true (content r)
  /\ (wordCount r = 0 <-> content r = EmptyString)
  /\ 2 * wordCount r <= characterCount r + 1.
Proof.
  intros Hget r. unfold r, scrapePage. rewrite Hget.
  cbn [characterCount wordCount content].
  set (c := trim (selection_text (q_main doc))).
  destruct (split_class_words c) as [Hw _]. rewrite <- Hw.
  split; [reflexivity|]. split; [reflexivity|]. split.
  - apply words_from_trimmed. apply (trim_trimmed _).
  - apply words_from_bound.
Qed.

(** X3.  The markdown of a page is the trimmed concatenation of three
    passes: the blocks of all headings, then the blocks of all paragraphs,
    then the fenced blocks of all code elements, each pass in document
    order; a heading [h1] to [h4] is prefixed by as many [#] as its level. *)
Theorem htmlToMarkdown_passes (doc : Document) :
  htmlToMarkdown doc
  = trim (String.concat EmptyString (map heading_block (q_headings doc))
          ++ String.concat EmptyString (map paragraph_block (q_p doc))
          ++ String.concat EmptyString (map code_block (q_pre_code doc)))
  /\ forall el n, In n [1; 2; 3; 4] ->
       tagName el = "h" ++ Number.to_string n ->
       heading_block el = str_repeat "#" n ++ " " ++ trim (text el) ++ newline ++ newline.
Proof.
  without_environment. split.
  - unfold htmlToMarkdown.
    change md_code with (fun md el => md ++ code_block el).
    change md_paragraph with (fun md el => md ++ paragraph_block el).
    change md_heading with (fun md el => md ++ heading_block el).
    rewrite !fold_left_append, append_nil, app_assoc_s. reflexivity.
  - intros el n Hn Htag. unfold heading_block, heading_level. rewrite Htag.
    simpl in Hn. destruct Hn as [<-|[<-|[<-|[<-|[]]]]]; reflexivity.
Qed.

(** ** Keywords *)

Definition not_proto (w : string) : bool := negb (String.eqb w "__proto__").

Lemma split_nonword_all_word (s : string) :
  List.Forall (fun p => all_word p = true)
              (split_class (fun c => negb (is_word c)) s).
Proof.
  without_environment.
  induction s as [|c s IH]; [repeat constructor|].
  cbn [split_class]. destruct (is_word c) eqn:Ec; cbn [negb].
  - destruct (split_class _ s) as [|t ts].
    + repeat constructor. simpl. now rewrite Ec.
    + inversion IH; subst. constructor; [|assumption]. simpl. now rewrite Ec.
  - destruct (starts_with_class _ s); [exact IH | now constructor].
Qed.

Lemma count_word_proto (o : JsObject.object) : count_word o "__proto__" = o.
Proof. reflexivity. Qed.

Lemma fold_count_skips_proto (ws : list string) (o : JsObject.object) :
  fold_left count_word ws o = fold_left count_word (List.filter not_proto ws) o.
Proof.
  without_environment.
  revert o; induction ws as [|w ws IH]; intros o; [reflexivity|].
  cbn [fold_left List.filter]. unfold not_proto at 1.
  destruct (String.eqb w "__proto__") eqn:E; cbn [negb fold_left].
  - apply String.eqb_eq in E. subst w. rewrite count_word_proto. apply IH.
  - apply IH.
Qed.

(** The ranking of a list of words none of which names an inherited
    property. *)
Lemma ranked_words (ws : list string) :
  List.Forall (fun w => JsObject.inherited w = None) ws ->
  exists ranked,
    map fst (firstn 10 (JsObject.sort engine_sort by_count
                          (JsObject.entries (fold_left count_word ws JsObject.empty))))
    = firstn 10 ranked
    /\ List.NoDup ranked
    /\ (forall w, In w ranked <-> In w ws)
    /\ StronglySorted (ranks_before ws) ranked.
Proof. without_environment.
  intros Hws.
  set (ks := dedup [] ws).
  set (final := JsObject.sort engine_sort by_count
                  (JsObject.entries (map (count_entry ws) ks))).
  assert (Hnum : forall e, In e (JsObject.entries (map (count_entry ws) ks)) ->
                           e = count_entry ws (fst e)).
  { intros e He. apply (Permutation_in _ (entries_perm _)) in He.
    apply in_map_iff in He as [k [<- _]]. reflexivity. }
  assert (Hfinal : final = JsObject.stable_sort
                     (fun a b => match by_count a b with
                                 | Some d => (d <=? 0)%Z
                                 | None => true
                                 end)
                     (JsObject.entries (map (count_entry ws) ks))).
  { apply sort_by_count_numeric. intros e He. rewrite (Hnum e He). simpl. eauto. }
  assert (Hperm : Permutation (map fst final) ks).
  { rewrite Hfinal, stable_sort_perm, entries_perm, map_map. simpl.
    now rewrite map_id. }
  exists (map fst final). split; [|split; [|split]].
  - rewrite (frequency_object ws Hws). fold ks. fold final. symmetry. apply firstn_map.
  - apply (Permutation_NoDup (Permutation_sym Hperm)), dedup_NoDup.
  - intros w. split; intros Hin.
    + apply (Permutation_in _ Hperm) in Hin. now apply dedup_In in Hin.
    + apply (Permutation_in _ (Permutation_sym Hperm)). apply dedup_In.
      simpl. tauto.
  - apply StronglySorted_map. rewrite Hfinal.
    eapply StronglySorted_weaken;
      [|apply (stable_sort_sorted _
                 (fun e => (- Z.of_nat (occurrences (fst e) ws))%Z)
                 (fun a b => enumerated_before ws (fst a) (fst b)))].
    + intros a b _ _ Hp. unfold placed_before in Hp. unfold ranks_before.
      destruct Hp as [Hlt|[Heq He]]; [left; lia | right; split; [lia | exact He]].
    + intros a b Ha Hb. rewrite (Hnum a Ha), (Hnum b Hb). unfold by_count. simpl.
      rewrite Z.leb_le. lia.
    + apply entries_enumeration, dedup_sorted.
Qed.

(** The keywords of a content without the token [constructor]. *)
Lemma keywords_ranked (content : string) :
  let ws := List.filter not_proto (keyword_tokens content) in
  ~ In "constructor" (keyword_tokens content) ->
  exists ranked,
    extractKeywords engine_sort content = firstn 10 ranked
    /\ List.NoDup ranked
    /\ (forall w, In w ranked <-> In w ws)
    /\ StronglySorted (ranks_before ws) ranked.
Proof. without_environment.
  intros ws Hctor.
  assert (Hws : List.Forall (fun w => JsObject.inherited w = None) ws).
  { apply List.Forall_forall. intros w Hw. apply filter_In in Hw as [Hw Hp].
    apply negb_true_iff, String.eqb_neq in Hp.
    apply (token_inherited content w Hw); [congruence | exact Hp]. }
  destruct (ranked_words ws Hws) as [ranked (Heq & Hnd & Hin & Hsorted)].
  exists ranked. split; [|split; [exact Hnd | split; [exact Hin | exact Hsorted]]].
  unfold extractKeywords. rewrite fold_count_skips_proto. exact Heq.
Qed.

(** X4.  The token [__proto__] is never counted.  When no token is
    [constructor], the keywords are the first 10 of the distinct tokens
    other than [__proto__], ranked by descending number of occurrences and,
    among equals, in the enumeration order of the frequency object. *)
Theorem extractKeywords_without_proto (content : string) :
  let ws := List.filter not_proto (keyword_tokens content) in
  ~ In "constructor" (keyword_tokens content) ->
  exists ranked,
    extractKeywords engine_sort content = firstn 10 ranked
    /\ List.NoDup ranked
    /\ (forall w, In w ranked <-> In w (keyword_tokens content) /\ w <> "__proto__")
    /\ StronglySorted (ranks_before ws) ranked.
Proof. without_environment.
  intros ws Hctor.
  destruct (keywords_ranked content Hctor) as [ranked (Heq & Hnd & Hin & Hsorted)].
  exists ranked. split; [exact Heq|]. split; [exact Hnd|]. split; [|exact Hsorted].
  intros w. rewrite Hin. unfold ws. rewrite filter_In. unfold not_proto.
  rewrite negb_true_iff, String.eqb_neq. tauto.
Qed.

(** X5.  extractKeywords never returns more than 10 keywords, and when no
    token is [constructor] every keyword is a token of the lower-cased
    content: at least 4 characters long, made of word characters only,
    without upper-case ASCII letters, and listed once. *)
Theorem extractKeywords_shape (content : string) :
  length (extractKeywords engine_sort content) <= 10
  /\ (~ In "constructor" (keyword_tokens content) ->
      List.NoDup (extractKeywords engine_sort content)
      /\ forall k, In k (extractKeywords engine_sort content) ->
           4 <= String.length k /\ all_word k = true /\ no_upper k = true).
Proof.
  split.
  - unfold extractKeywords. rewrite length_map. apply firstn_le_length.
  - intros Hctor.
    destruct (keywords_ranked content Hctor) as [ranked (Heq & Hnd & Hin & _)].
    rewrite Heq. split.
    + rewrite <- (firstn_skipn 10 ranked) in Hnd. exact (NoDup_app_remove_r _ _ Hnd).
    + intros k Hk. apply In_firstn, Hin, filter_In in Hk as [Hk _].
      unfold keyword_tokens in Hk. apply filter_In in Hk as [Hk Hlen].
      apply Nat.ltb_lt in Hlen. split; [lia|]. split.
      * pose proof (split_nonword_all_word (toLowerCase content)) as Hall.
        rewrite List.Forall_forall in Hall. now apply Hall.
      * pose proof (split_class_no_upper (fun c => negb (is_word c)) _
                      (toLowerCase_no_upper content)) as Hall.
        rewrite List.Forall_forall in Hall. now apply Hall.
Qed.

End MoreScraper.

(** ** The further properties at the sample inputs *)

Lemma scrapePage_fields_trimmed_witness :
  trimmed (title (scrapePage Sample.engine Sample.page Sample.root))
  /\ trimmed (content (scrapePage Sample.engine Sample.page Sample.root)).
Proof.
  destruct (scrapePage_fields_trimmed Sample.engine Sample.page Sample.root
              Sample.page_doc eq_refl) as (Ht & Hc & _).
  split; [exact Ht | exact Hc].
Defined.

Lemma scrapePage_counts_witness :
  wordCount (scrapePage Sample.engine Sample.page Sample.root)
  = words_from true (content (scrapePage Sample.engine Sample.page Sample.root))
  /\ 2 * wordCount (scrapePage Sample.engine Sample.page Sample.root)
     <= characterCount (scrapePage Sample.engine Sample.page Sample.root) + 1.
Proof.
  destruct (scrapePage_counts Sample.engine Sample.page Sample.root
              Sample.page_doc eq_refl) as (_ & Hw & _ & Hb).
  split; [exact Hw | exact Hb].
Defined.

Lemma htmlToMarkdown_passes_witness :
  heading_block (Sample.elem "h2" None " Basic HTML ")
  = str_repeat "#" 2 ++ " " ++ trim " Basic HTML " ++ newline ++ newline.
Proof.
  destruct (htmlToMarkdown_passes Sample.page_doc) as [_ H].
  apply (H (Sample.elem "h2" None " Basic HTML ") 2).
  - simpl. tauto.
  - reflexivity.
Defined.

Lemma extractKeywords_without_proto_witness :
  exists ranked,
    extractKeywords Sample.engine "zebra __proto__ apple __proto__" = firstn 10 ranked
    /\ (forall w, In w ranked <->
                  In w (keyword_tokens "zebra __proto__ apple __proto__")
                  /\ w <> "__proto__").
Proof.
  destruct (extractKeywords_without_proto Sample.engine
              "zebra __proto__ apple __proto__")
    as [ranked (Heq & _ & Hin & _)].
  - simpl. intuition discriminate.
  - exists ranked. split; [exact Heq | exact Hin].
Defined.

Lemma extractKeywords_shape_witness :
  List.NoDup (extractKeywords Sample.engine "Learn HTML in 2024: zebra markup.").
Proof.
  destruct (extractKeywords_shape Sample.engine "Learn HTML in 2024: zebra markup.")
    as [_ H].
  apply H. simpl. intuition discriminate.
Defined.

(** ** Discovery, content records and job records *)

(** The rows of a content table have distinct ids and distinct URLs. *)
Definition one_record_per_url (rows : list Row.ContentRow) : Prop :=
  List.NoDup (map Row.id rows)
  /\ forall u, length (List.filter (fun r => String.eqb (Row.url r) u) rows) <= 1.

Lemma fresh_id_above (rows : list Row.ContentRow) (r : Row.ContentRow) :
  In r rows -> Row.id r < fresh_id rows.
Proof.
  intros Hin. unfold fresh_id.
  assert (H : Row.id r <= list_max (map Row.id rows)).
  { pose proof (list_max_le (map Row.id rows) (list_max (map Row.id rows))) as [Hle _].
    specialize (Hle (Nat.le_refl _)). rewrite List.Forall_forall in Hle.
    apply Hle. now apply in_map. }
  lia.
Qed.

Lemma update_filter_any (p : Row.ContentRow -> bool) (l : list Row.ContentRow)
    (ex new : Row.ContentRow) :
  (forall r, In r l -> Row.id r = Row.id ex -> r = ex) ->
  p ex = p new ->
  List.filter p (map (fun r => if Row.id r =? Row.id ex then new else r) l)
  = map (fun r => if Row.id r =? Row.id ex then new else r) (List.filter p l).
Proof.
  intros Hkey Hp. induction l as [|r l IH]; [reflexivity|].
  cbn [map List.filter].
  rewrite IH by (intros x Hx; apply Hkey; now right).
  destruct (Row.id r =? Row.id ex) eqn:E.
  - apply Nat.eqb_eq in E. rewrite (Hkey r (or_introl eq_refl) E), <- Hp.
    destruct (p ex); [|reflexivity]. cbn [map]. now rewrite Nat.eqb_refl.
  - destruct (p r); [cbn [map]; now rewrite E | reflexivity].
Qed.

(** Every candidate is the root or a lesson of the site. *)
Lemma candidates_on_site (certUrl : string) (doc : Document) (u : string) :
  In u (candidates certUrl doc) ->
  u = certUrl \/ startsWith (FCC_BASE ++ "/learn/") u = true.
Proof.
  unfold candidates. intros [<-|Hin]; [now left|].
  right. apply in_map_iff in Hin as [h [<- Hh]].
  unfold learn_hrefs in Hh. apply filter_In in Hh as [_ Hp].
  destruct (prefix_split _ _ Hp) as [rest ->].
  unfold startsWith. rewrite <- app_assoc_s. apply prefix_app.
Qed.

Section StoreProperties.

Variable engine_sort : list (string * JsObject.value) -> list (string * JsObject.value).
Variable listing_get : string -> Response.
Variable page_get : string -> Response.
Variable store : Table -> nat -> Outcome.
Variable clock : nat -> string.
Variable config : ScraperConfig.

Ltac without_environment :=
  try clear config; try clear clock; try clear store; try clear page_get;
  try clear listing_get; try clear engine_sort.

(** X6.  getCertificationPages never returns an off-site URL: every URL it
    returns is the root it was given or begins with
    [https://www.freecodecamp.org/learn/]. *)
Theorem getCertificationPages_on_site (certUrl u : string) (w : World) :
  In u (fst (getCertificationPages listing_get certUrl w)) ->
  u = certUrl \/ startsWith (FCC_BASE ++ "/learn/") u = true.
Proof.
  intros Hin.
  destruct (listing_get certUrl) as [e|doc] eqn:Hget.
  - unfold getCertificationPages in Hin. rewrite Hget in Hin.
    destruct Hin as [<-|[]]. now left.
  - rewrite (discovered_urls listing_get certUrl doc w Hget) in Hin.
    apply In_firstn, dedup_In in Hin as [Hin _].
    exact (candidates_on_site certUrl doc u Hin).
Qed.

(** saveContent without a usable source record: one console line. *)
Lemma saveContent_unregistered (res : ScrapeResult) (category : string) (w : World) :
  sourceId w = None ->
  store knowledge_sources (calls w) = Refused
  \/ (store knowledge_sources (calls w) = Done
      /\ id_or_null (single (List.filter (fun r => String.eqb (Row.src_url r) FCC_BASE)
                                         (sources w))) = None) ->
  saveContent store res category w
  = emit (ConsoleError "No source ID found for FreeCodeCamp" None)
         (set_sourceId None (tick w)).
Proof.
  intros Hs Hsrc. unfold_actions. cbn. rewrite Hs. cbn.
  destruct Hsrc as [Hr|[Hd Hnone]].
  - rewrite Hr. reflexivity.
  - rewrite Hd. cbn. rewrite Hnone. reflexivity.
Qed.

(** X7.  Without a usable source record (the source table answers an error,
    or does not hold exactly one FreeCodeCamp row with a non-empty id)
    saveContent reports [No source ID found for FreeCodeCamp] and returns:
    it does not query or write the content table, and it caches nothing, so
    the next call asks the source table again. *)
Theorem saveContent_no_source (res : ScrapeResult) (category : string) (w : World) :
  sourceId w = None ->
  store knowledge_sources (calls w) = Refused
  \/ (store knowledge_sources (calls w) = Done
      /\ id_or_null (single (List.filter (fun r => String.eqb (Row.src_url r) FCC_BASE)
                                         (sources w))) = None) ->
  saveContent store res category w
  = emit (ConsoleError "No source ID found for FreeCodeCamp" None)
         (set_sourceId None (tick w))
  /\ contents (saveContent store res category w) = contents w
  /\ sourceId (saveContent store res category w) = None
  /\ calls (saveContent store res category w) = S (calls w).
Proof.
  intros Hs Hsrc.
  rewrite (saveContent_unregistered res category w Hs Hsrc). repeat split.
Qed.

(** X8.  When the lookup of the stored record answers an error instead of
    data, saveContent takes the URL for new and inserts a row: the content
    table gains a second record for a URL it already holds, even one that
    carries the same fingerprint. *)
Theorem saveContent_lookup_error_inserts (res : ScrapeResult) (category sid : string)
    (w : World) :
  sourceId w = Some sid ->
  store knowledge_content (calls w) = Refused ->
  store knowledge_content (S (calls w)) = Done ->
  let row := contentData sid res (fresh_id (contents w)) in
  saveContent store res category w
  = emit (ContentInsert row) (set_contents (contents w ++ [row])%list (tick (tick w)))
  /\ length (List.filter (fun r => String.eqb (Row.url r) (url res))
                         (contents (saveContent store res category w)))
     = S (length (List.filter (fun r => String.eqb (Row.url r) (url res)) (contents w))).
Proof.
  intros Hs Hsel Hins row.
  assert (H : saveContent store res category w
              = emit (ContentInsert row)
                     (set_contents (contents w ++ [row])%list (tick (tick w)))).
  { unfold_actions. cbn. rewrite Hs. cbn. rewrite Hs. cbn. rewrite Hsel. cbn.
    rewrite Hins. reflexivity. }
  split; [exact H|]. rewrite H. cbn [contents emit set_contents].
  rewrite List.filter_app, length_app. cbn.
  rewrite String.eqb_refl. cbn. lia.
Qed.

(** What saveContent can do to the content table, whatever the database
    answers: nothing, one insert of the result, or one update of the stored
    record of the URL. *)
Lemma saveContent_cases (res : ScrapeResult) (category : string) (w : World) :
  let w' := saveContent store res category w in
  sources w' = sources w
  /\ ((contents w' = contents w
       /\ content_writes (trace w') = content_writes (trace w))
      \/ (exists sid,
            contents w' = (contents w ++ [contentData sid res (fresh_id (contents w))])%list
            /\ content_writes (trace w') = S (content_writes (trace w)))
      \/ (exists sid ex,
            stored (url res) w = Some ex
            /\ contents w'
               = map (fun x => if Row.id x =? Row.id ex
                               then contentData sid res (Row.id ex) else x) (contents w)
            /\ content_writes (trace w') = S (content_writes (trace w)))).
Proof.
  unfold stored. unfold_actions.
  destruct (sourceId w) eqn:Hs; cbn; rewrite ?Hs; cbn;
    repeat (case_match; cbn; rewrite ?content_writes_app; cbn);
    simplify_eq; cbn; rewrite ?content_writes_app; cbn;
    (split; [reflexivity|]);
    first [ left; split; [reflexivity | lia]
          | right; left; eexists; split; [reflexivity | lia]
          | right; right; eexists _, _; split; [eassumption|]; split; [reflexivity | lia] ].
Qed.

(** X9.  Whatever the database answers, one call of saveContent writes at
    most one row, never touches the source table, and (rows having
    distinct ids) leaves every record of another URL in place. *)
Theorem saveContent_frame (res : ScrapeResult) (category : string) (w : World) :
  let w' := saveContent store res category w in
  content_writes (trace w') <= S (content_writes (trace w))
  /\ length (contents w') <= S (length (contents w))
  /\ sources w' = sources w
  /\ (List.NoDup (map Row.id (contents w)) ->
      forall row, In row (contents w) -> Row.url row <> url res ->
                  In row (contents w')).
Proof. without_environment.
  intros w'. destruct (saveContent_cases res category w) as [Hsrc Hcases].
  fold w' in Hsrc, Hcases.
  destruct Hcases as [[Hc Hw]|[(sid & Hc & Hw)|(sid & ex & Hex & Hc & Hw)]];
    rewrite Hc, Hw; (split; [lia|]); (split; [|split; [exact Hsrc|]]).
  - lia.
  - tauto.
  - rewrite length_app. simpl. lia.
  - intros _ row Hin _. apply in_app_iff. now left.
  - rewrite length_map. lia.
  - intros Hnd row Hin Hurl. apply in_map_iff. exists row. split; [|exact Hin].
    destruct (Row.id row =? Row.id ex) eqn:E; [|reflexivity].
    apply Nat.eqb_eq in E. exfalso. apply Hurl.
    unfold stored in Hex.
    assert (Hin' : In ex (List.filter (fun r => String.eqb (Row.url r) (url res))
                                      (contents w))).
    { destruct (List.filter _ (contents w)) as [|x [|y t]]; try discriminate.
      injection Hex as ->. now left. }
    apply filter_In in Hin' as [Hin' Heq]. apply String.eqb_eq in Heq.
    rewrite (NoDup_map_eq Row.id _ row ex Hnd Hin Hin' E). exact Heq.
Qed.

(** What saveContent does when every database call is carried out, whether
    or not the source is registered. *)
Lemma saveContent_reliable_any (res : ScrapeResult) (category : string) (w : World) :
  (forall t n, store t n = Done) ->
  (resolved_source w = None /\ contents (saveContent store res category w) = contents w)
  \/ (exists sid, resolved_source w = Some sid).
Proof.
  intros Hstore. destruct (resolved_source w) as [sid|] eqn:Hr; [right; eauto|].
  left. split; [reflexivity|]. unfold resolved_source in Hr.
  destruct (sourceId w) eqn:Hs; [discriminate|].
  rewrite (saveContent_unregistered res category w Hs); [reflexivity|].
  right. split; [apply Hstore | exact Hr].
Qed.

(** saveContent keeps a well-formed content table well formed. *)
Lemma saveContent_well_formed (res : ScrapeResult) (category : string) (w : World) :
  (forall t n, store t n = Done) ->
  one_record_per_url (contents w) ->
  one_record_per_url (contents (saveContent store res category w)).
Proof. without_environment.
  intros Hstore [Hnd Hone].
  destruct (saveContent_reliable_any res category w Hstore) as [[_ Hc]|[sid Hsid]].
  { rewrite Hc. now split. }
  pose proof (saveContent_reliable store res category sid w Hstore Hsid) as H.
  cbv zeta in H. rewrite H. clear H.
  destruct (same_hash _ _).
  { destruct (sourceId w); now split. }
  unfold stored.
  destruct (single_filter_cases (fun r => String.eqb (Row.url r) (url res))
              (contents w) (Hone (url res))) as [[Hnone Hnil]|[ex [Hsome Hex]]].
  - rewrite Hnone.
    assert (Hgoal : one_record_per_url
                      (contents w ++ [contentData sid res (fresh_id (contents w))])%list).
    { split.
      - rewrite map_app. apply List.NoDup_app; [exact Hnd | repeat constructor; simpl; tauto|].
        intros i Hi [<-|[]]. apply in_map_iff in Hi as [r [Hid Hr]].
        pose proof (fresh_id_above (contents w) r Hr) as Hlt. cbn in Hid. lia.
      - intros u. rewrite List.filter_app, length_app. cbn.
        destruct (String.eqb (url res) u) eqn:E; cbn; [|specialize (Hone u); lia].
        apply String.eqb_eq in E. subst u. rewrite Hnil. simpl. lia. }
    destruct (sourceId w); exact Hgoal.
  - rewrite Hsome.
    assert (Hin : In ex (contents w)).
    { assert (Hi : In ex (List.filter (fun r => String.eqb (Row.url r) (url res))
                                      (contents w))) by (rewrite Hex; now left).
      now apply filter_In in Hi. }
    assert (Hurl : Row.url ex = url res).
    { assert (Hi : In ex (List.filter (fun r => String.eqb (Row.url r) (url res))
                                      (contents w))) by (rewrite Hex; now left).
      apply filter_In in Hi as [_ Hi]. now apply String.eqb_eq in Hi. }
    assert (Hkey : forall x, In x (contents w) -> Row.id x = Row.id ex -> x = ex)
      by (intros x Hx Hid; exact (NoDup_map_eq Row.id _ x ex Hnd Hx Hin Hid)).
    assert (Hgoal : one_record_per_url
                      (map (fun x => if Row.id x =? Row.id ex
                                     then contentData sid res (Row.id ex) else x)
                           (contents w))).
    { split.
      - rewrite map_map.
        replace (map _ (contents w)) with (map Row.id (contents w)); [exact Hnd|].
        apply map_ext. intros x. destruct (Row.id x =? Row.id ex) eqn:E; [|reflexivity].
        apply Nat.eqb_eq in E. cbn. now symmetry.
      - intros u.
        rewrite (update_filter_any (fun r => String.eqb (Row.url r) u) _ ex _ Hkey).
        + rewrite length_map. apply Hone.
        + cbn. now rewrite Hurl.
    }
    destruct (sourceId w); exact Hgoal.
Qed.

(** X10.  With a database that carries out its calls, saveContent keeps the
    content table well formed: if its rows had distinct ids and distinct
    URLs before the call, they have after it. *)
Theorem saveContent_keeps_one_record_per_url (res : ScrapeResult) (category : string)
    (w : World) :
  (forall t n, store t n = Done) ->
  one_record_per_url (contents w) ->
  one_record_per_url (contents (saveContent store res category w)).
Proof. exact (saveContent_well_formed res category w). Qed.



(** X12.  updateJob patches one job record and nothing else.  When the
    database carries the update out and the job exists, every field named in
    the update takes the new value and every other field keeps its value;
    a job that does not exist is not created; other jobs and the content
    and source tables are untouched.  When the database answers an error or
    throws, the job records are unchanged, and a throw is reported on the
    console and swallowed. *)
Theorem updateJob_semantics (jobId : string) (u : gmap string JsVal) (w : World) :
  let w' := updateJob store jobId u w in
  contents w' = contents w
  /\ sources w' = sources w
  /\ (forall j, j <> jobId -> jobs w' !! j = jobs w !! j)
  /\ (jobs w !! jobId = None -> jobs w' !! jobId = None)
  /\ (forall row, jobs w !! jobId = Some row ->
        store scraping_jobs (calls w) = Done ->
        exists row', jobs w' !! jobId = Some row'
                     /\ forall k, row' !! k = match u !! k with
                                              | Some v => Some v
                                              | None => row !! k
                                              end)
  /\ (store scraping_jobs (calls w) <> Done -> jobs w' = jobs w)
  /\ (forall e, store scraping_jobs (calls w) = Failed e ->
        trace w' = (trace w ++ [ConsoleError "Error updating job:" (Some e)])%list).
Proof.
  without_environment.
  intros w'. unfold w'. unfold_actions.
  destruct (store scraping_jobs (calls w)) as [| |e] eqn:Hst; cbn.
  - split; [reflexivity|]. split; [reflexivity|]. split.
    { intros j Hj. apply lookup_alter_ne. congruence. }
    split. { intros Hnone. rewrite lookup_alter_eq, Hnone. reflexivity. }
    split.
    { intros row Hrow _. exists (u ∪ row). split.
      - rewrite lookup_alter_eq, Hrow. reflexivity.
      - intros k. rewrite lookup_union.
        destruct (u !! k), (row !! k); reflexivity. }
    split; [congruence | discriminate].
  - split; [reflexivity|]. split; [reflexivity|]. split; [reflexivity|].
    split; [tauto|]. split; [discriminate|]. split; [reflexivity | discriminate].
  - split; [reflexivity|]. split; [reflexivity|]. split; [reflexivity|].
    split; [tauto|]. split; [discriminate|]. split; [reflexivity|].
    intros e' [= <-]. reflexivity.
Qed.

End StoreProperties.

(** ** Discovery and storage at the sample inputs *)

(** A database in which FreeCodeCamp is not registered as a source. *)
Definition unregistered_world : World :=
  {| sourceId := None; sources := []; contents := [];
     jobs := {[ "job-1" := (∅ : gmap string JsVal) ]}; calls := 0; trace := [] |}.

(** The first call to the content table answers an error. *)
Definition lookup_refused (t : Table) (n : nat) : Outcome :=
  match t, n with
  | knowledge_content, 0 => Refused
  | _, _ => Done
  end.

(** A lesson of another URL, and a database that already stores it. *)
Definition other_article : ScrapeResult :=
  {| success := true; url := "https://www.freecodecamp.org/learn/a"; title := "Intro";
     content := "Welcome"; markdown := None; codeSnippets := []; wordCount := 1;
     characterCount := 7; keywords := []; topics := ["a"]; error := None |}.

Definition stocked_world : World :=
  set_contents [contentData "source-1" other_article 1] Sample.cached_world.

Lemma getCertificationPages_on_site_witness :
  "https://www.freecodecamp.org/learn/b" = Sample.root
  \/ startsWith (FCC_BASE ++ "/learn/") "https://www.freecodecamp.org/learn/b" = true.
Proof.
  apply (getCertificationPages_on_site Sample.listing Sample.root
           "https://www.freecodecamp.org/learn/b" Sample.world).
  vm_compute. tauto.
Defined.

Lemma saveContent_no_source_witness :
  contents (saveContent Sample.reliable (Sample.article "Basic HTML")
              "responsive-web-design" unregistered_world) = [].
Proof.
  destruct (saveContent_no_source Sample.reliable (Sample.article "Basic HTML")
              "responsive-web-design" unregistered_world eq_refl
              (or_intror (conj eq_refl eq_refl))) as (_ & H & _).
  exact H.
Defined.

Lemma saveContent_lookup_error_inserts_witness :
  length (List.filter (fun r => String.eqb (Row.url r) (url other_article))
            (contents (saveContent lookup_refused other_article "responsive-web-design"
                         stocked_world))) = 2.
Proof.
  destruct (saveContent_lookup_error_inserts lookup_refused other_article
              "responsive-web-design" "source-1" stocked_world
              eq_refl eq_refl eq_refl) as [_ H].
  exact H.
Defined.

Lemma saveContent_frame_witness :
  In (contentData "source-1" other_article 1)
     (contents (saveContent Sample.reliable (Sample.article "Basic HTML")
                  "responsive-web-design" stocked_world)).
Proof.
  destruct (saveContent_frame Sample.reliable (Sample.article "Basic HTML")
              "responsive-web-design" stocked_world) as (_ & _ & _ & H).
  apply H.
  - repeat constructor. simpl. tauto.
  - now left.
  - discriminate.
Defined.

Lemma saveContent_keeps_one_record_per_url_witness :
  one_record_per_url
    (contents (saveContent Sample.reliable (Sample.article "Basic HTML")
                 "responsive-web-design" Sample.world)).
Proof.
  apply (saveContent_keeps_one_record_per_url Sample.reliable).
  - reflexivity.
  - split; [constructor | intros u; simpl; lia].
Defined.


Lemma updateJob_semantics_witness :
  exists row,
    jobs (updateJob Sample.reliable "job-1" (running_updates 3 "2024-01-01T03:00:00.000Z")
            Sample.world) !! "job-1" = Some row
    /\ row !! "status" = Some (VString "running").
Proof.
  destruct (updateJob_semantics Sample.reliable "job-1"
              (running_updates 3 "2024-01-01T03:00:00.000Z") Sample.world)
    as (_ & _ & _ & _ & H & _).
  destruct (H ∅ eq_refl eq_refl) as [row [Hrow Hk]].
  exists row. split; [exact Hrow|]. rewrite Hk. reflexivity.
Defined.

(** ** Whole runs *)

Arguments Sha256.sha256_hex : simpl never.
Arguments contentHash : simpl never.

(** The columns of a job record that scrapeCertification writes. *)
Definition job_fields : list string :=
  ["total_urls"; "status"; "started_at"; "urls_processed"; "urls_failed";
   "progress_percentage"; "items_scraped"; "completed_at"].

Lemma patch_lookup (u row : gmap string JsVal) (k : string) :
  (u ∪ row) !! k = match u !! k with
                   | Some v => Some v
                   | None => row !! k
                   end.
Proof. rewrite lookup_union. destruct (u !! k), (row !! k); reflexivity. Qed.

Lemma running_updates_other (total : nat) (now k : string) :
  ~ In k job_fields -> running_updates total now !! k = None.
Proof.
  intros Hk. unfold running_updates.
  rewrite !lookup_insert_ne by (intros <-; apply Hk; simpl; tauto).
  apply lookup_empty.
Qed.

Lemma progress_updates_other (p f s n : nat) (k : string) :
  k <> "urls_processed" -> k <> "urls_failed" -> k <> "progress_percentage" ->
  k <> "items_scraped" ->
  progress_updates p f s n !! k = None.
Proof.
  intros H1 H2 H3 H4. unfold progress_updates.
  rewrite !lookup_insert_ne by congruence. apply lookup_empty.
Qed.

Lemma progress_updates_scraped (p f s n : nat) :
  progress_updates p f s n !! "items_scraped" = Some (VInt s).
Proof.
  unfold progress_updates.
  rewrite !lookup_insert_ne by discriminate. now rewrite lookup_insert_eq.
Qed.

Lemma completed_updates_other (now k : string) :
  k <> "status" -> k <> "completed_at" -> completed_updates now !! k = None.
Proof.
  intros H1 H2. unfold completed_updates.
  rewrite !lookup_insert_ne by congruence. apply lookup_empty.
Qed.

Lemma completed_updates_status (now : string) :
  completed_updates now !! "status" = Some (VString "completed").
Proof. unfold completed_updates. now rewrite lookup_insert_eq. Qed.

Lemma completed_updates_at (now : string) :
  completed_updates now !! "completed_at" = Some (VString now).
Proof.
  unfold completed_updates.
  rewrite lookup_insert_ne by discriminate. now rewrite lookup_insert_eq.
Qed.

Section RunProperties.

Variable engine_sort : list (string * JsObject.value) -> list (string * JsObject.value).
Variable listing_get : string -> Response.
Variable page_get : string -> Response.
Variable store : Table -> nat -> Outcome.
Variable clock : nat -> string.
Variable config : ScraperConfig.

Ltac without_environment :=
  try clear config; try clear clock; try clear store; try clear page_get;
  try clear listing_get; try clear engine_sort.

(** A property kept by every item and every pause holds at the end of the
    run, which the batch loop reaches. *)
Lemma run_ends (Inv : nat -> Run -> Prop) (fuel : nat) (cert : Cert.FCCCertification)
    (jobId : string) (onProgress : bool) (w : World) :
  0 < concurrency config -> 50 <= fuel ->
  let urls := fst (before_batches listing_get store clock cert jobId w) in
  let start := snd (before_batches listing_get store clock cert jobId w) in
  (forall k r,
     k < length urls -> successCount r + failedCount r = k -> Inv k r ->
     Inv (S k) (record_result store cert jobId onProgress (length urls) r
                  (scrapePage engine_sort page_get (nth k urls EmptyString)))) ->
  (forall k r, Inv k r -> Inv k (delayed config r)) ->
  Inv 0 {| successCount := 0; failedCount := 0; world := start |} ->
  exists r,
    Inv (length urls) r
    /\ successCount r = successes (map (scrapePage engine_sort page_get) urls)
    /\ failedCount r = failures (map (scrapePage engine_sort page_get) urls)
    /\ 1 <= length urls <= 50
    /\ scrapeCertification engine_sort listing_get page_get store clock config
         fuel cert jobId onProgress w
       = Some ({| Summary.success := successCount r; Summary.failed := failedCount r;
                  Summary.total := length urls |},
               updateJob store jobId (completed_updates (clock (calls (world r))))
                 (world r)).
Proof.
  intros Hc Hfuel urls start Hitem Hdelay Hstart.
  assert (Hlen : 1 <= length urls <= 50).
  { unfold urls. rewrite before_batches_urls.
    destruct (discovered_shape listing_get (Cert.url cert) w) as [Hle Hhd].
    destruct (fst (getCertificationPages listing_get (Cert.url cert) w));
      [discriminate | simpl in *; lia]. }
  set (results := map (scrapePage engine_sort page_get) urls).
  pose (Both := fun k r =>
    Inv k r /\ successCount r = successes (firstn k results)
    /\ failedCount r = failures (firstn k results) /\ k <= length urls).
  assert (Hsum : forall k, k <= length urls ->
                   successes (firstn k results) + failures (firstn k results) = k).
  { intros k Hk. rewrite successes_failures, length_firstn. unfold results.
    rewrite length_map. lia. }
  destruct (batches_invariant engine_sort page_get store config cert jobId onProgress
              urls Both) with (fuel := fuel) (i := 0)
              (r := {| successCount := 0; failedCount := 0; world := start |})
    as [r [Hr (HI & Hs & Hf & _)]].
  - intros k r Hk (HI & Hs & Hf & _).
    set (res := scrapePage engine_sort page_get (nth k urls EmptyString)).
    assert (Hfirst : firstn (S k) results = (firstn k results ++ [res])%list).
    { rewrite (firstn_S_nth (scrapePage engine_sort page_get EmptyString))
        by (unfold results; now rewrite length_map).
      unfold results. now rewrite map_nth. }
    destruct (record_result_counts store cert jobId onProgress (length urls) r res)
      as [Hs' Hf'].
    split; [|split; [|split]].
    + apply Hitem; [exact Hk | | exact HI]. rewrite Hs, Hf. apply Hsum. lia.
    + rewrite Hs', Hs, Hfirst, successes_snoc. reflexivity.
    + rewrite Hf', Hf, Hfirst, failures_snoc. reflexivity.
    + lia.
  - intros k r (HI & Hs & Hf & Hk). split; [now apply Hdelay|].
    split; [exact Hs|]. split; [exact Hf | exact Hk].
  - exact Hc.
  - lia.
  - split; [exact Hstart|]. split; [reflexivity|]. split; [reflexivity | cbn; lia].
  - assert (Hall : firstn (length urls) results = results)
      by (apply firstn_all2; unfold results; now rewrite length_map).
    rewrite Hall in Hs, Hf.
    exists r. split; [exact HI|]. split; [exact Hs|]. split; [exact Hf|].
    split; [exact Hlen|].
    rewrite scrapeCertification_unfold. unfold urls, start in Hr.
    destruct (before_batches listing_get store clock cert jobId w) as [urls' start'].
    cbn [fst snd] in *. now rewrite Hr.
Qed.

Definition is_console (e : Event) : bool :=
  match e with
  | ConsoleLog _ | ConsoleError _ _ => true
  | _ => false
  end.

(** The run up to the update that marks the job as running: the discovered
    URLs, and a world that differs from the first one by console lines. *)
Lemma before_batches_start (cert : Cert.FCCCertification) (jobId : string) (w : World) :
  let urls := fst (getCertificationPages listing_get (Cert.url cert) w) in
  exists w1 logs,
    before_batches listing_get store clock cert jobId w
    = (urls, updateJob store jobId (running_updates (length urls) (clock (calls w))) w1)
    /\ w1 = {| sourceId := sourceId w; sources := sources w; contents := contents w;
               jobs := jobs w; calls := calls w; trace := (trace w ++ logs)%list |}
    /\ forallb is_console logs = true.
Proof.
  without_environment. intros urls. unfold before_batches, urls, getCertificationPages.
  destruct (listing_get (Cert.url cert)) as [e|doc]; cbn [fst snd].
  - eexists _, [_; _; _]. split; [reflexivity|]. split.
    + unfold emit. cbn. rewrite <- !app_assoc. reflexivity.
    + reflexivity.
  - eexists _, [_; _]. split; [reflexivity|]. split.
    + unfold emit. cbn. rewrite <- !app_assoc. reflexivity.
    + reflexivity.
Qed.

(** What one item does to the job records when the job updates are carried
    out. *)
Lemma record_result_jobs (cert : Cert.FCCCertification) (jobId : string)
    (onProgress : bool) (total : nat) (r : Run) (res : ScrapeResult) :
  (forall n, store scraping_jobs n = Done) ->
  let r' := record_result store cert jobId onProgress total r res in
  jobs (world r')
  = alter (fun row => progress_updates (successCount r' + failedCount r')
                        (failedCount r') (successCount r') total ∪ row)
          jobId (jobs (world r)).
Proof.
  without_environment. intros Hstore. unfold record_result.
  destruct (success res); cbn [successCount failedCount world];
    rewrite (updateJob_done store _ _ _ (Hstore _));
    destruct onProgress; cbn [jobs emit set_jobs tick];
    try rewrite (proj1 (saveContent_jobs store res (Cert.slug cert) jobId (world r)));
    reflexivity.
Qed.

(** The job record at the end of a run. *)
Lemma run_job_record (fuel : nat) (cert : Cert.FCCCertification)
    (jobId : string) (onProgress : bool) (w : World) (row0 : gmap string JsVal) :
  0 < concurrency config -> 50 <= fuel ->
  (forall n, store scraping_jobs n = Done) ->
  jobs w !! jobId = Some row0 ->
  exists s w' row,
    scrapeCertification engine_sort listing_get page_get store clock config
      fuel cert jobId onProgress w = Some (s, w')
    /\ jobs w' !! jobId = Some row
    /\ row !! "status" = Some (VString "completed")
    /\ row !! "total_urls" = Some (VInt (Summary.total s))
    /\ row !! "urls_processed" = Some (VInt (Summary.total s))
    /\ row !! "urls_failed" = Some (VInt (Summary.failed s))
    /\ row !! "items_scraped" = Some (VInt (Summary.success s))
    /\ row !! "progress_percentage" = Some (VNumber (Number.of_nat 100))
    /\ row !! "started_at" = Some (VString (clock (calls w)))
    /\ (exists now, row !! "completed_at" = Some (VString now))
    /\ (forall k, ~ In k job_fields -> row !! k = row0 !! k)
    /\ (forall j, j <> jobId -> jobs w' !! j = jobs w !! j).
Proof.
  intros Hc Hfuel Hstore Hrow0.
  pose proof (before_batches_urls listing_get store clock cert jobId w) as Hurls.
  destruct (before_batches_start cert jobId w) as (w1 & logs & Hbb & Hw1 & _).
  set (n := length (fst (before_batches listing_get store clock cert jobId w))).
  pose (Inv := fun (k : nat) (r : Run) =>
    (forall j, j <> jobId -> jobs (world r) !! j = jobs w !! j)
    /\ exists row,
         jobs (world r) !! jobId = Some row
         /\ row !! "total_urls" = Some (VInt n)
         /\ row !! "started_at" = Some (VString (clock (calls w)))
         /\ (1 <= k ->
             row !! "urls_processed" = Some (VInt k)
             /\ row !! "urls_failed" = Some (VInt (failedCount r))
             /\ row !! "items_scraped" = Some (VInt (successCount r))
             /\ row !! "progress_percentage" = Some (VNumber (percentage k n)))
         /\ (forall key, ~ In key job_fields -> row !! key = row0 !! key)).
  destruct (run_ends Inv fuel cert jobId onProgress w Hc Hfuel)
    as (r & (Hothers & row & Hrow & Htotal & Hstarted & Hitems & Hframe)
          & Hs & Hf & Hlen & Hrun).
  - intros k r Hk Hsum (Hothers & row & Hrow & Htotal & Hstarted & _ & Hframe).
    fold n.
    pose proof (record_result_jobs cert jobId onProgress n r
                  (scrapePage engine_sort page_get
                     (nth k (fst (before_batches listing_get store clock cert jobId w))
                        EmptyString)) Hstore) as Hj.
    destruct (record_result_counts store cert jobId onProgress n r
                (scrapePage engine_sort page_get
                   (nth k (fst (before_batches listing_get store clock cert jobId w))
                      EmptyString))) as [Hs' Hf'].
    cbv zeta in Hj.
    set (r' := record_result _ _ _ _ _ _ _) in *.
    assert (Hsum' : successCount r' + failedCount r' = S k).
    { rewrite Hs', Hf'. destruct (success _); lia. }
    rewrite Hsum' in Hj. split.
    + intros j Hne. rewrite Hj, lookup_alter_ne by congruence. apply Hothers, Hne.
    + eexists. split; [rewrite Hj, lookup_alter_eq, Hrow; reflexivity|].
      rewrite !patch_lookup.
      rewrite progress_updates_processed, progress_updates_failed,
        progress_updates_scraped, progress_updates_percentage.
      rewrite !progress_updates_other by discriminate.
      split; [exact Htotal|]. split; [exact Hstarted|].
      split; [intros _; repeat split|].
      intros key Hkey. rewrite patch_lookup, progress_updates_other.
      * apply Hframe, Hkey.
      * intros ->. apply Hkey. simpl. tauto.
      * intros ->. apply Hkey. simpl. tauto.
      * intros ->. apply Hkey. simpl. tauto.
      * intros ->. apply Hkey. simpl. tauto.
  - intros k r HI. exact HI.
  - unfold Inv. cbn [world]. rewrite Hbb. cbn [snd].
    rewrite (updateJob_done store _ _ _ (Hstore _)).
    cbn [jobs emit set_jobs tick]. rewrite Hw1. cbn [jobs]. split.
    + intros j Hne. rewrite lookup_alter_ne by congruence. reflexivity.
    + eexists. split; [rewrite lookup_alter_eq, Hrow0; reflexivity|].
      rewrite !patch_lookup. unfold n. rewrite Hbb. cbn [fst].
      split; [reflexivity|]. split; [reflexivity|]. split; [lia|].
      intros key Hkey. rewrite patch_lookup, running_updates_other by exact Hkey.
      reflexivity.
  - fold n in Hlen, Hrun, Hs, Hf.
    destruct (percentage_facts n Hlen) as (H100 & _ & _).
    destruct (Hitems ltac:(lia)) as (Hp & Hfl & Hsc & Hpc).
    eexists _, _, _. split; [exact Hrun|].
    rewrite (updateJob_done store _ _ _ (Hstore _)).
    cbn [jobs emit set_jobs tick Summary.total Summary.failed Summary.success].
    split; [rewrite lookup_alter_eq, Hrow; reflexivity|].
    rewrite !patch_lookup.
    rewrite completed_updates_status, completed_updates_at.
    rewrite !completed_updates_other by discriminate.
    split; [reflexivity|]. split; [exact Htotal|]. split; [exact Hp|].
    split; [exact Hfl|]. split; [exact Hsc|]. split; [rewrite <- H100; exact Hpc|].
    split; [exact Hstarted|]. split; [eexists; reflexivity|]. split.
    + intros key Hkey. rewrite patch_lookup, completed_updates_other.
      * apply Hframe, Hkey.
      * intros ->. apply Hkey. simpl. tauto.
      * intros ->. apply Hkey. simpl. tauto.
    + intros j Hne. rewrite lookup_alter_ne by congruence. apply Hothers, Hne.
Qed.

(** X13.  The job record at the end of a run, when the job updates are
    carried out: status [completed], total_urls and urls_processed both the
    number of discovered URLs, urls_failed and items_scraped the two
    counters of the summary, progress_percentage exactly 100, started_at the
    time of the first update; every other column keeps the value it had, and
    no other job is touched.  A run whose pages all failed is marked
    completed like any other. *)
Theorem scrapeCertification_job_record (fuel : nat) (cert : Cert.FCCCertification)
    (jobId : string) (onProgress : bool) (w : World) (row0 : gmap string JsVal) :
  0 < concurrency config -> 50 <= fuel ->
  (forall n, store scraping_jobs n = Done) ->
  jobs w !! jobId = Some row0 ->
  exists s w' row,
    scrapeCertification engine_sort listing_get page_get store clock config
      fuel cert jobId onProgress w = Some (s, w')
    /\ jobs w' !! jobId = Some row
    /\ row !! "status" = Some (VString "completed")
    /\ row !! "total_urls" = Some (VInt (Summary.total s))
    /\ row !! "urls_processed" = Some (VInt (Summary.total s))
    /\ row !! "urls_failed" = Some (VInt (Summary.failed s))
    /\ row !! "items_scraped" = Some (VInt (Summary.success s))
    /\ row !! "progress_percentage" = Some (VNumber (Number.of_nat 100))
    /\ row !! "started_at" = Some (VString (clock (calls w)))
    /\ (exists now, row !! "completed_at" = Some (VString now))
    /\ (forall k, ~ In k job_fields -> row !! k = row0 !! k)
    /\ (forall j, j <> jobId -> jobs w' !! j = jobs w !! j).
Proof. exact (run_job_record fuel cert jobId onProgress w row0). Qed.

(** *** What a run adds to the trace *)

(** What saveContent may add to the trace for a result. *)
Definition save_event (res : ScrapeResult) (e : Event) : Prop :=
  match e with
  | ConsoleError _ _ => True
  | ContentInsert row | ContentUpdate row => exists sid i, row = contentData sid res i
  | _ => False
  end.

Definition job_event (jobId : string) (u : gmap string JsVal) (e : Event) : Prop :=
  match e with
  | ConsoleError _ _ => True
  | JobUpdate j u' => j = jobId /\ u' = u
  | _ => False
  end.

Lemma saveContent_trace (res : ScrapeResult) (category : string) (w : World) :
  exists evs,
    trace (saveContent store res category w) = (trace w ++ evs)%list
    /\ length evs <= 1
    /\ List.Forall (save_event res) evs.
Proof.
  without_environment. unfold_actions.
  destruct (sourceId w) eqn:Hs; cbn; rewrite ?Hs; cbn;
    repeat (case_match; cbn); simplify_eq; cbn;
    first [ exists []; split; [symmetry; apply app_nil_r|];
            split; [simpl; lia | constructor]
          | eexists [_]; split; [reflexivity|];
            split; [simpl; lia | repeat constructor; simpl; eauto] ].
Qed.

Lemma updateJob_trace (jobId : string) (u : gmap string JsVal) (w : World) :
  exists evs,
    trace (updateJob store jobId u w) = (trace w ++ evs)%list
    /\ length evs <= 1
    /\ List.Forall (job_event jobId u) evs.
Proof.
  without_environment. unfold_actions.
  destruct (store scraping_jobs (calls w)); cbn;
    first [ exists []; split; [symmetry; apply app_nil_r|];
            split; [simpl; lia | constructor]
          | eexists [_]; split; [reflexivity|];
            split; [simpl; lia | repeat constructor; simpl; eauto] ].
Qed.

(** The trace of one item: what saveContent adds for a scraped page, what
    updateJob adds, then the call of the progress callback. *)
Lemma record_result_trace (cert : Cert.FCCCertification) (jobId : string)
    (onProgress : bool) (total : nat) (r : Run) (res : ScrapeResult) :
  let r' := record_result store cert jobId onProgress total r res in
  exists saved updated,
    trace (world r')
    = (trace (world r) ++ saved ++ updated
       ++ (if onProgress
           then [OnProgress (successCount r' + failedCount r') total] else []))%list
    /\ length saved <= (if success res then 1 else 0)
    /\ List.Forall (save_event res) saved
    /\ List.Forall (fun e => exists u, job_event jobId u e) updated.
Proof.
  without_environment. intros r'. unfold r', record_result.
  set (r1 := if success res then _ else _).
  assert (H1 : exists saved,
             trace (world r1) = (trace (world r) ++ saved)%list
             /\ length saved <= (if success res then 1 else 0)
             /\ List.Forall (save_event res) saved).
  { unfold r1. destruct (success res); cbn [world].
    - apply saveContent_trace.
    - exists []. split; [symmetry; apply app_nil_r|]. split; [simpl; lia | constructor]. }
  destruct H1 as (saved & Ht1 & Hlen & Hsaved).
  destruct (updateJob_trace jobId
              (progress_updates (successCount r1 + failedCount r1) (failedCount r1)
                 (successCount r1) total) (world r1)) as (updated & Ht2 & _ & Hupd).
  exists saved, updated. cbn [world successCount failedCount].
  split; [|split; [exact Hlen | split; [exact Hsaved|]]].
  - destruct onProgress; cbn [trace emit]; rewrite Ht2, Ht1, <- ?app_assoc;
      [reflexivity | now rewrite app_nil_r].
  - eapply List.Forall_impl; [|exact Hupd]. intros e He. eauto.
Qed.

(** Projections of the trace: pauses, calls of the progress callback, rows
    written to the content table. *)
Definition delays (t : list Event) : list N :=
  omap (fun e => match e with Delay ms => Some ms | _ => None end) t.

Definition progress_calls (t : list Event) : list (nat * nat) :=
  omap (fun e => match e with OnProgress p n => Some (p, n) | _ => None end) t.

Definition written (t : list Event) : list Row.ContentRow :=
  omap (fun e => match e with
                 | ContentInsert row | ContentUpdate row => Some row
                 | _ => None
                 end) t.

Lemma omap_nothing {A} (f : Event -> option A) (l : list Event) :
  List.Forall (fun e => f e = None) l -> omap f l = [].
Proof.
  induction 1 as [|e l He _ IH]; [reflexivity|]. cbn. now rewrite He.
Qed.

Lemma record_result_delays (cert : Cert.FCCCertification) (jobId : string)
    (onProgress : bool) (total : nat) (r : Run) (res : ScrapeResult) :
  delays (trace (world (record_result store cert jobId onProgress total r res)))
  = delays (trace (world r)).
Proof.
  without_environment.
  destruct (record_result_trace cert jobId onProgress total r res)
    as (saved & updated & Ht & _ & Hsaved & Hupd).
  rewrite Ht. unfold delays. rewrite !omap_app.
  rewrite (omap_nothing _ saved), (omap_nothing _ updated).
  - destruct onProgress; cbn; now rewrite app_nil_r.
  - eapply List.Forall_impl; [|exact Hupd]. intros [] [u Hu]; cbn in *; tauto.
  - eapply List.Forall_impl; [|exact Hsaved]. intros [] Hs; cbn in *; tauto.
Qed.

Lemma batch_delays (cert : Cert.FCCCertification) (jobId : string)
    (onProgress : bool) (total : nat) (results : list ScrapeResult) (r : Run) :
  delays (trace (world (fold_left (record_result store cert jobId onProgress total)
                          results r)))
  = delays (trace (world r)).
Proof.
  without_environment. revert r. induction results as [|res results IH]; intros r.
  - reflexivity.
  - cbn [fold_left]. rewrite IH. apply record_result_delays.
Qed.

(** Pauses still to come when the loop stands at index [i] of [n] URLs. *)
Definition pauses (c n i : nat) : nat :=
  if i <? n then (n - 1 - i) / c else 0.

Lemma batches_delays (cert : Cert.FCCCertification) (jobId : string)
    (onProgress : bool) (urls : list string) (fuel i : nat) (r : Run) :
  0 < concurrency config ->
  length urls - i <= fuel ->
  exists r',
    batches engine_sort page_get store config fuel cert jobId onProgress urls i r
    = Some r'
    /\ delays (trace (world r'))
       = (delays (trace (world r))
          ++ repeat (delayMs config) (pauses (concurrency config) (length urls) i))%list.
Proof.
  intros Hc. revert i r. induction fuel as [|fuel IH]; intros i r Hfuel.
  - exists r. unfold pauses. cbn [batches].
    destruct (i <? length urls) eqn:E; [apply Nat.ltb_lt in E; lia|].
    split; [reflexivity|]. cbn. now rewrite app_nil_r.
  - cbn [batches]. unfold pauses at 1. destruct (i <? length urls) eqn:E.
    + apply Nat.ltb_lt in E.
      set (r1 := fold_left _ _ r).
      assert (H1 : delays (trace (world r1)) = delays (trace (world r)))
        by apply batch_delays.
      destruct (i + concurrency config <? length urls) eqn:E2.
      * apply Nat.ltb_lt in E2.
        destruct (IH (i + concurrency config)
                    {| successCount := successCount r1; failedCount := failedCount r1;
                       world := emit (Delay (delayMs config)) (world r1) |}
                    ltac:(lia)) as [r' [Hr' Hd]].
        exists r'. split; [exact Hr'|]. rewrite Hd. cbn [world trace emit].
        unfold delays at 1. rewrite omap_app. fold (delays (trace (world r1))).
        rewrite H1. cbn [omap list_omap]. rewrite <- app_assoc. f_equal.
        unfold pauses. apply Nat.ltb_lt in E2 as E3. rewrite E3.
        replace (length urls - 1 - i)
          with (length urls - 1 - (i + concurrency config) + 1 * concurrency config)
          by lia.
        rewrite Nat.div_add by lia. rewrite Nat.add_1_r. reflexivity.
      * apply Nat.ltb_ge in E2.
        destruct (IH (i + concurrency config) r1 ltac:(lia)) as [r' [Hr' Hd]].
        exists r'. split; [exact Hr'|]. rewrite Hd, H1. f_equal. f_equal.
        unfold pauses. apply Nat.ltb_ge in E2 as E3. rewrite E3.
        symmetry. apply Nat.div_small. lia.
    + exists r. split; [reflexivity|]. cbn. now rewrite app_nil_r.
Qed.

Lemma updateJob_quiet {A} (f : Event -> option A) (jobId : string)
    (u : gmap string JsVal) (w : World) :
  (forall e, job_event jobId u e -> f e = None) ->
  omap f (trace (updateJob store jobId u w)) = omap f (trace w).
Proof.
  without_environment. intros Hf.
  destruct (updateJob_trace jobId u w) as (evs & Ht & _ & Hevs).
  rewrite Ht, omap_app, (omap_nothing f evs); [apply app_nil_r|].
  eapply List.Forall_impl; [|exact Hevs]. exact Hf.
Qed.

(** The start of the loop adds console lines and a job update. *)
Lemma before_batches_quiet {A} (f : Event -> option A) (cert : Cert.FCCCertification)
    (jobId : string) (w : World) :
  (forall e, is_console e = true -> f e = None) ->
  (forall j u, f (JobUpdate j u) = None) ->
  omap f (trace (snd (before_batches listing_get store clock cert jobId w)))
  = omap f (trace w).
Proof.
  without_environment. intros Hconsole Hjob.
  destruct (before_batches_start cert jobId w) as (w1 & logs & Hbb & Hw1 & Hlogs).
  rewrite Hbb. cbn [snd]. rewrite updateJob_quiet.
  - rewrite Hw1. cbn [trace]. rewrite omap_app, (omap_nothing f logs); [apply app_nil_r|].
    apply List.Forall_forall. intros e He. apply Hconsole.
    rewrite forallb_forall in Hlogs. now apply Hlogs.
  - intros [] He; cbn in He; try tauto; [now apply Hconsole | apply Hjob].
Qed.

(** X14.  A run pauses between batches only: over n discovered URLs with
    concurrency c it waits (n - 1) / c times (rounded down), each time for
    delayMs, whatever the pages and the database do; a run that fits in one
    batch never waits. *)
Theorem scrapeCertification_delays (fuel : nat) (cert : Cert.FCCCertification)
    (jobId : string) (onProgress : bool) (w : World) :
  0 < concurrency config -> 50 <= fuel ->
  exists s w',
    scrapeCertification engine_sort listing_get page_get store clock config
      fuel cert jobId onProgress w = Some (s, w')
    /\ Summary.total s = length (fst (getCertificationPages listing_get (Cert.url cert) w))
    /\ delays (trace w')
       = (delays (trace w)
          ++ repeat (delayMs config) ((Summary.total s - 1) / concurrency config))%list.
Proof.
  intros Hc Hfuel.
  pose proof (before_batches_urls listing_get store clock cert jobId w) as Hurls.
  destruct (discovered_shape listing_get (Cert.url cert) w) as [Hle Hhd].
  rewrite <- Hurls in Hle, Hhd |- *.
  pose proof (before_batches_quiet
                (fun e => match e with Delay ms => Some ms | _ => None end)
                cert jobId w) as Hstart.
  rewrite scrapeCertification_unfold.
  destruct (before_batches listing_get store clock cert jobId w) as [urls start].
  cbn [fst snd] in *.
  destruct (batches_delays cert jobId onProgress urls fuel 0
              {| successCount := 0; failedCount := 0; world := start |} Hc ltac:(lia))
    as [r [Hr Hd]].
  rewrite Hr. eexists _, _. split; [reflexivity|]. cbn [Summary.total].
  split; [reflexivity|].
  unfold delays at 1. rewrite updateJob_quiet.
  - fold (delays (trace (world r))). rewrite Hd. cbn [world].
    unfold delays at 1. rewrite Hstart.
    + unfold pauses. destruct urls; [discriminate|]. cbn [length Nat.ltb Nat.leb].
      now rewrite Nat.sub_0_r.
    + intros [] He; cbn in He; try discriminate; reflexivity.
    + reflexivity.
  - intros [] He; cbn in He; try tauto; reflexivity.
Qed.

(** X15.  When a progress callback is given it is called once per item, in
    order, with the number of items processed so far and the total:
    (1, n), (2, n), ..., (n, n), whether the pages were scraped or failed
    and whatever the database does; without a callback nothing is called. *)
Theorem scrapeCertification_onProgress (fuel : nat) (cert : Cert.FCCCertification)
    (jobId : string) (onProgress : bool) (w : World) :
  0 < concurrency config -> 50 <= fuel ->
  exists s w',
    scrapeCertification engine_sort listing_get page_get store clock config
      fuel cert jobId onProgress w = Some (s, w')
    /\ Summary.total s = length (fst (getCertificationPages listing_get (Cert.url cert) w))
    /\ progress_calls (trace w')
       = (progress_calls (trace w)
          ++ (if onProgress
              then map (fun k => (k, Summary.total s)) (seq 1 (Summary.total s))
              else []))%list.
Proof.
  intros Hc Hfuel.
  pose proof (before_batches_urls listing_get store clock cert jobId w) as Hurls.
  set (n := length (fst (before_batches listing_get store clock cert jobId w))).
  pose (Inv := fun (k : nat) (r : Run) =>
    progress_calls (trace (world r))
    = (progress_calls (trace w)
       ++ (if onProgress then map (fun k => (k, n)) (seq 1 k) else []))%list).
  destruct (run_ends Inv fuel cert jobId onProgress w Hc Hfuel)
    as (r & HI & _ & _ & _ & Hrun).
  - intros k r Hk Hsum HI. unfold Inv in *. fold n.
    set (res := scrapePage engine_sort page_get _).
    destruct (record_result_trace cert jobId onProgress n r res)
      as (saved & updated & Ht & _ & Hsaved & Hupd).
    destruct (record_result_counts store cert jobId onProgress n r res) as [Hs' Hf'].
    assert (Hsum' : successCount (record_result store cert jobId onProgress n r res)
                    + failedCount (record_result store cert jobId onProgress n r res)
                    = S k)
      by (rewrite Hs', Hf'; destruct (success res); lia).
    rewrite Hsum' in Ht. rewrite Ht. unfold progress_calls at 1.
    rewrite !omap_app. fold (progress_calls (trace (world r))). rewrite HI.
    rewrite (omap_nothing _ saved), (omap_nothing _ updated).
    + destruct onProgress; cbn [omap list_omap app].
      * rewrite seq_S, map_app, <- app_assoc. reflexivity.
      * now rewrite !app_nil_r.
    + eapply List.Forall_impl; [|exact Hupd]. intros [] [u Hu]; cbn in *; tauto.
    + eapply List.Forall_impl; [|exact Hsaved]. intros [] Hs; cbn in *; tauto.
  - intros k r HI. unfold Inv, delayed in *. cbn [world trace emit].
    unfold progress_calls at 1. rewrite omap_app. cbn [omap list_omap].
    rewrite app_nil_r. exact HI.
  - unfold Inv. cbn [world]. unfold progress_calls at 1.
    rewrite before_batches_quiet.
    + destruct onProgress; cbn; now rewrite app_nil_r.
    + intros [] He; cbn in He; try discriminate; reflexivity.
    + reflexivity.
  - eexists _, _. split; [exact Hrun|]. cbn [Summary.total]. fold n.
    split; [unfold n; now rewrite Hurls|].
    unfold progress_calls at 1. rewrite updateJob_quiet.
    + exact HI.
    + intros [] He; cbn in He; try tauto; reflexivity.
Qed.

(** X16.  Whatever the database does, a run writes to the content table for
    scraped pages only: it writes at most one row per scraped page, and
    every row it writes is the record built from the result of a discovered
    URL whose page was scraped.  Nothing is written for a failed page. *)
Theorem scrapeCertification_writes (fuel : nat) (cert : Cert.FCCCertification)
    (jobId : string) (onProgress : bool) (w : World) :
  0 < concurrency config -> 50 <= fuel ->
  exists s w' rows,
    scrapeCertification engine_sort listing_get page_get store clock config
      fuel cert jobId onProgress w = Some (s, w')
    /\ written (trace w') = (written (trace w) ++ rows)%list
    /\ length rows <= Summary.success s
    /\ forall row, In row rows ->
         exists u sid i,
           In u (fst (getCertificationPages listing_get (Cert.url cert) w))
           /\ success (scrapePage engine_sort page_get u) = true
           /\ row = contentData sid (scrapePage engine_sort page_get u) i.
Proof.
  intros Hc Hfuel.
  pose proof (before_batches_urls listing_get store clock cert jobId w) as Hurls.
  rewrite <- Hurls.
  set (urls := fst (before_batches listing_get store clock cert jobId w)).
  pose (Inv := fun (k : nat) (r : Run) =>
    exists rows,
      written (trace (world r)) = (written (trace w) ++ rows)%list
      /\ length rows <= successCount r
      /\ forall row, In row rows ->
           exists u sid i,
             In u urls /\ success (scrapePage engine_sort page_get u) = true
             /\ row = contentData sid (scrapePage engine_sort page_get u) i).
  destruct (run_ends Inv fuel cert jobId onProgress w Hc Hfuel)
    as (r & (rows & Hw & Hlen & Hrows) & _ & _ & _ & Hrun).
  - intros k r Hk Hsum (rows & Hw & Hlen & Hrows). fold urls. unfold Inv.
    set (res := scrapePage engine_sort page_get (nth k urls EmptyString)).
    destruct (record_result_trace cert jobId onProgress (length urls) r res)
      as (saved & updated & Ht & Hsl & Hsaved & Hupd).
    destruct (record_result_counts store cert jobId onProgress (length urls) r res)
      as [Hs' _].
    exists (rows ++ written saved)%list. split; [|split].
    + rewrite Ht. unfold written at 1. rewrite !omap_app.
      fold (written (trace (world r))). fold (written saved). rewrite Hw.
      rewrite (omap_nothing _ updated).
      * destruct onProgress; cbn [omap list_omap app]; now rewrite <- app_assoc, ?app_nil_r.
      * eapply List.Forall_impl; [|exact Hupd]. intros [] [u Hu]; cbn in *; tauto.
    + rewrite length_app, Hs'.
      assert (Hle : length (written saved) <= length saved).
      { clear. induction saved as [|e l IH]; [simpl; lia|].
        unfold written in *. cbn. destruct e; cbn; lia. }
      lia.
    + intros row Hin. apply in_app_iff in Hin as [Hin|Hin]; [now apply Hrows|].
      assert (Hres : success res = true)
        by (destruct (success res); [reflexivity|];
            destruct saved; [destruct Hin | simpl in Hsl; lia]).
      exists (nth k urls EmptyString).
      assert (Hsid : exists sid i, row = contentData sid res i).
      { clear - Hin Hsaved. induction Hsaved as [|e l He _ IH]; [destruct Hin|].
        unfold written in Hin. cbn in Hin.
        destruct e; cbn in Hin, He; try (now apply IH); try tauto;
          (destruct Hin as [<-|Hin]; [exact He | now apply IH]). }
      destruct Hsid as (sid & i & ->). exists sid, i.
      split; [apply nth_In; exact Hk|]. split; [exact Hres | reflexivity].
  - intros k r (rows & Hw & Hrest). exists rows. split; [|exact Hrest].
    unfold delayed. cbn [world trace emit]. unfold written at 1.
    rewrite omap_app. cbn [omap list_omap]. rewrite app_nil_r. exact Hw.
  - exists []. cbn [world]. split; [|split; [simpl; lia | intros row []]].
    unfold written at 1. rewrite before_batches_quiet.
    + now rewrite app_nil_r.
    + intros [] He; cbn in He; try discriminate; reflexivity.
    + reflexivity.
  - exists {| Summary.success := successCount r; Summary.failed := failedCount r;
              Summary.total := length urls |},
           (updateJob store jobId (completed_updates (clock (calls (world r)))) (world r)),
           rows.
    split; [exact Hrun|]. cbn [Summary.success].
    split; [|split; [exact Hlen | exact Hrows]].
    unfold written at 1. rewrite updateJob_quiet.
    + exact Hw.
    + intros [] He; cbn in He; try tauto; reflexivity.
Qed.

(** *** Crawling again *)

Lemma updateJob_tables (jobId : string) (u : gmap string JsVal) (w : World) :
  contents (updateJob store jobId u w) = contents w
  /\ sources (updateJob store jobId u w) = sources w
  /\ sourceId (updateJob store jobId u w) = sourceId w.
Proof.
  without_environment. unfold_actions.
  destruct (store scraping_jobs (calls w)); cbn; repeat split.
Qed.

Lemma stored_same (u : string) (w w' : World) :
  contents w' = contents w -> stored u w' = stored u w.
Proof. without_environment. unfold stored. now intros ->. Qed.

Lemma resolved_source_same (w w' : World) :
  sourceId w' = sourceId w -> sources w' = sources w ->
  resolved_source w' = resolved_source w.
Proof. without_environment. unfold resolved_source. now intros -> ->. Qed.

Lemma scrapePage_url (u : string) : url (scrapePage engine_sort page_get u) = u.
Proof. unfold scrapePage. destruct (page_get u); reflexivity. Qed.

(** The state saveContent leaves when the database carries out its calls. *)
Lemma saveContent_settles (res : ScrapeResult) (category sid : string) (w : World) :
  (forall t n, store t n = Done) ->
  resolved_source w = Some sid ->
  one_record_per_url (contents w) ->
  let w' := saveContent store res category w in
  resolved_source w' = Some sid
  /\ sources w' = sources w
  /\ same_hash (stored (url res) w') (contentHash res) = true
  /\ (forall u, u <> url res -> stored u w' = stored u w)
  /\ (same_hash (stored (url res) w) (contentHash res) = true ->
      contents w' = contents w /\ trace w' = trace w).
Proof.
  without_environment. intros Hstore Hsid [Hnd Hone] w'.
  pose proof (saveContent_reliable store res category sid w Hstore Hsid) as H.
  cbv zeta in H. fold w' in H.
  assert (Hsrc : resolved_source w' = Some sid /\ sources w' = sources w).
  { rewrite H. unfold resolved_source in *.
    destruct (sourceId w) as [s|] eqn:Hs;
      destruct (same_hash _ _); try destruct (stored _ _); cbn; rewrite ?Hs; auto. }
  destruct Hsrc as [Hsrc Hsources].
  split; [exact Hsrc|]. split; [exact Hsources|].
  destruct (same_hash (stored (url res) w) (contentHash res)) eqn:Hsame.
  { assert (Hc : contents w' = contents w /\ trace w' = trace w)
      by (rewrite H; destruct (sourceId w); split; reflexivity).
    destruct Hc as [Hc Ht]. split; [|split].
    - rewrite (stored_same _ w w' Hc). exact Hsame.
    - intros u _. exact (stored_same u w w' Hc).
    - intros _. split; [exact Hc | exact Ht]. }
  split; [|split; [|discriminate]].
  - unfold stored in *.
    destruct (single_filter_cases (fun r => String.eqb (Row.url r) (url res))
                (contents w) (Hone (url res))) as [[Hnone Hnil]|[ex [Hsome Hex]]].
    + rewrite H, Hnone.
      destruct (sourceId w); cbn; rewrite List.filter_app, Hnil; cbn;
        rewrite String.eqb_refl; cbn; apply String.eqb_refl.
    + rewrite H, Hsome.
      assert (Hi : In ex (List.filter (fun r => String.eqb (Row.url r) (url res))
                                      (contents w))) by (rewrite Hex; now left).
      apply filter_In in Hi as [Hin Hurl]. apply String.eqb_eq in Hurl.
      assert (Hkey : forall x, In x (contents w) -> Row.id x = Row.id ex -> x = ex)
        by (intros x Hx Hid; exact (NoDup_map_eq Row.id _ x ex Hnd Hx Hin Hid)).
      destruct (sourceId w); cbn;
        rewrite (update_filter _ (url res) ex (contentData sid res (Row.id ex))
                   Hkey Hurl eq_refl), Hex; cbn;
        rewrite Nat.eqb_refl; cbn; apply String.eqb_refl.
  - intros u Hu. unfold stored in *. f_equal.
    destruct (single_filter_cases (fun r => String.eqb (Row.url r) (url res))
                (contents w) (Hone (url res))) as [[Hnone Hnil]|[ex [Hsome Hex]]].
    + rewrite H, Hnone.
      assert (E : String.eqb (url res) u = false) by (apply String.eqb_neq; congruence).
      destruct (sourceId w); cbn; rewrite List.filter_app; cbn; rewrite E;
        apply app_nil_r.
    + rewrite H, Hsome.
      assert (Hi : In ex (List.filter (fun r => String.eqb (Row.url r) (url res))
                                      (contents w))) by (rewrite Hex; now left).
      apply filter_In in Hi as [Hin Hurl]. apply String.eqb_eq in Hurl.
      assert (Hkey : forall x, In x (contents w) -> Row.id x = Row.id ex -> x = ex)
        by (intros x Hx Hid; exact (NoDup_map_eq Row.id _ x ex Hnd Hx Hin Hid)).
      assert (Hgoal :
        List.filter (fun r => String.eqb (Row.url r) u)
          (map (fun x => if Row.id x =? Row.id ex
                         then contentData sid res (Row.id ex) else x) (contents w))
        = List.filter (fun r => String.eqb (Row.url r) u) (contents w)).
      { rewrite (update_filter_any (fun r => String.eqb (Row.url r) u) _ ex _ Hkey)
          by (cbn; now rewrite Hurl).
        rewrite <- (map_id (List.filter _ (contents w))) at 2.
        apply map_ext_in. intros x Hx. apply filter_In in Hx as [Hx Hxu].
        apply String.eqb_eq in Hxu.
        destruct (Row.id x =? Row.id ex) eqn:E; [|reflexivity].
        apply Nat.eqb_eq in E. apply (Hkey x Hx) in E. subst x. congruence. }
      destruct (sourceId w); cbn; exact Hgoal.
Qed.

(** One item of a run over a database that carries out its calls. *)
Lemma record_result_settles (cert : Cert.FCCCertification) (jobId : string)
    (onProgress : bool) (total : nat) (sid : string) (r : Run) (res : ScrapeResult) :
  (forall t n, store t n = Done) ->
  resolved_source (world r) = Some sid ->
  one_record_per_url (contents (world r)) ->
  let w' := world (record_result store cert jobId onProgress total r res) in
  resolved_source w' = Some sid
  /\ one_record_per_url (contents w')
  /\ (success res = true -> same_hash (stored (url res) w') (contentHash res) = true)
  /\ (forall u, u <> url res -> stored u w' = stored u (world r))
  /\ ((success res = true ->
       same_hash (stored (url res) (world r)) (contentHash res) = true) ->
      contents w' = contents (world r)
      /\ written (trace w') = written (trace (world r))).
Proof.
  without_environment. intros Hstore Hsid Hwf w'.
  unfold w', record_result.
  set (r1 := if success res then _ else _).
  assert (H1 : resolved_source (world r1) = Some sid
               /\ one_record_per_url (contents (world r1))
               /\ (success res = true ->
                   same_hash (stored (url res) (world r1)) (contentHash res) = true)
               /\ (forall u, u <> url res -> stored u (world r1) = stored u (world r))
               /\ ((success res = true ->
                    same_hash (stored (url res) (world r)) (contentHash res) = true) ->
                   contents (world r1) = contents (world r)
                   /\ trace (world r1) = trace (world r))).
  { unfold r1. destruct (success res); cbn [world].
    - destruct (saveContent_settles res (Cert.slug cert) sid (world r) Hstore Hsid Hwf)
        as (Ha & _ & Hb & Hc & Hd).
      split; [exact Ha|]. split; [now apply saveContent_well_formed|].
      split; [intros _; exact Hb|]. split; [exact Hc|]. intros Hs. now apply Hd, Hs.
    - split; [exact Hsid|]. split; [exact Hwf|]. split; [discriminate|].
      split; [reflexivity|]. intros _. split; reflexivity. }
  destruct H1 as (Ha & Hb & Hc & Hd & He).
  cbn [world successCount failedCount].
  set (u := progress_updates _ _ _ _).
  destruct (updateJob_tables jobId u (world r1)) as (Hc1 & Hs1 & Hi1).
  assert (Hw2 : forall w2, w2 = (if onProgress
                                 then emit (OnProgress (successCount r1 + failedCount r1)
                                                       total)
                                        (updateJob store jobId u (world r1))
                                 else updateJob store jobId u (world r1)) ->
                contents w2 = contents (world r1)
                /\ sources w2 = sources (world r1)
                /\ sourceId w2 = sourceId (world r1)
                /\ written (trace w2) = written (trace (world r1))).
  { intros w2 ->.
    assert (Hq : written (trace (updateJob store jobId u (world r1)))
                 = written (trace (world r1))).
    { unfold written. apply updateJob_quiet.
      intros [] Hev; cbn in Hev; try tauto; reflexivity. }
    destruct onProgress; cbn [contents sources sourceId trace emit].
    - split; [exact Hc1|]. split; [exact Hs1|]. split; [exact Hi1|].
      unfold written at 1. rewrite omap_app. cbn [omap list_omap].
      rewrite app_nil_r. exact Hq.
    - split; [exact Hc1|]. split; [exact Hs1|]. split; [exact Hi1 | exact Hq]. }
  destruct (Hw2 _ eq_refl) as (Hc2 & Hs2 & Hi2 & Ht2).
  split; [rewrite (resolved_source_same _ _ Hi2 Hs2); exact Ha|].
  split; [rewrite Hc2; exact Hb|].
  split; [intros Hs; rewrite (stored_same _ _ _ Hc2); now apply Hc|].
  split; [intros u' Hu'; rewrite (stored_same _ _ _ Hc2); now apply Hd|].
  intros Hs. destruct (He Hs) as [Hce Hte]. split.
  - rewrite Hc2. exact Hce.
  - rewrite Ht2, Hte. reflexivity.
Qed.

Lemma delayed_tables (r : Run) :
  contents (world (delayed config r)) = contents (world r)
  /\ sources (world (delayed config r)) = sources (world r)
  /\ sourceId (world (delayed config r)) = sourceId (world r).
Proof. repeat split. Qed.

Lemma before_batches_tables (cert : Cert.FCCCertification) (jobId : string) (w : World) :
  let start := snd (before_batches listing_get store clock cert jobId w) in
  contents start = contents w /\ sources start = sources w
  /\ sourceId start = sourceId w.
Proof.
  without_environment. intros start. unfold start.
  destruct (before_batches_start cert jobId w) as (w1 & logs & Hbb & Hw1 & _).
  rewrite Hbb. cbn [snd].
  destruct (updateJob_tables jobId
              (running_updates
                 (length (fst (getCertificationPages listing_get (Cert.url cert) w)))
                 (clock (calls w))) w1) as (Hc & Hs & Hi).
  rewrite Hc, Hs, Hi, Hw1. repeat split.
Qed.

(** X17.  With a database that carries out its calls, a run keeps the
    content table well formed (distinct ids, one record per URL) and leaves
    the source table as it was. *)
Theorem scrapeCertification_keeps_one_record_per_url (fuel : nat)
    (cert : Cert.FCCCertification) (jobId : string) (onProgress : bool) (w : World) :
  0 < concurrency config -> 50 <= fuel ->
  (forall t n, store t n = Done) ->
  one_record_per_url (contents w) ->
  exists s w',
    scrapeCertification engine_sort listing_get page_get store clock config
      fuel cert jobId onProgress w = Some (s, w')
    /\ one_record_per_url (contents w')
    /\ sources w' = sources w.
Proof.
  intros Hc Hfuel Hstore Hwf.
  pose (Inv := fun (k : nat) (r : Run) =>
    one_record_per_url (contents (world r)) /\ sources (world r) = sources w).
  destruct (run_ends Inv fuel cert jobId onProgress w Hc Hfuel)
    as (r & [Hr Hsrc] & _ & _ & _ & Hrun).
  - intros k r Hk _ [HI Hsrc]. unfold Inv, record_result.
    set (res := scrapePage engine_sort page_get _).
    set (r1 := if success res then _ else _).
    assert (H1 : one_record_per_url (contents (world r1))
                 /\ sources (world r1) = sources w).
    { unfold r1. destruct (success res); cbn [world]; [|now split].
      split; [now apply saveContent_well_formed|].
      destruct (saveContent_cases store res (Cert.slug cert) (world r)) as [Hs _].
      cbv zeta in Hs. now rewrite Hs. }
    cbn [world successCount failedCount].
    set (u := progress_updates _ _ _ _).
    destruct (updateJob_tables jobId u (world r1)) as (Hc1 & Hs1 & _).
    destruct onProgress; cbn [contents sources emit]; rewrite Hc1, Hs1; exact H1.
  - intros k r HI. exact HI.
  - destruct (before_batches_tables cert jobId w) as (Hc0 & Hs0 & _).
    unfold Inv. cbn [world]. rewrite Hc0, Hs0. now split.
  - eexists _, _. split; [exact Hrun|].
    destruct (updateJob_tables jobId (completed_updates (clock (calls (world r))))
                (world r)) as (Hc1 & Hs1 & _).
    rewrite Hc1, Hs1. now split.
Qed.

(** X18.  Crawling again changes nothing.  With a database that carries out
    its calls, a registered source and a well-formed content table, a run
    leaves every scraped page stored under its URL with the fingerprint of
    its content; a second run over the unchanged site then returns the same
    summary, writes no row and leaves the content table as the first run
    left it. *)
Theorem scrapeCertification_again (fuel : nat) (cert : Cert.FCCCertification)
    (jobId jobId' : string) (onProgress onProgress' : bool) (sid : string) (w : World) :
  0 < concurrency config -> 50 <= fuel ->
  (forall t n, store t n = Done) ->
  resolved_source w = Some sid ->
  one_record_per_url (contents w) ->
  exists s w1 w2,
    scrapeCertification engine_sort listing_get page_get store clock config
      fuel cert jobId onProgress w = Some (s, w1)
    /\ (forall u, In u (fst (getCertificationPages listing_get (Cert.url cert) w)) ->
          success (scrapePage engine_sort page_get u) = true ->
          exists row, stored u w1 = Some row
                      /\ Row.content_hash row
                         = contentHash (scrapePage engine_sort page_get u))
    /\ scrapeCertification engine_sort listing_get page_get store clock config
         fuel cert jobId' onProgress' w1 = Some (s, w2)
    /\ contents w2 = contents w1
    /\ written (trace w2) = written (trace w1).
Proof.
  intros Hc Hfuel Hstore Hsid Hwf.
  pose proof (before_batches_urls listing_get store clock cert jobId w) as Hurls.
  set (urls := fst (getCertificationPages listing_get (Cert.url cert) w)) in *.
  set (page := scrapePage engine_sort page_get).
  pose (Inv := fun (k : nat) (r : Run) =>
    resolved_source (world r) = Some sid
    /\ one_record_per_url (contents (world r))
    /\ forall j, j < k -> success (page (nth j urls EmptyString)) = true ->
         same_hash (stored (nth j urls EmptyString) (world r))
                   (contentHash (page (nth j urls EmptyString))) = true).
  destruct (run_ends Inv fuel cert jobId onProgress w Hc Hfuel)
    as (r & (Hsid1 & Hwf1 & Hall1) & Hs1 & Hf1 & Hlen1 & Hrun1).
  - rewrite Hurls. fold urls. intros k r Hk _ (Hsidr & Hwfr & Hallr).
    fold page.
    destruct (record_result_settles cert jobId onProgress (length urls) sid r
                (page (nth k urls EmptyString)) Hstore Hsidr Hwfr)
      as (Ha & Hb & Hcur & Hother & _).
    unfold page in Hcur, Hother. rewrite scrapePage_url in Hcur, Hother. fold page in Hcur, Hother.
    split; [exact Ha|]. split; [exact Hb|].
    intros j Hj Hsucc.
    destruct (String.eqb (nth j urls EmptyString) (nth k urls EmptyString)) eqn:E.
    + apply String.eqb_eq in E. rewrite E in *. now apply Hcur.
    + apply String.eqb_neq in E. rewrite (Hother _ E).
      assert (j <> k) by (intros ->; now apply E). apply Hallr; [lia | exact Hsucc].
  - intros k r (Ha & Hb & Hall). destruct (delayed_tables r) as (Hc1 & Hs1 & Hi1).
    split; [rewrite (resolved_source_same _ _ Hi1 Hs1); exact Ha|].
    split; [rewrite Hc1; exact Hb|].
    intros j Hj Hsucc. rewrite (stored_same _ _ _ Hc1). now apply Hall.
  - destruct (before_batches_tables cert jobId w) as (Hc0 & Hs0 & Hi0).
    unfold Inv. cbn [world].
    split; [rewrite (resolved_source_same _ _ Hi0 Hs0); exact Hsid|].
    split; [rewrite Hc0; exact Hwf|]. intros j Hj. lia.
  - rewrite Hurls in Hs1, Hf1, Hlen1, Hrun1, Hall1. fold urls in Hs1, Hf1, Hlen1, Hrun1.
    set (w1 := updateJob store jobId (completed_updates (clock (calls (world r))))
                 (world r)) in *.
    destruct (updateJob_tables jobId (completed_updates (clock (calls (world r))))
                (world r)) as (Hcw & Hsw & Hiw).
    fold w1 in Hcw, Hsw, Hiw.
    assert (Hstored : forall j, j < length urls ->
              success (page (nth j urls EmptyString)) = true ->
              same_hash (stored (nth j urls EmptyString) w1)
                        (contentHash (page (nth j urls EmptyString))) = true).
    { intros j Hj Hsucc. rewrite (stored_same _ _ _ Hcw). now apply Hall1. }
    pose proof (before_batches_urls listing_get store clock cert jobId' w1) as Hurls'.
    destruct (getCertificationPages_world listing_get (Cert.url cert) jobId w)
      as (_ & _ & Hsame).
    rewrite (Hsame w1) in Hurls'. fold urls in Hurls'.
    pose (Inv' := fun (k : nat) (r' : Run) =>
      resolved_source (world r') = Some sid
      /\ contents (world r') = contents w1
      /\ written (trace (world r')) = written (trace w1)).
    destruct (run_ends Inv' fuel cert jobId' onProgress' w1 Hc Hfuel)
      as (r' & (_ & Hc2 & Ht2) & Hs2 & Hf2 & _ & Hrun2).
    + rewrite Hurls'. intros k r' Hk _ (Ha & Hb & Ht). fold page.
      assert (Hwfr : one_record_per_url (contents (world r')))
        by (rewrite Hb, Hcw; exact Hwf1).
      destruct (record_result_settles cert jobId' onProgress' (length urls) sid r'
                  (page (nth k urls EmptyString)) Hstore Ha Hwfr)
        as (Ha' & _ & _ & _ & Hquiet).
      unfold page in Hquiet. rewrite scrapePage_url in Hquiet. fold page in Hquiet.
      destruct Hquiet as [Hq1 Hq2].
      { intros Hsucc. rewrite (stored_same _ w1 (world r') Hb). now apply Hstored. }
      split; [exact Ha'|]. split; [now rewrite Hq1 | now rewrite Hq2].
    + intros k r' (Ha & Hb & Ht). destruct (delayed_tables r') as (Hc1 & Hs1' & Hi1).
      split; [rewrite (resolved_source_same _ _ Hi1 Hs1'); exact Ha|].
      split; [rewrite Hc1; exact Hb|].
      unfold delayed. cbn [world trace emit]. unfold written at 1.
      rewrite omap_app. cbn [omap list_omap]. rewrite app_nil_r. exact Ht.
    + destruct (before_batches_tables cert jobId' w1) as (Hc0 & Hs0 & Hi0).
      unfold Inv'. cbn [world].
      split; [rewrite (resolved_source_same _ _ Hi0 Hs0),
                (resolved_source_same _ _ Hiw Hsw); exact Hsid1|].
      split; [exact Hc0|].
      unfold written at 1. rewrite before_batches_quiet; [reflexivity| |reflexivity].
      intros [] He; cbn in He; try discriminate; reflexivity.
    + rewrite Hurls' in Hs2, Hf2, Hrun2.
      eexists _, w1, _. split; [exact Hrun1|]. split; [|split; [|split]].
      * intros u Hin Hsucc. apply (In_nth _ _ EmptyString) in Hin as (j & Hj & <-).
        specialize (Hstored j Hj Hsucc). unfold same_hash in Hstored.
        destruct (stored (nth j urls EmptyString) w1) as [row|]; [|discriminate].
        exists row. split; [reflexivity|]. now apply String.eqb_eq.
      * rewrite Hrun2, Hs2, Hf2, Hs1, Hf1. reflexivity.
      * destruct (updateJob_tables jobId' (completed_updates (clock (calls (world r'))))
                    (world r')) as (Hcw' & _ & _).
        rewrite Hcw'. exact Hc2.
      * unfold written at 1. rewrite updateJob_quiet; [exact Ht2|].
        intros [] He; cbn in He; try tauto; reflexivity.
Qed.

End RunProperties.

(** ** Whole runs at the sample inputs *)

Lemma scrapeCertification_job_record_witness :
  exists s w' row,
    scrapeCertification Sample.engine Sample.listing Sample.page Sample.reliable
      Sample.clock Sample.config 50 Sample.cert "job-1" false Sample.world
    = Some (s, w')
    /\ jobs w' !! "job-1" = Some row
    /\ row !! "status" = Some (VString "completed")
    /\ row !! "progress_percentage" = Some (VNumber (Number.of_nat 100))
    /\ row !! "items_new" = None.
Proof.
  destruct (scrapeCertification_job_record Sample.engine Sample.listing Sample.page
              Sample.reliable Sample.clock Sample.config 50 Sample.cert "job-1" false
              Sample.world ∅)
    as (s & w' & row & Hrun & Hrow & Hst & _ & _ & _ & _ & Hp & _ & _ & Hframe & _).
  - cbv. lia.
  - lia.
  - reflexivity.
  - reflexivity.
  - exists s, w', row. split; [exact Hrun|]. split; [exact Hrow|].
    split; [exact Hst|]. split; [exact Hp|].
    rewrite Hframe; [reflexivity|]. simpl. intuition discriminate.
Defined.

Lemma scrapeCertification_delays_witness :
  exists s w',
    scrapeCertification Sample.engine Sample.listing Sample.page Sample.reliable
      Sample.clock Sample.config 50 Sample.cert "job-1" false Sample.world
    = Some (s, w')
    /\ Summary.total s = 3
    /\ delays (trace w') = [].
Proof.
  destruct (scrapeCertification_delays Sample.engine Sample.listing Sample.page
              Sample.reliable Sample.clock Sample.config 50 Sample.cert "job-1" false
              Sample.world)
    as (s & w' & Hrun & Htotal & Hd).
  - cbv. lia.
  - lia.
  - exists s, w'. split; [exact Hrun|]. split; [exact Htotal|].
    rewrite Hd, Htotal. reflexivity.
Defined.

Lemma scrapeCertification_onProgress_witness :
  exists s w',
    scrapeCertification Sample.engine Sample.listing Sample.page Sample.write_throws
      Sample.clock Sample.config 50 Sample.cert "job-1" true Sample.world
    = Some (s, w')
    /\ progress_calls (trace w') = [(1, 3); (2, 3); (3, 3)].
Proof.
  destruct (scrapeCertification_onProgress Sample.engine Sample.listing Sample.page
              Sample.write_throws Sample.clock Sample.config 50 Sample.cert "job-1" true
              Sample.world)
    as (s & w' & Hrun & Htotal & Hp).
  - cbv. lia.
  - lia.
  - exists s, w'. split; [exact Hrun|]. rewrite Hp, Htotal. reflexivity.
Defined.

Lemma scrapeCertification_writes_witness :
  exists s w' rows,
    scrapeCertification Sample.engine Sample.listing Sample.page Sample.write_throws
      Sample.clock Sample.config 50 Sample.cert "job-1" false Sample.world
    = Some (s, w')
    /\ written (trace w') = rows
    /\ length rows <= Summary.success s.
Proof.
  destruct (scrapeCertification_writes Sample.engine Sample.listing Sample.page
              Sample.write_throws Sample.clock Sample.config 50 Sample.cert "job-1" false
              Sample.world)
    as (s & w' & rows & Hrun & Hw & Hlen & _).
  - cbv. lia.
  - lia.
  - exists s, w', rows. split; [exact Hrun|]. split; [exact Hw | exact Hlen].
Defined.

Lemma scrapeCertification_keeps_one_record_per_url_witness :
  exists s w',
    scrapeCertification Sample.engine Sample.listing Sample.page Sample.reliable
      Sample.clock Sample.config 50 Sample.cert "job-1" false stocked_world
    = Some (s, w')
    /\ one_record_per_url (contents w').
Proof.
  destruct (scrapeCertification_keeps_one_record_per_url Sample.engine Sample.listing
              Sample.page Sample.reliable Sample.clock Sample.config 50 Sample.cert
              "job-1" false stocked_world)
    as (s & w' & Hrun & Hwf & _).
  - cbv. lia.
  - lia.
  - reflexivity.
  - split.
    + repeat constructor. simpl. tauto.
    + intros u. unfold stocked_world, set_contents. cbn [contents List.filter].
      case_match; simpl; lia.
  - exists s, w'. split; [exact Hrun | exact Hwf].
Defined.

Lemma scrapeCertification_again_witness :
  exists s w1 w2,
    scrapeCertification Sample.engine Sample.listing Sample.page Sample.reliable
      Sample.clock Sample.config 50 Sample.cert "job-1" false Sample.world
    = Some (s, w1)
    /\ scrapeCertification Sample.engine Sample.listing Sample.page Sample.reliable
         Sample.clock Sample.config 50 Sample.cert "job-2" true w1
       = Some (s, w2)
    /\ contents w2 = contents w1.
Proof.
  destruct (scrapeCertification_again Sample.engine Sample.listing Sample.page
              Sample.reliable Sample.clock Sample.config 50 Sample.cert "job-1" "job-2"
              false true "source-1" Sample.world)
    as (s & w1 & w2 & Hrun1 & _ & Hrun2 & Hc & _).
  - cbv. lia.
  - lia.
  - reflexivity.
  - reflexivity.
  - split; [constructor | intros u; simpl; lia].
  - exists s, w1, w2. split; [exact Hrun1|]. split; [exact Hrun2 | exact Hc].
Defined.

(** * The route [/api/scrape]

    The route works with the singleton scraper [fccScraper], built with the
    default configuration.  A job record stores its [config] object under the
    column name [config.certSlug]. *)

(** [getFCCCertifications] *)
Definition getFCCCertifications : list Cert.FCCCertification :=
  [ {| Cert.title := "Responsive Web Design";
       Cert.slug := "responsive-web-design";
       Cert.url := FCC_BASE ++ "/learn/2022/responsive-web-design/";
       Cert.description := "Learn HTML and CSS fundamentals";
       Cert.category := "web-design" |};
    {| Cert.title := "JavaScript Algorithms and Data Structures";
       Cert.slug := "javascript-algorithms";
       Cert.url := FCC_BASE ++ "/learn/javascript-algorithms-and-data-structures-v8/";
       Cert.description := "Learn JavaScript programming fundamentals";
       Cert.category := "javascript" |};
    {| Cert.title := "Front End Development Libraries";
       Cert.slug := "front-end-libraries";
       Cert.url := FCC_BASE ++ "/learn/front-end-development-libraries/";
       Cert.description := "Learn React, Redux, Bootstrap, and jQuery";
       Cert.category := "frontend" |};
    {| Cert.title := "Data Visualization";
       Cert.slug := "data-visualization";
       Cert.url := FCC_BASE ++ "/learn/data-visualization/";
       Cert.description := "Learn D3.js for data visualization";
       Cert.category := "data-viz" |};
    {| Cert.title := "APIs and Microservices";
       Cert.slug := "back-end-development-and-apis";
       Cert.url := FCC_BASE ++ "/learn/back-end-development-and-apis/";
       Cert.description := "Learn Node.js and Express";
       Cert.category := "apis" |};
    {| Cert.title := "Scientific Computing with Python";
       Cert.slug := "scientific-computing-with-python";
       Cert.url := FCC_BASE ++ "/learn/scientific-computing-with-python-v7/";
       Cert.description := "Learn Python fundamentals";
       Cert.category := "python" |};
    {| Cert.title := "Data Analysis with Python";
       Cert.slug := "data-analysis-with-python";
       Cert.url := FCC_BASE ++ "/learn/data-analysis-with-python-v7/";
       Cert.description := "Learn data analysis using Python";
       Cert.category := "data-analysis" |};
    {| Cert.title := "Machine Learning with Python";
       Cert.slug := "machine-learning-with-python";
       Cert.url := FCC_BASE ++ "/learn/machine-learning-with-python-v7/";
       Cert.description := "Learn machine learning fundamentals";
       Cert.category := "ml" |} ].

(** The database behind the route: the tables the scraper works with, and
    the column [last_scraped_at] of the sources, by source id. *)
Record Server := {
  db : World;
  last_scraped_at : gmap string string
}.

Definition on_db (f : World -> World) (sv : Server) : Server :=
  {| db := f (db sv); last_scraped_at := last_scraped_at sv |}.

(** What [await request.json()] and the destructuring of its result give:
    they throw, or the body has a [certSlug] or none. *)
Inductive RequestBody :=
| Unreadable (e : Thrown)
| Fields (certSlug : option string).

Module Http.
Inductive Json :=
| Error (error : string)
| Started (jobId message : string)
| Certifications (count : nat) (certifications : list (Cert.FCCCertification * bool)).

Record NextResponse := { status : nat; json : Json }.
End Http.

(** The call [scrapeInBackground(job.id, certSlug, sourceId)] left running. *)
Record Background := {
  bg_jobId : string;
  bg_certSlug : string;
  bg_sourceId : string
}.

(** The record POST inserts into [scraping_jobs]. *)
Definition pending_job (sourceId now certSlug : string) : gmap string JsVal :=
  <["source_id" := VString sourceId]>
  (<["job_type" := VString "full_scrape"]>
  (<["scheduled_at" := VString now]>
  (<["status" := VString "pending"]>
  (<["total_urls" := VInt 0]>
  (<["urls_processed" := VInt 0]>
  (<["urls_failed" := VInt 0]>
  (<["progress_percentage" := VInt 0]>
  (<["items_scraped" := VInt 0]>
  (<["items_new" := VInt 0]>
  (<["items_updated" := VInt 0]>
  (<["items_unchanged" := VInt 0]>
  (<["retry_count" := VInt 0]>
  (<["max_retries" := VInt 3]>
  (<["config.certSlug" := VString certSlug]> ∅)))))))))))))).

Definition failed_updates (message now : string) : gmap string JsVal :=
  <["status" := VString "failed"]>
    (<["error_message" := VString message]> (<["completed_at" := VString now]> ∅)).

(** [job.config?.certSlug], kept when [Boolean] accepts it. *)
Definition config_certSlug (row : gmap string JsVal) : option string :=
  match row !! "config.certSlug" with
  | Some (VString s) => if truthy s then Some s else None
  | _ => None
  end.

Definition has_status (s : string) (row : gmap string JsVal) : bool :=
  match row !! "status" with
  | Some (VString s') => String.eqb s' s
  | _ => false
  end.

Section Route.

Variable engine_sort : list (string * JsObject.value) -> list (string * JsObject.value).
Variable listing_get : string -> Response.
Variable page_get : string -> Response.
Variable store : Table -> nat -> Outcome.
Variable clock : nat -> string.

(** The id the database gives to the row inserted by its n-th call. *)
Variable new_id : nat -> string.

Ltac without_environment :=
  try clear new_id; try clear clock; try clear store; try clear page_get;
  try clear listing_get; try clear engine_sort.

(** [from('knowledge_sources').insert({...}).select('id').single()]: the row
    goes in under a new id; an id in use is answered with an error. *)
Definition insert_source : Action (option Row.SourceRow) :=
  before ← get_world;
  o ← db_call store knowledge_sources;
  match o with
  | Done =>
      w ← get_world;
      let row := {| Row.src_id := new_id (calls before); Row.src_url := FCC_BASE |} in
      if existsb (fun r => String.eqb (Row.src_id r) (Row.src_id row)) (sources w)
      then mret None
      else modify (fun w => {| sourceId := sourceId w;
                               sources := (sources w ++ [row])%list;
                               contents := contents w; jobs := jobs w;
                               calls := calls w; trace := trace w |});;
           mret (Some row)
  | Refused => mret None
  | Failed e => throw e
  end.

(** [from('scraping_jobs').insert({...}).select().single()] *)
Definition insert_job (row : gmap string JsVal) : Action (option string) :=
  before ← get_world;
  o ← db_call store scraping_jobs;
  match o with
  | Done =>
      w ← get_world;
      let i := new_id (calls before) in
      match jobs w !! i with
      | Some _ => mret None
      | None => modify (set_jobs (<[i := row]> (jobs w)));; mret (Some i)
      end
  | Refused => mret None
  | Failed e => throw e
  end.

(** The body of POST from the source lookup to the job: the ids of the job
    and of the source. *)
Definition create_job (certSlug : string) : Action (string * string) :=
  existingSource ← select_source store;
  sourceId ← match existingSource with
             | Some source => mret (Row.src_id source)
             | None =>
                 newSource ← insert_source;
                 match newSource with
                 | Some source => mret (Row.src_id source)
                 | None => throw (ErrorObject "Failed to create knowledge source")
                 end
             end;
  w ← get_world;
  job ← insert_job (pending_job sourceId (clock (calls w)) certSlug);
  match job with
  | Some jobId => mret (jobId, sourceId)
  | None => throw (ErrorObject "Failed to create scraping job")
  end.

Definition POST (request : RequestBody) (w : World)
    : Http.NextResponse * World * option Background :=
  match request with
  | Unreadable e =>
      ({| Http.status := 500; Http.json := Http.Error (error_message e) |},
       emit (ConsoleError "Scrape API error:" (Some e)) w, None)
  | Fields certSlug =>
      match certSlug with
      | Some slug =>
          if truthy slug then
            match create_job slug w with
            | (Next (jobId, sourceId), w') =>
                ({| Http.status := 200;
                    Http.json := Http.Started jobId ("Scraping started for " ++ slug) |},
                 w',
                 Some {| bg_jobId := jobId; bg_certSlug := slug;
                         bg_sourceId := sourceId |})
            | (Throw e, w') =>
                ({| Http.status := 500; Http.json := Http.Error (error_message e) |},
                 emit (ConsoleError "Scrape API error:" (Some e)) w', None)
            | (Return, w') =>
                ({| Http.status := 200; Http.json := Http.Error EmptyString |}, w', None)
            end
          else ({| Http.status := 400; Http.json := Http.Error "certSlug is required" |},
                w, None)
      | None => ({| Http.status := 400; Http.json := Http.Error "certSlug is required" |},
                 w, None)
      end
  end.

(** The slugs of the completed jobs, as GET collects them. *)
Definition scrapedCerts (w : World) : list string :=
  omap config_certSlug
       (List.filter (has_status "completed") (map snd (map_to_list (jobs w)))).

Definition GET (w : World) : Http.NextResponse * World :=
  let certs := getFCCCertifications in
  match store scraping_jobs (calls w) with
  | Failed e =>
      ({| Http.status := 500; Http.json := Http.Error (error_message e) |},
       emit (ConsoleError "Get certifications API error:" (Some e)) (tick w))
  | o =>
      let scraped := match o with Done => scrapedCerts w | _ => [] end in
      ({| Http.status := 200;
          Http.json :=
            Http.Certifications (length certs)
              (map (fun cert => (cert, existsb (String.eqb (Cert.slug cert)) scraped))
                   certs) |},
       tick w)
  end.

(** [certs.find((c) => c.slug === certSlug)] *)
Definition find_cert (certSlug : string) : option Cert.FCCCertification :=
  List.find (fun c => String.eqb (Cert.slug c) certSlug) getFCCCertifications.

(** The catch block of scrapeInBackground; its update is not guarded, so a
    throw of the database leaves the function. *)
Definition mark_failed (jobId : string) (e : Thrown) (sv : Server)
    : option Thrown * Server :=
  let w := emit (ConsoleError "Background scraping error:" (Some e)) (db sv) in
  match update_job store jobId (failed_updates (error_message e) (clock (calls w))) w with
  | (Throw e', w') => (Some e', {| db := w'; last_scraped_at := last_scraped_at sv |})
  | (_, w') => (None, {| db := w'; last_scraped_at := last_scraped_at sv |})
  end.

(** [from('knowledge_sources').update({ last_scraped_at }).eq('id', sourceId)] *)
Definition touch_source (sourceId : string) (sv : Server) : Flow unit * Server :=
  let w := db sv in
  match store knowledge_sources (calls w) with
  | Done =>
      (Next tt,
       {| db := tick w;
          last_scraped_at :=
            if existsb (fun r => String.eqb (Row.src_id r) sourceId) (sources w)
            then <[sourceId := clock (calls w)]> (last_scraped_at sv)
            else last_scraped_at sv |})
  | Refused => (Next tt, on_db tick sv)
  | Failed e => (Throw e, on_db tick sv)
  end.

(** [None] stands for a batch loop that has not ended within [fuel] rounds;
    otherwise the value the function has thrown, if any, and the database. *)
Definition scrapeInBackground (fuel : nat) (jobId certSlug sourceId : string)
    (sv : Server) : option (option Thrown * Server) :=
  match find_cert certSlug with
  | None =>
      Some (mark_failed jobId
              (ErrorObject ("Certification " ++ certSlug ++ " not found")) sv)
  | Some cert =>
      match scrapeCertification engine_sort listing_get page_get store clock
              (new_config None) fuel cert jobId false (db sv) with
      | None => None
      | Some (_, w) =>
          match touch_source sourceId {| db := w; last_scraped_at := last_scraped_at sv |} with
          | (Throw e, sv') => Some (mark_failed jobId e sv')
          | (_, sv') => Some (None, sv')
          end
      end
  end.

Ltac unfold_route :=
  unfold create_job, insert_job, insert_source in *; unfold_actions.

Lemma single_In {A} (l : list A) (x : A) : single l = Some x -> In x l.
Proof. destruct l as [|y [|z l]]; try discriminate. intros [= ->]. now left. Qed.

(** The FreeCodeCamp source, as [.single()] answers it. *)
Definition registered (w : World) : option Row.SourceRow :=
  single (List.filter (fun r => String.eqb (Row.src_url r) FCC_BASE) (sources w)).

(** What create_job leaves: a job and its source, or a thrown value. *)
Lemma create_job_cases (certSlug : string) (w : World) :
  (exists jobId sourceId now w',
     create_job certSlug w = (Next (jobId, sourceId), w')
     /\ jobs w !! jobId = None
     /\ jobs w' = <[jobId := pending_job sourceId now certSlug]> (jobs w)
     /\ contents w' = contents w
     /\ (exists source, In source (sources w') /\ Row.src_id source = sourceId
                        /\ Row.src_url source = FCC_BASE)
     /\ ((store knowledge_sources (calls w) = Done
          /\ (exists source, registered w = Some source /\ Row.src_id source = sourceId)
          /\ sources w' = sources w)
         \/ ((store knowledge_sources (calls w) = Refused \/ registered w = None)
             /\ sources w'
                = (sources w ++ [{| Row.src_id := sourceId; Row.src_url := FCC_BASE |}])%list
             /\ forall r, In r (sources w) -> Row.src_id r <> sourceId)))
  \/ (exists e w',
        create_job certSlug w = (Throw e, w')
        /\ jobs w' = jobs w /\ contents w' = contents w).
Proof.
  without_environment. unfold registered. unfold_route.
  repeat (case_match; cbn in *); simplify_eq; cbn in *.
  all: try (right; eexists _, _; split; [reflexivity|]; split; reflexivity).
  all: left; eexists _, _, _, _; split; [reflexivity|].
  all: split; [eassumption|]; split; [reflexivity|]; split; [reflexivity|].
  - split.
    + match goal with H : single _ = Some _ |- _ =>
        apply single_In, filter_In in H as [Hin Hurl] end.
      apply String.eqb_eq in Hurl. eexists. split; [exact Hin|]. now split.
    + left. split; [first [assumption | reflexivity]|]. split; [eauto | reflexivity].
  - split.
    + eexists. split; [cbn; apply in_app_iff; right; now left|]. now split.
    + right. split; [now right|]. split; [reflexivity|].
      intros r Hr Hid.
      match goal with H : existsb _ _ = false |- _ =>
        apply not_true_iff_false in H; apply H end.
      apply existsb_exists. exists r. split; [exact Hr|]. now apply String.eqb_eq.
  - split.
    + eexists. split; [cbn; apply in_app_iff; right; now left|]. now split.
    + right. split; [now left|]. split; [reflexivity|].
      intros r Hr Hid.
      match goal with H : existsb _ _ = false |- _ =>
        apply not_true_iff_false in H; apply H end.
      apply existsb_exists. exists r. split; [exact Hr|]. now apply String.eqb_eq.
Qed.

Lemma find_some_In {A} (p : A -> bool) (l : list A) (x : A) :
  List.find p l = Some x -> In x l /\ p x = true.
Proof. apply find_some. Qed.

(** X19.  What POST answers.  It answers 400 exactly when the body has no
    certSlug (or an empty one), and then makes no database call; it answers
    200 exactly when it has created a job and started the background task,
    and 500 otherwise.  A job it creates is new, pending, with all counters
    at zero, bound to a FreeCodeCamp source and to the requested slug, and
    its id is the jobId of the answer.  The slug is not compared with the
    certifications: any non-empty slug is accepted.  POST never touches the
    content table, and leaves the job table alone unless it answers 200. *)
Theorem POST_outcomes (request : RequestBody) (w : World)
    (response : Http.NextResponse) (w' : World) (background : option Background) :
  POST request w = (response, w', background) ->
  (Http.status response = 200 \/ Http.status response = 400
   \/ Http.status response = 500)
  /\ (Http.status response = 400 <->
      request = Fields None \/ request = Fields (Some EmptyString))
  /\ (Http.status response = 400 ->
      Http.json response = Http.Error "certSlug is required" /\ w' = w)
  /\ (Http.status response = 200 <-> background <> None)
  /\ (Http.status response <> 200 -> jobs w' = jobs w)
  /\ contents w' = contents w
  /\ (forall b, background = Some b ->
        request = Fields (Some (bg_certSlug b))
        /\ Http.json response
           = Http.Started (bg_jobId b) ("Scraping started for " ++ bg_certSlug b)
        /\ jobs w !! bg_jobId b = None
        /\ (exists now,
              jobs w' = <[bg_jobId b := pending_job (bg_sourceId b) now (bg_certSlug b)]>
                          (jobs w))
        /\ exists source, In source (sources w') /\ Row.src_id source = bg_sourceId b
                          /\ Row.src_url source = FCC_BASE).
Proof.
  without_environment. unfold POST. intros HP.
  destruct request as [e|[slug|]].
  - injection HP as <- <- <-. cbn.
    split; [tauto|]. split; [split; [discriminate | intros [|]; discriminate]|].
    split; [discriminate|]. split; [split; [discriminate | tauto]|].
    split; [reflexivity|]. split; [reflexivity | discriminate].
  - destruct (truthy slug) eqn:Ht.
    + assert (Hslug : slug <> EmptyString) by (intros ->; discriminate).
      destruct (create_job_cases slug w)
        as [(jobId & sourceId & now & w1 & Hm & Hfresh & Hjobs & Hc & Hsrc & _)
           |(e & w1 & Hm & Hjobs & Hc)];
        rewrite Hm in HP; injection HP as <- <- <-; cbn.
      * split; [tauto|]. split; [split; [discriminate | intros [|]; congruence]|].
        split; [discriminate|]. split; [split; [discriminate | reflexivity]|].
        split; [congruence|]. split; [exact Hc|].
        intros b [= <-]. cbn. split; [reflexivity|]. split; [reflexivity|].
        split; [exact Hfresh|]. split; [eauto | exact Hsrc].
      * split; [tauto|]. split; [split; [discriminate | intros [|]; congruence]|].
        split; [discriminate|]. split; [split; [discriminate | tauto]|].
        split; [intros _; exact Hjobs|]. split; [exact Hc | discriminate].
    + apply truthy_false in Ht. subst slug. injection HP as <- <- <-. cbn.
      split; [tauto|]. split; [tauto|]. split; [tauto|].
      split; [split; [discriminate | tauto]|].
      split; [reflexivity|]. split; [reflexivity | discriminate].
  - injection HP as <- <- <-. cbn.
    split; [tauto|]. split; [tauto|]. split; [tauto|].
    split; [split; [discriminate | tauto]|].
    split; [reflexivity|]. split; [reflexivity | discriminate].
Qed.


(** X20.  POST gets or creates the source.  When the lookup answers exactly
    one FreeCodeCamp source, a successful POST binds the job to it and adds
    no source; when the lookup answers an error, or finds no such source or
    more than one, a successful POST has inserted one more FreeCodeCamp
    source, under an id no source had, and binds the job to it.  So once two
    FreeCodeCamp sources exist every successful POST adds another. *)
Theorem POST_source (slug : string) (w : World) (response : Http.NextResponse)
    (w' : World) (b : Background) :
  POST (Fields (Some slug)) w = (response, w', Some b) ->
  (forall source, store knowledge_sources (calls w) = Done ->
     registered w = Some source ->
     sources w' = sources w /\ bg_sourceId b = Row.src_id source)
  /\ (store knowledge_sources (calls w) = Refused \/ registered w = None ->
      sources w'
      = (sources w ++ [{| Row.src_id := bg_sourceId b; Row.src_url := FCC_BASE |}])%list
      /\ (forall r, In r (sources w) -> Row.src_id r <> bg_sourceId b)
      /\ length (List.filter (fun r => String.eqb (Row.src_url r) FCC_BASE) (sources w'))
         = S (length (List.filter (fun r => String.eqb (Row.src_url r) FCC_BASE)
                                  (sources w)))).
Proof.
  without_environment. unfold POST. intros HP.
  destruct (truthy slug); [|discriminate].
  destruct (create_job_cases slug w)
    as [(jobId & sourceId & now & w1 & Hm & _ & _ & _ & _ & Hsources)
       |(e & w1 & Hm & _)];
    rewrite Hm in HP; [|discriminate].
  injection HP as <- <- <-. cbn [bg_sourceId].
  destruct Hsources as [(Hdone & (source & Hreg & Hid) & Hsame)
                       |(Hnone & Happ & Hnew)].
  - split.
    + intros source' _ Hreg'. rewrite Hreg in Hreg'. injection Hreg' as <-.
      split; [exact Hsame | now symmetry].
    + intros [Href|Hreg']; congruence.
  - split.
    + intros source Hdone Hreg. destruct Hnone as [Href|Hreg']; congruence.
    + intros _. split; [exact Happ|]. split; [exact Hnew|].
      rewrite Happ, List.filter_app, length_app. cbn. lia.
Qed.

(** *** The certifications *)

Lemma find_cert_listed (cert : Cert.FCCCertification) :
  In cert getFCCCertifications -> find_cert (Cert.slug cert) = Some cert.
Proof.
  without_environment. unfold getFCCCertifications. cbn [In].
  intros H. repeat (destruct H as [<-|H]; [reflexivity|]). destruct H.
Qed.

Lemma find_cert_unlisted (certSlug : string) :
  ~ In certSlug (map Cert.slug getFCCCertifications) -> find_cert certSlug = None.
Proof.
  without_environment. intros Hnot. unfold find_cert.
  destruct (List.find _ _) as [c|] eqn:Hf; [|reflexivity].
  apply find_some in Hf as [Hin Heq]. apply String.eqb_eq in Heq.
  exfalso. apply Hnot. rewrite <- Heq. now apply in_map.
Qed.

(** X21.  The eight certifications have pairwise distinct slugs, so a slug
    names at most one of them, and each lies under
    [https://www.freecodecamp.org/learn/]; hence every URL a run over a
    certification discovers, its root included, lies under that prefix. *)
Theorem certifications_on_site (cert : Cert.FCCCertification) (u : string) (w : World) :
  In cert getFCCCertifications ->
  In u (fst (getCertificationPages listing_get (Cert.url cert) w)) ->
  List.NoDup (map Cert.slug getFCCCertifications)
  /\ find_cert (Cert.slug cert) = Some cert
  /\ startsWith (FCC_BASE ++ "/learn/") (Cert.url cert) = true
  /\ startsWith (FCC_BASE ++ "/learn/") u = true.
Proof.
  without_environment. intros Hcert Hu.
  assert (Hroot : startsWith (FCC_BASE ++ "/learn/") (Cert.url cert) = true).
  { revert Hcert. unfold getFCCCertifications. cbn [In].
    intros H. repeat (destruct H as [<-|H]; [reflexivity|]). destruct H. }
  split; [|split; [now apply find_cert_listed | split; [exact Hroot|]]].
  - unfold getFCCCertifications. cbn [map Cert.slug].
    repeat (constructor; [cbn [In]; intuition discriminate|]). constructor.
  - destruct (listing_get (Cert.url cert)) as [e|doc] eqn:Hget.
    + unfold getCertificationPages in Hu. rewrite Hget in Hu.
      destruct Hu as [<-|[]]. exact Hroot.
    + rewrite (discovered_urls listing_get (Cert.url cert) doc w Hget) in Hu.
      apply In_firstn, dedup_In in Hu as [Hu _].
      destruct (candidates_on_site _ _ _ Hu) as [->|H]; [exact Hroot | exact H].
Qed.

(** *** GET *)

Lemma scrapedCerts_In (slug : string) (w : World) :
  In slug (scrapedCerts w)
  <-> exists j row, jobs w !! j = Some row
                    /\ has_status "completed" row = true
                    /\ config_certSlug row = Some slug.
Proof.
  without_environment. unfold scrapedCerts.
  rewrite <- list_elem_of_In, list_elem_of_omap. split.
  - intros (row & Hrow & Hslug). apply list_elem_of_In, filter_In in Hrow as [Hrow Hst].
    apply in_map_iff in Hrow as [[j row'] [Heq Hin]]. cbn in Heq. subst row'.
    apply list_elem_of_In, elem_of_map_to_list in Hin. eauto.
  - intros (j & row & Hj & Hst & Hslug). exists row. split; [|exact Hslug].
    apply list_elem_of_In, filter_In. split; [|exact Hst].
    apply in_map_iff. exists (j, row). split; [reflexivity|].
    apply list_elem_of_In, elem_of_map_to_list. exact Hj.
Qed.

Lemma has_status_spec (s : string) (row : gmap string JsVal) :
  has_status s row = true <-> row !! "status" = Some (VString s).
Proof.
  unfold has_status. destruct (row !! "status") as [[]|]; split; try discriminate.
  - intros H. apply String.eqb_eq in H. now subst.
  - intros [= ->]. apply String.eqb_refl.
Qed.

Lemma config_certSlug_spec (slug : string) (row : gmap string JsVal) :
  config_certSlug row = Some slug
  <-> row !! "config.certSlug" = Some (VString slug) /\ slug <> EmptyString.
Proof.
  unfold config_certSlug. destruct (row !! "config.certSlug") as [[| |s]|].
  1,2,4: split; [discriminate | intros [? _]; discriminate].
  destruct s as [|c s]; cbn.
  - split; [discriminate | intros [[= <-] H]; now destruct H].
  - split; [intros [= <-]; split; [reflexivity | discriminate]|].
    intros [[= <-] _]. reflexivity.
Qed.

(** X22.  GET lists the eight certifications in their fixed order, each with
    a flag, and changes no table.  When the job table answers, a
    certification is flagged as scraped exactly when some job with status
    [completed] carries its slug; when the job table answers an error no
    certification is flagged; when it throws the answer is 500 with the
    message of the error. *)
Theorem GET_spec (w : World) :
  let response := fst (GET w) in
  let w' := snd (GET w) in
  contents w' = contents w /\ sources w' = sources w /\ jobs w' = jobs w
  /\ (forall e, store scraping_jobs (calls w) = Failed e ->
        response = {| Http.status := 500; Http.json := Http.Error (error_message e) |})
  /\ ((forall e, store scraping_jobs (calls w) <> Failed e) ->
      exists flags,
        response = {| Http.status := 200; Http.json := Http.Certifications 8 flags |}
        /\ map fst flags = getFCCCertifications
        /\ forall cert flag, In (cert, flag) flags ->
             (flag = true <->
              store scraping_jobs (calls w) = Done
              /\ exists j row, jobs w !! j = Some row
                               /\ row !! "status" = Some (VString "completed")
                               /\ row !! "config.certSlug"
                                  = Some (VString (Cert.slug cert)))).
Proof.
  without_environment. intros response w'. unfold response, w', GET.
  assert (Hslug : forall cert, In cert getFCCCertifications ->
                    Cert.slug cert <> EmptyString).
  { unfold getFCCCertifications. cbn [In]. intros cert H.
    repeat (destruct H as [<-|H]; [discriminate|]). destruct H. }
  assert (Hflags : forall scraped,
            map fst (map (fun cert => (cert, existsb (String.eqb (Cert.slug cert)) scraped))
                         getFCCCertifications) = getFCCCertifications).
  { intros scraped. rewrite map_map. cbn [fst]. apply map_id. }
  destruct (store scraping_jobs (calls w)) as [| |e] eqn:Hst; cbn [fst snd].
  - split; [reflexivity|]. split; [reflexivity|]. split; [reflexivity|].
    split; [discriminate|]. intros _. eexists. split; [reflexivity|].
    split; [apply Hflags|].
    intros cert flag Hin. apply in_map_iff in Hin as [c [[= <- <-] Hc]].
    split.
    + intros Hex. split; [reflexivity|].
      apply existsb_exists in Hex as [slug [Hin Heq]]. apply String.eqb_eq in Heq.
      subst slug. apply scrapedCerts_In in Hin as (j & row & Hj & Hs & Hcfg).
      exists j, row. split; [exact Hj|]. split; [now apply has_status_spec|].
      now apply config_certSlug_spec in Hcfg.
    + intros [_ (j & row & Hj & Hs & Hcfg)]. apply existsb_exists.
      exists (Cert.slug c). split; [|apply String.eqb_refl].
      apply scrapedCerts_In. exists j, row. split; [exact Hj|].
      split; [now apply has_status_spec|]. apply config_certSlug_spec.
      split; [exact Hcfg | now apply Hslug].
  - split; [reflexivity|]. split; [reflexivity|]. split; [reflexivity|].
    split; [discriminate|]. intros _. eexists. split; [reflexivity|].
    split; [apply Hflags|].
    intros cert flag Hin. apply in_map_iff in Hin as [c [[= <- <-] Hc]].
    cbn. split; [discriminate | intros [? _]; discriminate].
  - split; [reflexivity|]. split; [reflexivity|]. split; [reflexivity|].
    split; [intros e' [= <-]; reflexivity|]. intros H. now destruct (H e).
Qed.

(** *** scrapeInBackground *)

Lemma failed_updates_lookup (message now : string) :
  failed_updates message now !! "status" = Some (VString "failed")
  /\ failed_updates message now !! "error_message" = Some (VString message)
  /\ failed_updates message now !! "completed_at" = Some (VString now)
  /\ forall k, k <> "status" -> k <> "error_message" -> k <> "completed_at" ->
               failed_updates message now !! k = None.
Proof.
  unfold failed_updates. split; [now rewrite lookup_insert_eq|].
  split; [rewrite lookup_insert_ne by discriminate; now rewrite lookup_insert_eq|].
  split; [rewrite !lookup_insert_ne by discriminate; now rewrite lookup_insert_eq|].
  intros k H1 H2 H3. rewrite !lookup_insert_ne by congruence. apply lookup_empty.
Qed.

(** What the catch block of scrapeInBackground does. *)
Lemma mark_failed_spec (jobId : string) (e : Thrown) (sv : Server) :
  let thrown := fst (mark_failed jobId e sv) in
  let sv' := snd (mark_failed jobId e sv) in
  contents (db sv') = contents (db sv)
  /\ sources (db sv') = sources (db sv)
  /\ last_scraped_at sv' = last_scraped_at sv
  /\ (forall j, j <> jobId -> jobs (db sv') !! j = jobs (db sv) !! j)
  /\ (store scraping_jobs (calls (db sv)) = Done ->
      thrown = None
      /\ jobs (db sv') !! jobId
         = (fun row => failed_updates (error_message e) (clock (calls (db sv))) ∪ row)
             <$> jobs (db sv) !! jobId)
  /\ (store scraping_jobs (calls (db sv)) = Refused ->
      thrown = None /\ jobs (db sv') = jobs (db sv))
  /\ (forall e', store scraping_jobs (calls (db sv)) = Failed e' ->
        thrown = Some e' /\ jobs (db sv') = jobs (db sv)).
Proof.
  without_environment. unfold mark_failed, update_job, db_call, modify, throw.
  unfold mbind, action_bind, mret, action_ret.
  cbn [calls emit]. destruct (store scraping_jobs (calls (db sv))) as [| |e'];
    cbn [fst snd db last_scraped_at contents sources jobs emit set_jobs tick].
  - split; [reflexivity|]. split; [reflexivity|]. split; [reflexivity|].
    split; [intros j Hj; apply lookup_alter_ne; congruence|].
    split; [intros _; split; [reflexivity|]; apply lookup_alter_eq|].
    split; discriminate.
  - split; [reflexivity|]. split; [reflexivity|]. split; [reflexivity|].
    split; [reflexivity|]. split; [discriminate|].
    split; [intros _; split; reflexivity | discriminate].
  - split; [reflexivity|]. split; [reflexivity|]. split; [reflexivity|].
    split; [reflexivity|]. split; [discriminate|]. split; [discriminate|].
    intros e'' [= <-]. split; reflexivity.
Qed.

(** X23.  For a slug that names none of the eight certifications the
    background task scrapes nothing: it logs the error and marks the job as
    failed with the message [Certification <slug> not found] and a
    completion time, leaving the other columns, the other jobs, the content
    and the sources alone.  The update of the job is not guarded: when the
    database throws on it the task itself throws. *)
Theorem scrapeInBackground_unknown_slug (fuel : nat) (jobId certSlug sourceId : string)
    (sv : Server) :
  ~ In certSlug (map Cert.slug getFCCCertifications) ->
  exists thrown sv',
    scrapeInBackground fuel jobId certSlug sourceId sv = Some (thrown, sv')
    /\ contents (db sv') = contents (db sv)
    /\ sources (db sv') = sources (db sv)
    /\ last_scraped_at sv' = last_scraped_at sv
    /\ (forall j, j <> jobId -> jobs (db sv') !! j = jobs (db sv) !! j)
    /\ (store scraping_jobs (calls (db sv)) = Done ->
        thrown = None
        /\ forall row0, jobs (db sv) !! jobId = Some row0 ->
             exists row,
               jobs (db sv') !! jobId = Some row
               /\ row !! "status" = Some (VString "failed")
               /\ row !! "error_message"
                  = Some (VString ("Certification " ++ certSlug ++ " not found"))
               /\ row !! "completed_at" = Some (VString (clock (calls (db sv))))
               /\ forall k, k <> "status" -> k <> "error_message" ->
                            k <> "completed_at" -> row !! k = row0 !! k)
    /\ (forall e, store scraping_jobs (calls (db sv)) = Failed e ->
          thrown = Some e /\ jobs (db sv') = jobs (db sv)).
Proof.
  without_environment. intros Hslug. unfold scrapeInBackground.
  rewrite (find_cert_unlisted certSlug Hslug).
  set (e := ErrorObject ("Certification " ++ certSlug ++ " not found")).
  destruct (mark_failed_spec jobId e sv) as (Hc & Hs & Hl & Hj & Hdone & _ & Hthrow).
  destruct (mark_failed jobId e sv) as [thrown sv'] eqn:Hm. cbn [fst snd] in *.
  exists thrown, sv'. split; [reflexivity|]. split; [exact Hc|]. split; [exact Hs|].
  split; [exact Hl|]. split; [exact Hj|]. split; [|exact Hthrow].
  intros Hst. destruct (Hdone Hst) as [Hnone Hrow]. split; [exact Hnone|].
  intros row0 Hrow0. rewrite Hrow, Hrow0. cbn [fmap option_fmap option_map].
  eexists. split; [reflexivity|].
  destruct (failed_updates_lookup (error_message e) (clock (calls (db sv))))
    as (H1 & H2 & H3 & H4).
  rewrite !patch_lookup, H1, H2, H3. split; [reflexivity|]. split; [reflexivity|].
  split; [reflexivity|]. intros k Hk1 Hk2 Hk3. rewrite patch_lookup, H4 by assumption.
  reflexivity.
Qed.

Lemma default_concurrency : 0 < concurrency (new_config None).
Proof. cbn. lia. Qed.

(** X24.  For one of the eight certifications, when the database carries the
    job updates out and does not throw on the final update of the source,
    the background task runs the certification and ends without throwing:
    the job is left completed, with urls_processed equal to total_urls and
    progress 100, its slug and its other columns untouched, it is never
    marked failed, and when the source update is carried out the source of
    the given id, if there is one, gets the time of that update as
    last_scraped_at. *)
Theorem scrapeInBackground_completes (fuel : nat) (jobId sourceId : string)
    (cert : Cert.FCCCertification) (sv : Server) (row0 : gmap string JsVal) :
  In cert getFCCCertifications -> 50 <= fuel ->
  (forall n, store scraping_jobs n = Done) ->
  (forall n e, store knowledge_sources n <> Failed e) ->
  jobs (db sv) !! jobId = Some row0 ->
  exists s w1 sv' row,
    scrapeCertification engine_sort listing_get page_get store clock (new_config None)
      fuel cert jobId false (db sv) = Some (s, w1)
    /\ scrapeInBackground fuel jobId (Cert.slug cert) sourceId sv = Some (None, sv')
    /\ db sv' = tick w1
    /\ jobs (db sv') !! jobId = Some row
    /\ row !! "status" = Some (VString "completed")
    /\ row !! "total_urls" = Some (VInt (Summary.total s))
    /\ row !! "urls_processed" = Some (VInt (Summary.total s))
    /\ row !! "progress_percentage" = Some (VNumber (Number.of_nat 100))
    /\ (forall k, ~ In k job_fields -> row !! k = row0 !! k)
    /\ (store knowledge_sources (calls w1) = Done ->
        In sourceId (map Row.src_id (sources w1)) ->
        last_scraped_at sv' !! sourceId = Some (clock (calls w1))).
Proof.
  intros Hcert Hfuel Hjobs Hsrc Hrow0.
  destruct (run_job_record engine_sort listing_get page_get store clock (new_config None)
              fuel cert jobId false (db sv) row0 default_concurrency Hfuel Hjobs Hrow0)
    as (s & w1 & row & Hrun & Hrow & Hst & Htot & Hproc & _ & _ & Hpct & _ & _
          & Hframe & _).
  unfold scrapeInBackground. rewrite (find_cert_listed cert Hcert), Hrun.
  unfold touch_source. cbn [db last_scraped_at].
  destruct (store knowledge_sources (calls w1)) as [| |e] eqn:Hupd.
  - eexists s, w1, _, row. split; [reflexivity|]. split; [reflexivity|].
    cbn [db last_scraped_at jobs tick].
    split; [reflexivity|]. split; [exact Hrow|]. split; [exact Hst|].
    split; [exact Htot|]. split; [exact Hproc|]. split; [exact Hpct|].
    split; [exact Hframe|]. intros _ Hin.
    assert (Hex : existsb (fun r => String.eqb (Row.src_id r) sourceId) (sources w1)
                  = true).
    { apply in_map_iff in Hin as [r [Hid Hr]]. apply existsb_exists. exists r.
      split; [exact Hr|]. now apply String.eqb_eq. }
    rewrite Hex. apply lookup_insert_eq.
  - eexists s, w1, _, row. split; [reflexivity|]. split; [reflexivity|].
    cbn [db on_db last_scraped_at jobs tick].
    split; [reflexivity|]. split; [exact Hrow|]. split; [exact Hst|].
    split; [exact Htot|]. split; [exact Hproc|]. split; [exact Hpct|].
    split; [exact Hframe|]. intros H. rewrite Hupd in H. discriminate.
  - now destruct (Hsrc (calls w1) e).
Qed.

(** X25.  The final update of the source sits inside the guarded block.
    When the database throws on it after a run that went through, the job
    the run has just marked completed is marked failed, with the message of
    that error, while its counters still tell the whole run: urls_processed
    equal to total_urls and progress 100. *)
Theorem scrapeInBackground_source_update_throws (fuel : nat) (jobId sourceId : string)
    (cert : Cert.FCCCertification) (sv : Server) (row0 : gmap string JsVal)
    (s : Summary.t) (w1 : World) (e : Thrown) :
  In cert getFCCCertifications -> 50 <= fuel ->
  (forall n, store scraping_jobs n = Done) ->
  jobs (db sv) !! jobId = Some row0 ->
  scrapeCertification engine_sort listing_get page_get store clock (new_config None)
    fuel cert jobId false (db sv) = Some (s, w1) ->
  store knowledge_sources (calls w1) = Failed e ->
  exists sv' row,
    scrapeInBackground fuel jobId (Cert.slug cert) sourceId sv = Some (None, sv')
    /\ jobs (db sv') !! jobId = Some row
    /\ row !! "status" = Some (VString "failed")
    /\ row !! "error_message" = Some (VString (error_message e))
    /\ row !! "urls_processed" = Some (VInt (Summary.total s))
    /\ row !! "total_urls" = Some (VInt (Summary.total s))
    /\ row !! "progress_percentage" = Some (VNumber (Number.of_nat 100))
    /\ last_scraped_at sv' = last_scraped_at sv.
Proof.
  intros Hcert Hfuel Hjobs Hrow0 Hrun Hupd.
  destruct (run_job_record engine_sort listing_get page_get store clock (new_config None)
              fuel cert jobId false (db sv) row0 default_concurrency Hfuel Hjobs Hrow0)
    as (s' & w1' & row & Hrun' & Hrow & _ & Htot & Hproc & _ & _ & Hpct & _).
  rewrite Hrun in Hrun'. injection Hrun' as <- <-.
  unfold scrapeInBackground. rewrite (find_cert_listed cert Hcert), Hrun.
  unfold touch_source. cbn [db last_scraped_at]. rewrite Hupd.
  set (sv1 := on_db tick _).
  destruct (mark_failed_spec jobId e sv1) as (_ & _ & Hl & _ & Hdone & _).
  destruct (mark_failed jobId e sv1) as [thrown sv'] eqn:Hm. cbn [fst snd] in *.
  destruct (Hdone (Hjobs _)) as [-> Hrow'].
  exists sv'. eexists. split; [reflexivity|].
  split; [rewrite Hrow'; unfold sv1; cbn [db on_db jobs tick]; rewrite Hrow;
          reflexivity|].
  match goal with
  | |- context [failed_updates ?m ?n] =>
      destruct (failed_updates_lookup m n) as (H1 & H2 & _ & H4)
  end.
  rewrite !patch_lookup, H1, H2, !H4 by discriminate.
  split; [reflexivity|]. split; [reflexivity|]. split; [exact Hproc|].
  split; [exact Htot|]. split; [exact Hpct | exact Hl].
Qed.

(** X26.  From a request to the listing.  When every database call is
    carried out and POST has accepted a request for one of the eight
    certifications, the background task it started, run to its end, leaves
    the job completed, and a GET made afterwards flags that certification
    as scraped. *)
Theorem scraped_after_POST (fuel : nat) (cert : Cert.FCCCertification) (w w1 : World)
    (response : Http.NextResponse) (b : Background) (times : gmap string string) :
  In cert getFCCCertifications -> 50 <= fuel ->
  (forall t n, store t n = Done) ->
  POST (Fields (Some (Cert.slug cert))) w = (response, w1, Some b) ->
  exists sv2 flags,
    scrapeInBackground fuel (bg_jobId b) (bg_certSlug b) (bg_sourceId b)
      {| db := w1; last_scraped_at := times |} = Some (None, sv2)
    /\ fst (GET (db sv2))
       = {| Http.status := 200; Http.json := Http.Certifications 8 flags |}
    /\ In (cert, true) flags.
Proof.
  intros Hcert Hfuel Hstore HP. unfold POST in HP.
  destruct (truthy (Cert.slug cert)) eqn:Ht; [|discriminate].
  destruct (create_job_cases (Cert.slug cert) w)
    as [(jobId & sourceId & now & w1' & Hm & _ & Hjobs & _)|(e & w1' & Hm & _)];
    rewrite Hm in HP; [|discriminate].
  injection HP as <- <- <-. cbn [bg_jobId bg_certSlug bg_sourceId].
  assert (Hrow0 : jobs w1' !! jobId
                  = Some (pending_job sourceId now (Cert.slug cert)))
    by (rewrite Hjobs; apply lookup_insert_eq).
  destruct (run_job_record engine_sort listing_get page_get store clock (new_config None)
              fuel cert jobId false w1' _ default_concurrency Hfuel
              (Hstore scraping_jobs) Hrow0)
    as (s & w2 & row & Hrun & Hrow & Hst & _ & _ & _ & _ & _ & _ & _ & Hframe & _).
  unfold scrapeInBackground. rewrite (find_cert_listed cert Hcert).
  cbn [db last_scraped_at]. rewrite Hrun. unfold touch_source.
  cbn [db last_scraped_at]. rewrite (Hstore knowledge_sources).
  eexists _, _. split; [reflexivity|]. cbn [db].
  unfold GET. cbn [calls tick]. rewrite (Hstore scraping_jobs). cbn [fst].
  split; [reflexivity|]. apply in_map_iff. exists cert. split; [|exact Hcert].
  f_equal. apply existsb_exists. exists (Cert.slug cert).
  split; [|apply String.eqb_refl].
  apply scrapedCerts_In. exists jobId, row. cbn [jobs tick].
  split; [exact Hrow|]. split; [now apply has_status_spec|].
  unfold config_certSlug. rewrite Hframe by (simpl; intuition discriminate).
  unfold pending_job. rewrite !lookup_insert_ne by discriminate.
  rewrite lookup_insert_eq. now rewrite Ht.
Qed.

End Route.

(** ** The route at the sample inputs *)

Definition sample_id (n : nat) : string := "row-" ++ Number.to_string n.

(** The job table works; the source table throws at every call. *)
Definition sources_down (t : Table) (n : nat) : Outcome :=
  match t with
  | knowledge_sources => Failed (ErrorObject "fetch failed")
  | _ => Done
  end.

Definition sample_server : Server := {| db := Sample.world; last_scraped_at := ∅ |}.

Lemma POST_outcomes_witness :
  exists response w' b,
    POST Sample.reliable Sample.clock sample_id (Fields (Some "no-such-certification"))
         Sample.world = (response, w', Some b)
    /\ Http.status response = 200
    /\ Http.json response
       = Http.Started (bg_jobId b) "Scraping started for no-such-certification".
Proof.
  destruct (POST Sample.reliable Sample.clock sample_id
              (Fields (Some "no-such-certification")) Sample.world)
    as [[response w'] [b|]] eqn:HP; [|vm_compute in HP; discriminate].
  destruct (POST_outcomes Sample.reliable Sample.clock sample_id _ _ _ _ _ HP)
    as (_ & _ & _ & H200 & _ & _ & Hb).
  destruct (Hb b eq_refl) as ([= <-] & Hjson & _).
  exists response, w', b. split; [reflexivity|]. split; [|exact Hjson].
  apply H200. discriminate.
Defined.

Lemma POST_source_witness :
  exists response w' b,
    POST Sample.reliable Sample.clock sample_id (Fields (Some "responsive-web-design"))
         Sample.world = (response, w', Some b)
    /\ sources w' = sources Sample.world
    /\ bg_sourceId b = "source-1".
Proof.
  destruct (POST Sample.reliable Sample.clock sample_id
              (Fields (Some "responsive-web-design")) Sample.world)
    as [[response w'] [b|]] eqn:HP; [|vm_compute in HP; discriminate].
  destruct (POST_source Sample.reliable Sample.clock sample_id _ _ _ _ _ HP) as [H _].
  destruct (H {| Row.src_id := "source-1"; Row.src_url := FCC_BASE |} eq_refl eq_refl)
    as [Hs Hb].
  exists response, w', b. split; [reflexivity|]. split; [exact Hs | exact Hb].
Defined.

Lemma certifications_on_site_witness :
  startsWith (FCC_BASE ++ "/learn/") "https://www.freecodecamp.org/learn/b" = true.
Proof.
  apply (certifications_on_site Sample.listing Sample.cert
           "https://www.freecodecamp.org/learn/b" Sample.world).
  - now left.
  - vm_compute. tauto.
Defined.

Lemma GET_spec_witness :
  exists flags,
    fst (GET Sample.reliable Sample.world)
    = {| Http.status := 200; Http.json := Http.Certifications 8 flags |}
    /\ map fst flags = getFCCCertifications.
Proof.
  destruct (GET_spec Sample.reliable Sample.world) as (_ & _ & _ & _ & H).
  destruct H as (flags & Hr & Hf & _); [discriminate|].
  exists flags. split; [exact Hr | exact Hf].
Defined.

Lemma scrapeInBackground_unknown_slug_witness :
  exists sv' row,
    scrapeInBackground Sample.engine Sample.listing Sample.page Sample.reliable
      Sample.clock 50 "job-1" "no-such-certification" "source-1" sample_server
    = Some (None, sv')
    /\ jobs (db sv') !! "job-1" = Some row
    /\ row !! "error_message"
       = Some (VString "Certification no-such-certification not found").
Proof.
  destruct (scrapeInBackground_unknown_slug Sample.engine Sample.listing Sample.page
              Sample.reliable Sample.clock 50 "job-1" "no-such-certification"
              "source-1" sample_server)
    as (thrown & sv' & Hrun & _ & _ & _ & _ & Hdone & _).
  - simpl. intuition discriminate.
  - destruct (Hdone eq_refl) as [-> Hrow].
    destruct (Hrow ∅ eq_refl) as (row & Hj & _ & Hm & _).
    exists sv', row. split; [exact Hrun|]. split; [exact Hj | exact Hm].
Defined.

Lemma scrapeInBackground_completes_witness :
  exists sv' row,
    scrapeInBackground Sample.engine Sample.listing Sample.page Sample.reliable
      Sample.clock 50 "job-1" "responsive-web-design" "source-1" sample_server
    = Some (None, sv')
    /\ jobs (db sv') !! "job-1" = Some row
    /\ row !! "status" = Some (VString "completed")
    /\ is_Some (last_scraped_at sv' !! "source-1").
Proof.
  destruct (scrapeInBackground_completes Sample.engine Sample.listing Sample.page
              Sample.reliable Sample.clock 50 "job-1" "source-1" Sample.cert
              sample_server ∅)
    as (s & w1 & sv' & row & Hrun & Hbg & _ & Hrow & Hst & _ & _ & _ & _ & Hlast).
  - now left.
  - lia.
  - reflexivity.
  - discriminate.
  - reflexivity.
  - exists sv', row. split; [exact Hbg|]. split; [exact Hrow|]. split; [exact Hst|].
    rewrite Hlast; [eauto | reflexivity|].
    vm_compute in Hrun. injection Hrun as _ <-. now left.
Defined.

Lemma scrapeInBackground_source_update_throws_witness :
  exists sv' row,
    scrapeInBackground Sample.engine Sample.listing Sample.page sources_down
      Sample.clock 50 "job-1" "responsive-web-design" "source-1" sample_server
    = Some (None, sv')
    /\ jobs (db sv') !! "job-1" = Some row
    /\ row !! "status" = Some (VString "failed")
    /\ row !! "error_message" = Some (VString "fetch failed")
    /\ row !! "progress_percentage" = Some (VNumber (Number.of_nat 100)).
Proof.
  destruct (scrapeCertification Sample.engine Sample.listing Sample.page sources_down
              Sample.clock (new_config None) 50 Sample.cert "job-1" false Sample.world)
    as [[s w1]|] eqn:Hrun; [|vm_compute in Hrun; discriminate].
  destruct (scrapeInBackground_source_update_throws Sample.engine Sample.listing
              Sample.page sources_down Sample.clock 50 "job-1" "source-1" Sample.cert
              sample_server ∅ s w1 (ErrorObject "fetch failed"))
    as (sv' & row & Hbg & Hrow & Hst & Hmsg & _ & _ & Hpct & _).
  - now left.
  - lia.
  - reflexivity.
  - reflexivity.
  - exact Hrun.
  - reflexivity.
  - exists sv', row. split; [exact Hbg|]. split; [exact Hrow|]. split; [exact Hst|].
    split; [exact Hmsg | exact Hpct].
Defined.

Lemma scraped_after_POST_witness :
  exists response w1 b sv2 flags,
    POST Sample.reliable Sample.clock sample_id (Fields (Some "responsive-web-design"))
         Sample.world = (response, w1, Some b)
    /\ scrapeInBackground Sample.engine Sample.listing Sample.page Sample.reliable
         Sample.clock 50 (bg_jobId b) (bg_certSlug b) (bg_sourceId b)
         {| db := w1; last_scraped_at := ∅ |} = Some (None, sv2)
    /\ fst (GET Sample.reliable (db sv2))
       = {| Http.status := 200; Http.json := Http.Certifications 8 flags |}
    /\ In (Sample.cert, true) flags.
Proof.
  destruct (POST Sample.reliable Sample.clock sample_id
              (Fields (Some "responsive-web-design")) Sample.world)
    as [[response w1] [b|]] eqn:HP; [|vm_compute in HP; discriminate].
  destruct (scraped_after_POST Sample.engine Sample.listing Sample.page Sample.reliable
              Sample.clock sample_id 50 Sample.cert Sample.world w1 response b ∅)
    as (sv2 & flags & Hbg & Hget & Hin).
  - now left.
  - lia.
  - reflexivity.
  - exact HP.
  - exists response, w1, b, sv2, flags. split; [reflexivity|]. split; [exact Hbg|].
    split; [exact Hget | exact Hin].
Defined.
